(** * MetronAuditOps: the population orchestrator of [backend/app/scheduler.py]

    A shallow embedding of the scheduler module: the job lock, the per-date
    state stores, the population entry point, the run ledger, the catch-up
    detector and the smart retry engine.  Module-level globals of the Python
    file become the fields of one [World] record that every operation threads
    explicitly; Python exceptions and early [return]s become the [Ctl] result
    of a small state-and-error monad.  External collaborators (S3 download,
    DynamoDB tables, the AI stages, the clock) are observations supplied by
    environment records, and every call made to them is appended to a trace. *)

From Stdlib Require Import ZArith String Ascii List.
From stdpp Require Import gmap strings list fin_maps pretty.
Import ListNotations.

Open Scope string_scope.
Open Scope Z_scope.

(** ** Data model *)

(** [_date_propagation_state]: [{date: {running: bool, noData: bool}}]. *)
Record PropagationState := mkProp {
  running : bool;
  noData : bool
}.

(** [coverage] sub-dictionary of an AI state. *)
Record Coverage := mkCov {
  total : Z;
  withPan : Z
}.

(** [_ai_state]: [{date: {running, completedAt, lastError, coverage}}];
    Python's [None] is [None]. *)
Record AIState := mkAI {
  ai_running : bool;
  completedAt : option string;
  lastError : option string;
  coverage : Coverage
}.

(** Item written by [_record_successful_run] into the audit-session table. *)
Record RunRecord := mkRun {
  RestaurantDate : string;
  RunID : string;
  RunTime : string;
  RunType : string;
  Status : string
}.

(** Entry of [.ai_retry_state.json]; a missing key of the JSON object is
    [None], which is what [entry.get] distinguishes. *)
Record RetryEntry := mkRetry {
  day : option string;
  attempts : option Z;
  last_ts : option Z
}.

(** Calls to external collaborators, in the order they are made. *)
Inductive Event :=
| EvDownload (date_str : option string)
| EvExtract
| EvAIPipeline (csv : string)
| EvPopulateCsv (csv : string)
| EvVerifyCounts
| EvVerifySample
| EvRecordRun (hhmm run_type : string)
| EvRetryScan
| EvRetryEval (csv : string)
| EvEnrich (csv : string).

(** The module's global state together with the two persisted stores
    (run-tracking items of the audit-session table, the retry-state file). *)
Record World := mkWorld {
  job_lock : bool;
  date_propagation_state : gmap string PropagationState;
  ai_state : gmap string AIState;
  last_ui_trigger_ts : Z;
  ledger : list RunRecord;
  retry_state : gmap string RetryEntry;
  trace : list Event
}.

Definition with_lock (b : bool) (w : World) : World :=
  mkWorld b (date_propagation_state w) (ai_state w) (last_ui_trigger_ts w)
          (ledger w) (retry_state w) (trace w).
Definition with_prop (m : gmap string PropagationState) (w : World) : World :=
  mkWorld (job_lock w) m (ai_state w) (last_ui_trigger_ts w)
          (ledger w) (retry_state w) (trace w).
Definition with_ai (m : gmap string AIState) (w : World) : World :=
  mkWorld (job_lock w) (date_propagation_state w) m (last_ui_trigger_ts w)
          (ledger w) (retry_state w) (trace w).
Definition with_ui_ts (t : Z) (w : World) : World :=
  mkWorld (job_lock w) (date_propagation_state w) (ai_state w) t
          (ledger w) (retry_state w) (trace w).
Definition with_ledger (l : list RunRecord) (w : World) : World :=
  mkWorld (job_lock w) (date_propagation_state w) (ai_state w)
          (last_ui_trigger_ts w) l (retry_state w) (trace w).
Definition with_retry (m : gmap string RetryEntry) (w : World) : World :=
  mkWorld (job_lock w) (date_propagation_state w) (ai_state w)
          (last_ui_trigger_ts w) (ledger w) m (trace w).
Definition with_trace (t : list Event) (w : World) : World :=
  mkWorld (job_lock w) (date_propagation_state w) (ai_state w)
          (last_ui_trigger_ts w) (ledger w) (retry_state w) t.

(** The state of a freshly imported module. *)
Definition initial_world : World :=
  mkWorld false ∅ ∅ 0 [] ∅ [].

(** ** Control results and the state monad *)

(** How a block of Python statements ends: it falls through with a value,
    executes [return], or raises. *)
Inductive Ctl (A : Type) :=
| Normal (a : A)
| Returned
| Raised.
Arguments Normal {A} a.
Arguments Returned {A}.
Arguments Raised {A}.

Definition M (A : Type) : Type := World -> Ctl A * World.

Definition ret {A} (a : A) : M A := fun w => (Normal a, w).
Definition bind {A B} (m : M A) (k : A -> M B) : M B :=
  fun w => match m w with
           | (Normal a, w') => k a w'
           | (Returned, w') => (Returned, w')
           | (Raised, w') => (Raised, w')
           end.
Definition return_ {A} : M A := fun w => (Returned, w).
Definition raise {A} : M A := fun w => (Raised, w).
Definition modify (f : World -> World) : M unit := fun w => (Normal tt, f w).
Definition gets {A} (f : World -> A) : M A := fun w => (Normal (f w), w).
Definition emit (e : Event) : M unit :=
  modify (fun w => with_trace (trace w ++ [e]) w).
(** A collaborator call that raises when [ok] is false. *)
Definition guard (ok : bool) : M unit := if ok then ret tt else raise.

Declare Scope sched_scope.
Delimit Scope sched_scope with sched.
Notation "x <- c1 ;; c2" := (bind c1 (fun x => c2))
  (at level 100, c1 at next level, right associativity) : sched_scope.
Notation "c1 ;; c2" := (bind c1 (fun _ => c2))
  (at level 100, right associativity) : sched_scope.
Open Scope sched_scope.

(** [try: body except Exception: handler], where the handler falls through. *)
Definition try_except {A} (body : M A) (handler : M A) : M A :=
  fun w => match body w with
           | (Raised, w') => handler w'
           | r => r
           end.

(** [for x in xs: body x], stopping at the first [return] or exception. *)
Fixpoint for_each {A} (xs : list A) (body : A -> M unit) : M unit :=
  match xs with
  | [] => ret tt
  | x :: xs' => body x ;; for_each xs' body
  end.

(** ** Per-date state store *)

(** [date_str or "latest"]: [None] and the empty string are both falsy. *)
Definition prop_key (date_str : option string) : string :=
  match date_str with
  | Some s => if String.eqb s "" then "latest" else s
  | None => "latest"
  end.

Definition default_propagation_state : PropagationState := mkProp false false.

Definition get_propagation_state (date_str : option string) : M PropagationState :=
  let key := prop_key date_str in
  gets (fun w => default default_propagation_state (date_propagation_state w !! key)).

Definition set_propagation_state (date_str : option string)
    (running' noData' : option bool) : M unit :=
  let key := prop_key date_str in
  modify (fun w =>
    let state := default default_propagation_state (date_propagation_state w !! key) in
    let state := match running' with
                 | Some r => mkProp r (noData state)
                 | None => state
                 end in
    let state := match noData' with
                 | Some n => mkProp (running state) n
                 | None => state
                 end in
    with_prop (<[key := state]> (date_propagation_state w)) w).

Definition default_ai_state : AIState :=
  mkAI false None None (mkCov 0 0).

Definition get_ai_state (date_str : string) : M AIState :=
  fun w => match ai_state w !! date_str with
           | Some state => (Normal state, w)
           | None => (Normal default_ai_state,
                      with_ai (<[date_str := default_ai_state]> (ai_state w)) w)
           end.

Definition set_ai_state (date_str : string) (running' : option bool)
    (completedAt' lastError' : option string) : M unit :=
  state <- get_ai_state date_str ;;
  let state := match running' with
               | Some r => mkAI r (completedAt state) (lastError state) (coverage state)
               | None => state
               end in
  let state := match completedAt' with
               | Some c => mkAI (ai_running state) (Some c) (lastError state) (coverage state)
               | None => state
               end in
  let state := match lastError' with
               | Some e => mkAI (ai_running state) (completedAt state) (Some e) (coverage state)
               | None => state
               end in
  modify (fun w => with_ai (<[date_str := state]> (ai_state w)) w).

(** ** Clock and run ledger *)

(** An aware [datetime] in the business timezone: its calendar date as
    [strftime("%Y-%m-%d")] prints it, the wall-clock fields, and the POSIX
    time of that day's local midnight. *)
Record DateTime := mkDT {
  dt_date : string;
  dt_hour : Z;
  dt_minute : Z;
  dt_second : Z;
  dt_microsecond : Z;
  dt_midnight_ts : Z
}.

(** [now.replace(hour=h, minute=m, second=0, microsecond=0)]. *)
Definition dt_replace (now : DateTime) (h m : Z) : DateTime :=
  mkDT (dt_date now) h m 0 0 (dt_midnight_ts now).

Definition dt_micros (t : DateTime) : Z :=
  ((dt_hour t * 60 + dt_minute t) * 60 + dt_second t) * 1000000 + dt_microsecond t.

(** [a > b] for two datetimes of the same calendar day. *)
Definition dt_gt (a b : DateTime) : bool := dt_micros b <? dt_micros a.

(** [f"{n:02d}"] for a non-negative [n]. *)
Definition fmt02 (n : Z) : string :=
  if n <? 10 then "0" +:+ pretty n else pretty n.

(** [strftime("%H%M")]. *)
Definition strftime_HHMM (t : DateTime) : string :=
  fmt02 (dt_hour t) +:+ fmt02 (dt_minute t).

(** [int(run_time.timestamp())]. *)
Definition dt_timestamp (t : DateTime) : Z :=
  dt_midnight_ts t + 3600 * dt_hour t + 60 * dt_minute t + dt_second t.

(** [isoformat()], without the fraction and the UTC offset. *)
Definition dt_isoformat (t : DateTime) : string :=
  dt_date t +:+ "T" +:+ fmt02 (dt_hour t) +:+ ":" +:+ fmt02 (dt_minute t)
            +:+ ":" +:+ fmt02 (dt_second t).

(** What the DynamoDB collaborator does during one entry-point call:
    whether [get_config()] and [get_dynamodb().Table(...)] succeed, whether
    the audit-session table answers [query] and [put_item], the [Items] of the
    ten-item probe of the scan-audit table made by
    [_has_recent_successful_run] ([None] when [table.scan] raises), and the
    successive pages answered to [_is_today_populated] (items, and whether
    [LastEvaluatedKey] is present; [None] when the scan raises). *)
Record StoreEnv := mkStore {
  config_ok : bool;
  session_ok : bool;
  recent_scan : option (list string);
  populated_pages : nat -> option (list string * bool)
}.

(** [timezone.utc].  The module binds [timezone] by
    [from pytz import timezone] (line 16) to pytz's look-up function, and a
    function object has no attribute [utc]: evaluating the expression raises
    [AttributeError]. *)
Definition timezone_utc : M unit := raise.

(** [_record_successful_run].  The record literal is built after the table
    handle is obtained; its ["Timestamp"] field evaluates
    [datetime.now(timezone.utc)], so control reaches [put_item] only past
    [timezone_utc].  The handler logs a warning and falls through. *)
Definition _record_successful_run (s : StoreEnv) (run_time : DateTime)
    (run_type : string) : M unit :=
  emit (EvRecordRun (strftime_HHMM run_time) run_type) ;;
  try_except
    (guard (config_ok s) ;;
     timezone_utc ;;
     let run_record :=
       mkRun ("RUN_TRACKING#" +:+ dt_date run_time)
             (strftime_HHMM run_time +:+ "_" +:+ run_type +:+ "_"
                +:+ pretty (dt_timestamp run_time))
             (dt_isoformat run_time) run_type "completed" in
     guard (session_ok s) ;;
     modify (fun w => with_ledger (ledger w ++ [run_record]) w))
    (ret tt).

(** ** Smart retry engine *)

(** One CSV found under the audit directory, with what the collaborators
    answer about it: the restaurant id the ingest loop finds in its path, the
    path returned by the AI pipeline, [pd.read_csv(...).shape[0]] ([None] when
    it raises), [_get_missing_pan_rows], [time.time()] at the back-off test,
    whether the retried stages run through to the corner analysis, the path
    they return, and [time.time()] when the retry entry is written. *)
Record Csv := mkCsv {
  csv_path : string;
  csv_restaurant_id : option string;
  csv_enriched : string;
  csv_total_rows : option Z;
  csv_missing : Z;
  csv_check_ts : Z;
  csv_enrich_ok : bool;
  csv_final : string;
  csv_update_ts : Z
}.

Record RetryEnv := mkRetryEnv {
  retry_load_ok : bool;
  retry_save_ok : bool;
  today_key : string
}.

Definition MAX_ATTEMPTS_PER_DAY : Z := 2.
Definition MIN_BACKOFF_SECONDS : Z := 30 * 60.

(** The threshold test [missing < 10 and missing_ratio < 0.10] negated.  The
    ratio is [missing / total_rows] when [total_rows > 0] and [0.0] otherwise;
    on row counts the float comparison agrees with [10 * missing < total_rows]. *)
Definition under_covered (c : Csv) : bool :=
  let total_rows := default 0 (csv_total_rows c) in
  let missing := csv_missing c in
  negb ((missing <? 10)
        && (if 0 <? total_rows then 10 * missing <? total_rows else true)).

Definition _load_retry_state (e : RetryEnv) : M (gmap string RetryEntry) :=
  gets (fun w => if retry_load_ok e then retry_state w else ∅).

Definition _save_retry_state (e : RetryEnv) (data : gmap string RetryEntry) : M unit :=
  if retry_save_ok e then modify (with_retry data) else ret tt.

(** [for x in xs: state = body x state]. *)
Fixpoint fold_m {A S} (xs : list A) (body : A -> S -> M S) (s : S) : M S :=
  match xs with
  | [] => ret s
  | x :: xs' => s' <- body x s ;; fold_m xs' body s'
  end.

(** Body of the [for csv_path in csv_files] loop; [state] is the dictionary
    loaded once before the loop and updated in place.  Timestamps are float
    seconds in the source and whole seconds here.  A failure of the retried
    stages is caught by their own handler and still counts as an attempt; on
    entries of the shape the code itself writes nothing else in the body
    raises, so its outer handler is never entered. *)
Definition smart_retry_one (e : RetryEnv) (c : Csv)
    (state : gmap string RetryEntry) : M (gmap string RetryEntry) :=
  emit (EvRetryEval (csv_path c)) ;;
  if negb (under_covered c) then ret state else
  let key := csv_path c in
  let entry := default (mkRetry None None None) (state !! key) in
  let last_day := day entry in
  let attempts0 := default 0 (attempts entry) in
  let last := default 0 (last_ts entry) in
  let attempts1 := if decide (last_day = Some (today_key e)) then attempts0 else 0 in
  if MAX_ATTEMPTS_PER_DAY <=? attempts1 then ret state else
  if csv_check_ts c - last <? MIN_BACKOFF_SECONDS then ret state else
  emit (EvEnrich key) ;;
  (if csv_enrich_ok c then emit (EvPopulateCsv (csv_final c)) else ret tt) ;;
  let state' :=
    <[key := mkRetry (Some (today_key e)) (Some (attempts1 + 1))
                     (Some (csv_update_ts c))]> state in
  _save_retry_state e state' ;;
  ret state'.

Definition _smart_retry_for_missing (e : RetryEnv) (csv_files : list Csv) : M unit :=
  emit EvRetryScan ;;
  state <- _load_retry_state e ;;
  _ <- fold_m csv_files (smart_retry_one e) state ;;
  ret tt.

(** What the collaborators do during one call of the UI entry point:
    [time.time()], whether the path patch, [load_config] and the directory
    walk succeed, and the CSVs the walk finds. *)
Record TriggerEnv := mkTrigger {
  trigger_now : Z;
  trigger_setup_ok : bool;
  trigger_csv_files : list Csv;
  trigger_retry : RetryEnv
}.

(** A call as its caller sees it: a [return] inside the callee ends the
    callee only. *)
Definition call (body : M unit) : M unit :=
  fun w => match body w with
           | (Returned, w') => (Normal tt, w')
           | r => r
           end.

Definition trigger_smart_retry_background (e : TriggerEnv) : M unit :=
  call
    (try_except
       (let now := trigger_now e in
        last <- gets last_ui_trigger_ts ;;
        if now - last <? 300 then return_ else
        guard (trigger_setup_ok e) ;;
        _smart_retry_for_missing (trigger_retry e) (trigger_csv_files e) ;;
        modify (with_ui_ts now))
       (ret tt)).

(** ** Population entry point *)

(** What the collaborators do during one population invocation: whether the
    path patch, the lazy imports and [load_config] succeed; what the download
    returns ([None] when it raises); whether extraction, the directory
    listing and the [rglob] walk succeed; the CSVs the walk finds; whether
    [ScanDynamoManager()] can be built; the store and the clock seen by the
    ledger write; the retry store seen by the closing smart-retry pass. *)
Record PopEnv := mkPopEnv {
  setup_ok : bool;
  download : option bool;
  extract_ok : bool;
  csv_files : list Csv;
  manager_ok : bool;
  pop_store : StoreEnv;
  pop_now : DateTime;
  pop_retry : RetryEnv
}.

(** [if date_str:] selects [start_download_for_date(date_str)], otherwise
    [start_download()]. *)
Definition download_target (date_str : option string) : option string :=
  match date_str with
  | Some s => if String.eqb s "" then None else Some s
  | None => None
  end.

(** Body of the [for csv_file in csv_files] loop.  An exception of
    [populate_csv] is caught by the per-file handler, and its result only
    feeds the counters of the closing log line. *)
Definition ingest_one (run_ai : bool) (c : Csv) : M unit :=
  try_except
    (match csv_restaurant_id c with
     | None => ret tt
     | Some _ =>
         csv_to_ingest <-
           (if run_ai
            then emit (EvAIPipeline (csv_path c)) ;; ret (csv_enriched c)
            else ret (csv_path c)) ;;
         emit (EvPopulateCsv csv_to_ingest)
     end)
    (ret tt).

(** The statements of the [try:] block of [populate_audits_for_date] that
    follow the [# mark running state] step: download, extraction, ingest,
    verification, ledger write, smart retry. *)
Definition populate_steps (e : PopEnv) (date_str : option string)
    (run_ai : bool) : M unit :=
  emit (EvDownload (download_target date_str)) ;;
  downloaded <- match download e with
                | Some b => ret b
                | None => raise
                end ;;
  if negb downloaded
  then set_propagation_state date_str (Some false) (Some true) ;; return_
  else
    emit EvExtract ;;
    guard (extract_ok e) ;;
    match csv_files e with
    | [] => set_propagation_state date_str (Some false) (Some true) ;; return_
    | _ =>
        guard (manager_ok e) ;;
        for_each (csv_files e) (ingest_one run_ai) ;;
        emit EvVerifyCounts ;;
        emit EvVerifySample ;;
        emit EvVerifySample ;;
        _record_successful_run (pop_store e) (pop_now e) "scheduled" ;;
        (if run_ai
         then try_except (_smart_retry_for_missing (pop_retry e) (csv_files e))
                         (ret tt)
         else ret tt) ;;
        set_propagation_state date_str (Some false) (Some false)
    end.

(** The whole [try:] block: set-up, the running mark, then the steps. *)
Definition populate_pipeline (e : PopEnv) (date_str : option string)
    (run_ai : bool) : M unit :=
  guard (setup_ok e) ;;
  set_propagation_state date_str (Some true) None ;;
  populate_steps e date_str run_ai.

(** The [try: ... except Exception: ...] statement run under the lock. *)
Definition populate_locked (e : PopEnv) (date_str : option string)
    (run_ai : bool) : M unit :=
  try_except (populate_pipeline e date_str run_ai)
             (set_propagation_state date_str (Some false) None).

(** The lock test, then [async with _job_lock:] around the guarded block. *)
Definition populate_body (e : PopEnv) (date_str : option string)
    (run_ai : bool) : M unit :=
  fun w =>
    if job_lock w then (Returned, w)
    else
      let '(r, w') := populate_locked e date_str run_ai (with_lock true w) in
      (r, with_lock false w').

Definition populate_audits_for_date (e : PopEnv) (date_str : option string)
    (run_ai : bool) : M unit :=
  call (populate_body e date_str run_ai).

Definition populate_today_audits (e : PopEnv) : M unit :=
  populate_audits_for_date e None true.

(** ** Status checks *)

Record RunStatus := mkStatus {
  status : string;
  run_time : option string;
  run_type : option string
}.

(** The date only selects the rows of the probe, which the environment
    answers; the expected hour and minute are not used by the body. *)
Definition _has_recent_successful_run (s : StoreEnv) : bool :=
  if config_ok s then
    match recent_scan s with
    | Some [] => false
    | Some (_ :: _) => true
    | None => true
    end
  else true.

(** The loop of [_is_today_populated] from page [page] on, with [fuel] pages
    left before [pages >= MAX_PAGES]; [None] when [table.scan] raises. *)
Fixpoint scan_today_pages (s : StoreEnv) (page : nat) (fuel : nat) : option bool :=
  match fuel with
  | O => Some false
  | S fuel' =>
      match populated_pages s page with
      | None => None
      | Some (_ :: _, _) => Some true
      | Some ([], more) =>
          if more then scan_today_pages s (S page) fuel' else Some false
      end
  end.

Definition MAX_PAGES : nat := 5.

(** [get_config()] and the table handle are obtained before the [try:], so
    their failure propagates; a failing scan is answered [True]. *)
Definition _is_today_populated (s : StoreEnv) : M bool :=
  guard (config_ok s) ;;
  match scan_today_pages s 0 MAX_PAGES with
  | Some b => ret b
  | None => ret true
  end.

Definition run_tracking_items (date_str time_str : string)
    (items : list RunRecord) : list RunRecord :=
  filter (fun r => RestaurantDate r = "RUN_TRACKING#" +:+ date_str
                   ∧ String.prefix time_str (RunID r) = true) items.

Definition _check_run_status (s : StoreEnv) (date_str : string)
    (expected_hour expected_minute : Z) : M RunStatus :=
  try_except
    (guard (config_ok s) ;;
     let time_str := fmt02 expected_hour +:+ fmt02 expected_minute in
     guard (session_ok s) ;;
     items <- gets (fun w => run_tracking_items date_str time_str (ledger w)) ;;
     match filter (fun r => Status r = "completed") items with
     | item :: _ =>
         ret (mkStatus "completed" (Some (RunTime item)) (Some (RunType item)))
     | [] =>
         if _has_recent_successful_run s
         then ret (mkStatus "completed" (Some "unknown") (Some "inferred_from_data"))
         else ret (mkStatus "not_found" None None)
     end)
    (if _has_recent_successful_run s
     then ret (mkStatus "completed" (Some "unknown") (Some "inferred_from_data"))
     else ret (mkStatus "error" None None)).

(** ** Catch-up detector *)

(** What one run of the detector sees: the clock read at its start, the
    DynamoDB collaborator, and the collaborators of its successive population
    attempts (numbered from 0). *)
Record CatchEnv := mkCatch {
  catch_now : DateTime;
  catch_store : StoreEnv;
  catch_pop : nat -> PopEnv
}.

Definition expected_runs : list (Z * Z) := [(16, 0); (20, 0)].

(** The first loop of the detector: the slots that are past and whose status
    is not ["completed"], in schedule order. *)
Fixpoint detect_missed (e : CatchEnv) (slots : list (Z * Z)) : M (list (Z * Z)) :=
  match slots with
  | [] => ret []
  | (hour, minute) :: rest =>
      let now := catch_now e in
      let expected_time := dt_replace now hour minute in
      missed_here <-
        (if dt_gt now expected_time
         then run_status <- _check_run_status (catch_store e) (dt_date now) hour minute ;;
              ret (negb (String.eqb (status run_status) "completed"))
         else ret false) ;;
      missed_rest <- detect_missed e rest ;;
      ret (if missed_here then (hour, minute) :: missed_rest else missed_rest)
  end.

(** The second loop: [for hour, minute in missed_runs], the [i]-th iteration
    being the [i]-th population attempt; it returns the slots it recorded. *)
Fixpoint catch_up_loop (e : CatchEnv) (rtype : string) (i : nat)
    (missed : list (Z * Z)) : M (list string) :=
  match missed with
  | [] => ret []
  | (hour, minute) :: rest =>
      done_here <-
        try_except
          (populate_today_audits (catch_pop e i) ;;
           let catchup_time := dt_replace (catch_now e) hour minute in
           _record_successful_run (catch_store e) catchup_time rtype ;;
           ret [fmt02 hour +:+ ":" +:+ fmt02 minute])
          (ret []) ;;
      done_rest <- catch_up_loop e rtype (S i) rest ;;
      ret (done_here ++ done_rest)%list
  end.

Definition _check_and_catch_up_missed_runs (e : CatchEnv) : M unit :=
  try_except
    (missed_runs <- detect_missed e expected_runs ;;
     match missed_runs with
     | [] => ret tt
     | _ => _ <- catch_up_loop e "catchup" 0 missed_runs ;; ret tt
     end)
    (ret tt).

Definition _health_check_and_catch_up (e : CatchEnv) : M unit :=
  try_except (_check_and_catch_up_missed_runs e) (ret tt).

(** The dictionary returned by [manual_catch_up_runs], without its message. *)
Record CatchUpReport := mkReport {
  success : bool;
  caught_up_runs : list string;
  total_missed : nat
}.

Definition manual_catch_up_runs (e : CatchEnv) : M CatchUpReport :=
  try_except
    (missed_runs <- detect_missed e expected_runs ;;
     match missed_runs with
     | [] => ret (mkReport true [] 0)
     | _ =>
         caught <- catch_up_loop e "manual_catchup" 0 missed_runs ;;
         ret (mkReport true caught (length missed_runs))
     end)
    (ret (mkReport false [] 0)).

(** Start-up: the population attempt made when today's data is missing is
    attempt 0 of the environment. *)
Definition run_once_on_startup (e : CatchEnv) : M unit :=
  try_except
    (populated <- _is_today_populated (catch_store e) ;;
     if populated
     then _check_and_catch_up_missed_runs e
     else populate_today_audits (catch_pop e 0))
    (ret tt).

(** ** Observations on traces *)

Definition is_download (ev : Event) : bool :=
  match ev with EvDownload _ => true | _ => false end.

Definition is_record_run (ev : Event) : bool :=
  match ev with EvRecordRun _ _ => true | _ => false end.

Definition is_retry_scan (ev : Event) : bool :=
  match ev with EvRetryScan => true | _ => false end.

(** Events of the ingest and verification phases of a population run. *)
Definition is_ingest_or_verify (ev : Event) : bool :=
  match ev with
  | EvAIPipeline _ | EvPopulateCsv _ | EvVerifyCounts | EvVerifySample => true
  | _ => false
  end.

(** Events made by the smart retry engine. *)
Definition is_smart_retry (ev : Event) : bool :=
  match ev with
  | EvRetryScan | EvRetryEval _ | EvEnrich _ => true
  | _ => false
  end.

Definition count_events (p : Event -> bool) (t : list Event) : nat :=
  length (List.filter p t).

(** The events appended to the trace between two worlds. *)
Definition new_events (w w' : World) : list Event :=
  drop (length (trace w)) (trace w').

(** Final world and control result of running an operation. *)
Definition exec {A} (m : M A) (w : World) : World := snd (m w).
Definition result {A} (m : M A) (w : World) : Ctl A := fst (m w).

(** The propagation state stored for a date, as [get_propagation_state]
    reads it. *)
Definition propagation_of (date_str : option string) (w : World) : PropagationState :=
  default default_propagation_state (date_propagation_state w !! prop_key date_str).

(** The collaborator calls made by the ingest loop over [cs]. *)
Definition ingest_events (run_ai : bool) (cs : list Csv) : list Event :=
  flat_map (fun c =>
    match csv_restaurant_id c with
    | None => []
    | Some _ =>
        if run_ai
        then [EvAIPipeline (csv_path c); EvPopulateCsv (csv_enriched c)]
        else [EvPopulateCsv (csv_path c)]
    end) cs.

(** One call [set_ai_state(date, running, completedAt, lastError)], and a
    sequence of such calls. *)
Record SetAICall := mkSetAI {
  call_date : string;
  call_running : option bool;
  call_completedAt : option string;
  call_lastError : option string
}.

Definition set_ai_state_calls (calls : list SetAICall) : M unit :=
  for_each calls (fun c =>
    set_ai_state (call_date c) (call_running c) (call_completedAt c)
                 (call_lastError c)).

(** The retry entry consulted for a CSV, its attempts counted for today and
    the time elapsed since its last attempt. *)
Definition retry_entry_of (state : gmap string RetryEntry) (c : Csv) : RetryEntry :=
  default (mkRetry None None None) (state !! csv_path c).

Definition attempts_today (e : RetryEnv) (entry : RetryEntry) : Z :=
  if decide (day entry = Some (today_key e)) then default 0 (attempts entry) else 0.

Definition elapsed_since_last (c : Csv) (entry : RetryEntry) : Z :=
  csv_check_ts c - default 0 (last_ts entry).

(** [f"{hour:02d}{minute:02d}"] and [f"{hour:02d}:{minute:02d}"] of a slot. *)
Definition slot_hhmm (slot : Z * Z) : string := fmt02 (fst slot) +:+ fmt02 (snd slot).
Definition slot_label (slot : Z * Z) : string :=
  fmt02 (fst slot) +:+ ":" +:+ fmt02 (snd slot).

(** Worlds that differ at most in the retry store and by appended events. *)
Definition retry_frame (w w' : World) (delta : list Event) : Prop :=
  job_lock w' = job_lock w ∧
  date_propagation_state w' = date_propagation_state w ∧
  ai_state w' = ai_state w ∧
  last_ui_trigger_ts w' = last_ui_trigger_ts w ∧
  ledger w' = ledger w ∧
  trace w' = (trace w ++ delta)%list.

(** Events a smart-retry pass makes after its opening scan marker. *)
Definition is_retry_step (ev : Event) : bool :=
  match ev with
  | EvRetryEval _ | EvEnrich _ | EvPopulateCsv _ => true
  | _ => false
  end.

Definition is_verify (ev : Event) : bool :=
  match ev with
  | EvVerifyCounts | EvVerifySample => true
  | _ => false
  end.

(** ** Scenarios *)

Module Scenario.

(** Sunday 2025-07-27 in the business timezone, at 17:00 and at 21:00. *)
Definition afternoon : DateTime := mkDT "2025-07-27" 17 0 0 0 1753599600.
Definition evening : DateTime := mkDT "2025-07-27" 21 0 0 0 1753599600.

(** Both stores answer; there is no scan data for today. *)
Definition store_up_no_data : StoreEnv :=
  mkStore true true (Some []) (fun _ => Some ([], false)).

(** The audit-session table raises on every request; the scan-audit table
    answers and holds no data for today. *)
Definition store_ledger_down : StoreEnv :=
  mkStore true false (Some []) (fun _ => Some ([], false)).

(** The scan-audit table raises on every scan. *)
Definition store_scan_down : StoreEnv :=
  mkStore true true None (fun _ => None).

Definition retry_env : RetryEnv := mkRetryEnv true true "2025-07-27".

(** A source with 20 of its 100 rows lacking a guess. *)
Definition source_s1 : Csv :=
  mkCsv "/audits/169/ScansToAudit-A/scans.csv" (Some "169")
        "/audits/169/ScansToAudit-A/scans_corner.csv" (Some 100) 20
        1753660000 true "/audits/169/ScansToAudit-A/scans_final.csv" 1753660100.

Definition pop_env (now : DateTime) (files_found : bool) : PopEnv :=
  mkPopEnv true (Some files_found) true [source_s1] true store_up_no_data now
           retry_env.

Definition catch_env_evening : CatchEnv :=
  mkCatch evening store_up_no_data (fun _ => pop_env evening true).

Definition catch_env_ledger_down : CatchEnv :=
  mkCatch afternoon store_ledger_down (fun _ => pop_env afternoon true).

Definition catch_env_scan_down : CatchEnv :=
  mkCatch evening store_scan_down (fun _ => pop_env evening true).

(** Two UI triggers sixty seconds apart. *)
Definition trigger_first : TriggerEnv :=
  mkTrigger 1753660000 true [source_s1] retry_env.
Definition trigger_second : TriggerEnv :=
  mkTrigger 1753660060 true [source_s1] retry_env.

(** Retry stores: two attempts recorded today; one attempt ten minutes
    before the check; one attempt thirty-one minutes before it. *)
Definition budget_spent : gmap string RetryEntry :=
  {[ csv_path source_s1 := mkRetry (Some "2025-07-27") (Some 2) (Some 1753650000) ]}.
Definition retried_10_min_ago : gmap string RetryEntry :=
  {[ csv_path source_s1 := mkRetry (Some "2025-07-27") (Some 1) (Some 1753659400) ]}.
Definition retried_31_min_ago : gmap string RetryEntry :=
  {[ csv_path source_s1 := mkRetry (Some "2025-07-27") (Some 1) (Some 1753658140) ]}.

(** The AI state after a failed enrichment recorded its error. *)
Definition world_after_failed_enrichment : World :=
  exec (set_ai_state "2025-07-27" (Some false) None (Some "connection refused"))
       initial_world.

(** The two calls of a later successful run: the start call passes
    [lastError=""]. *)
Definition successful_run_calls : list SetAICall :=
  [mkSetAI "2025-07-27" (Some true) None (Some "");
   mkSetAI "2025-07-27" (Some false) (Some "2025-07-28T01:00:00+00:00") None].

End Scenario.

(** ** Coverage of a date *)

(** A DynamoDB attribute as [it.get(...)] returns it: absent, a string or a
    number; [attr_truthy] is Python's truth value of it. *)
Inductive Attr :=
| AttrNone
| AttrStr (s : string)
| AttrNum (n : Z).

Definition attr_truthy (a : Attr) : bool :=
  match a with
  | AttrNone => false
  | AttrStr s => negb (String.eqb s "")
  | AttrNum n => negb (n =? 0)
  end.

(** The six pan-id attributes projected by the coverage scan. *)
Record ScanItem := mkItem {
  item_panId : Attr;
  item_PanID : Attr;
  item_identifiedPan : Attr;
  item_genAIPanId : Attr;
  item_YOLOv8_Pan_ID : Attr;
  item_Corner_Best_Pan_ID : Attr
}.

Definition has_pan (it : ScanItem) : bool :=
  attr_truthy (item_panId it) || attr_truthy (item_PanID it)
  || attr_truthy (item_identifiedPan it) || attr_truthy (item_genAIPanId it)
  || attr_truthy (item_YOLOv8_Pan_ID it) || attr_truthy (item_Corner_Best_Pan_ID it).

(** The [with_pan] loop. *)
Fixpoint count_with_pan (items : list ScanItem) : Z :=
  match items with
  | [] => 0
  | it :: rest => (if has_pan it then 1 else 0) + count_with_pan rest
  end.

(** [scan] is the [Items] answered to the scan for the date, [None] when the
    configuration, the table handle or the scan raises. *)
Definition _compute_coverage_for_date (scan : option (list ScanItem)) : Coverage :=
  match scan with
  | Some items => mkCov (Z.of_nat (length items)) (count_with_pan items)
  | None => mkCov 0 0
  end.

(** The body returned by [GET /pan_ai/status] (routes.py). *)
Record AIStatus := mkAIStatus {
  status_running : bool;
  status_completedAt : option string;
  status_lastError : option string;
  status_coverage : Coverage
}.

(** [get_pan_ai_status(date)]: an empty date is refused before the [try:];
    [ai] is the stored dictionary itself, so the coverage assigned to it is
    stored. *)
Definition get_pan_ai_status (scan : option (list ScanItem)) (date : string)
    : M AIStatus :=
  if String.eqb date "" then raise else
  ai <- get_ai_state date ;;
  ai' <- (if negb (ai_running ai)
          then
            let refreshed := mkAI (ai_running ai) (completedAt ai) (lastError ai)
                                  (_compute_coverage_for_date scan) in
            modify (fun w => with_ai (<[date := refreshed]> (ai_state w)) w) ;;
            ret refreshed
          else ret ai) ;;
  ret (mkAIStatus (ai_running ai') (completedAt ai') (lastError ai') (coverage ai')).

(** ** Automatic population on an empty date (routes.py, [get_scans]) *)

(** The request part: when the date is neither running nor known to have no
    data it is marked running and a background thread is started; the result
    says whether the thread was started. *)
Definition auto_populate_request (date : string) : M bool :=
  try_except
    (if String.eqb date "" then ret false else
     state_now <- get_propagation_state (Some date) ;;
     if negb (running state_now) && negb (noData state_now)
     then try_except (set_propagation_state (Some date) (Some true) None) (ret tt) ;;
          ret true
     else ret false)
    (ret false).

(** The thread body [_run_targeted]: population without AI, then the smart
    retry trigger. *)
Definition auto_populate_thread (e : PopEnv) (t : TriggerEnv) (date : string)
    : M unit :=
  try_except
    (populate_audits_for_date e (Some date) false ;;
     trigger_smart_retry_background t)
    (ret tt).

(** The hint written when the date has no scans to show: a date that is not
    running is marked [noData]. *)
Definition hint_no_data (date : option string) : M unit :=
  try_except
    (state_now <- get_propagation_state date ;;
     if negb (running state_now)
     then set_propagation_state date (Some (running state_now)) (Some true)
     else ret tt)
    (ret tt).

(** ** The AI run of a date (routes.py, [run_pan_ai_now]) *)

(** The route stores [running=True, lastError=""] for the date and hands the
    job to its thread [_run_ai] (the queued [_job] makes the same calls and
    repeats the first): the population with AI enabled, then the completion
    call, or the failure call in the handler; the [finally:] clause starts the
    UI smart-retry trigger.  [completed_at] is
    [datetime.now(timezone.utc).isoformat()], where routes.py takes
    [timezone] from [datetime]; [error] is [str(e)]. *)
Definition run_pan_ai (e : PopEnv) (t : TriggerEnv) (date : string)
    (completed_at error : string) : M unit :=
  set_ai_state date (Some true) None (Some "") ;;
  try_except
    (populate_audits_for_date e (Some date) true ;;
     set_ai_state date (Some false) (Some completed_at) None)
    (set_ai_state date (Some false) None (Some error)) ;;
  trigger_smart_retry_background t.

(** ** Manual ledger entry and forced catch-up *)

(** [mark_run_as_completed].  The record is dated by the [date] argument,
    its [RunID] timestamp by today's clock; its ["Timestamp"] field evaluates
    [datetime.now(timezone.utc)] as in [_record_successful_run]. *)
Definition mark_run_as_completed (s : StoreEnv) (now : DateTime)
    (date_str : string) (hour minute : Z) (rtype : string) : M bool :=
  try_except
    (guard (config_ok s) ;;
     let run_time := dt_replace now hour minute in
     timezone_utc ;;
     let run_record :=
       mkRun ("RUN_TRACKING#" +:+ date_str)
             (fmt02 hour +:+ fmt02 minute +:+ "_" +:+ rtype +:+ "_"
                +:+ pretty (dt_timestamp run_time))
             (dt_isoformat run_time) rtype "completed" in
     guard (session_ok s) ;;
     modify (fun w => with_ledger (ledger w ++ [run_record]) w) ;;
     ret true)
    (ret false).

(** [force_immediate_catch_up]; the result is the [success] field.  Both the
    [try:] block and the handler build their dictionary with
    [datetime.now(timezone.utc)]; [utc_ok] says whether that expression
    evaluates (with the module's import it does not, see [timezone_utc]; the
    definition keeps it as a parameter). *)
Definition force_immediate_catch_up (e : CatchEnv) (utc_ok : bool) : M bool :=
  try_except
    (_check_and_catch_up_missed_runs e ;;
     guard utc_ok ;;
     ret true)
    (guard utc_ok ;;
     ret false).

(** ** Restaurant id of a CSV path (ingest loop of [populate_audits_for_date]) *)

(** Strings are byte strings; [isdigit] is [str.isdigit] on ASCII text (not
    empty, every character a decimal digit), and [ascii_text] marks the
    strings on which the two agree. *)
Definition is_digit_char (a : ascii) : bool :=
  let n := nat_of_ascii a in (48 <=? n)%nat && (n <=? 57)%nat.

Fixpoint all_digit_chars (s : string) : bool :=
  match s with
  | EmptyString => true
  | String a s' => is_digit_char a && all_digit_chars s'
  end.

Definition isdigit (s : string) : bool :=
  negb (String.eqb s "") && all_digit_chars s.

Fixpoint ascii_text (s : string) : bool :=
  match s with
  | EmptyString => true
  | String a s' => (nat_of_ascii a <? 128)%nat && ascii_text s'
  end.

(** [needle in hay]. *)
Fixpoint contains (needle hay : string) : bool :=
  String.prefix needle hay
  || match hay with
     | EmptyString => false
     | String _ hay' => contains needle hay'
     end.

(** [s.split(sep)] for a one-character separator. *)
Fixpoint split_on (sep : ascii) (s : string) : list string :=
  match s with
  | EmptyString => [EmptyString]
  | String a s' =>
      if Ascii.eqb a sep then EmptyString :: split_on sep s'
      else match split_on sep s' with
           | piece :: pieces => String a piece :: pieces
           | [] => [String a EmptyString]
           end
  end.

(** The search over [csv_path.parts]: a numeric part is taken at once; a part
    naming a [ScansToAudit] folder yields its first numeric dash-separated
    piece; otherwise the search moves to the next part. *)
Fixpoint extract_restaurant_id (path_parts : list string) : option string :=
  match path_parts with
  | [] => None
  | part :: rest =>
      if isdigit part then Some part
      else if contains "ScansToAudit" part && contains "-" part then
        let parts := split_on "-" part in
        if (1 <? length parts)%nat then
          match List.find isdigit parts with
          | Some p => Some p
          | None => extract_restaurant_id rest
          end
        else extract_restaurant_id rest
      else extract_restaurant_id rest
  end.

(** ** Expected counts ([_compute_expected_counts_from_csvs]) *)

(** What reading one row gives: [process_csv_row] raises, returns no item, or
    returns an item with its [RestaurantDate] attribute, if any. *)
Inductive RowOutcome :=
| RowRaises
| RowNoItem
| RowItem (restaurant_date : option string).

(** The rows of one file from the current one on; an exception leaves the
    file with the counts reached so far. *)
Fixpoint count_file_rows (rows : list RowOutcome) (counts : gmap string Z)
    : gmap string Z :=
  match rows with
  | [] => counts
  | RowRaises :: _ => counts
  | RowNoItem :: rest => count_file_rows rest counts
  | RowItem None :: rest => count_file_rows rest counts
  | RowItem (Some restaurant_date) :: rest =>
      if String.eqb restaurant_date "" then count_file_rows rest counts
      else count_file_rows rest
             (<[restaurant_date := default 0 (counts !! restaurant_date) + 1]> counts)
  end.

(** A file is its rows, or [None] when it cannot be opened. *)
Fixpoint count_files (files : list (option (list RowOutcome)))
    (counts : gmap string Z) : gmap string Z :=
  match files with
  | [] => counts
  | None :: rest => count_files rest counts
  | Some rows :: rest => count_files rest (count_file_rows rows counts)
  end.

Definition _compute_expected_counts_from_csvs
    (files : list (option (list RowOutcome))) : gmap string Z :=
  count_files files ∅.

(** The partition keys of the rows that get counted: in each file that
    opens, those read before the first exception. *)
Fixpoint counted_keys_of_rows (rows : list RowOutcome) : list string :=
  match rows with
  | [] => []
  | RowRaises :: _ => []
  | RowNoItem :: rest => counted_keys_of_rows rest
  | RowItem None :: rest => counted_keys_of_rows rest
  | RowItem (Some k) :: rest =>
      if String.eqb k "" then counted_keys_of_rows rest
      else k :: counted_keys_of_rows rest
  end.

Definition counted_keys (files : list (option (list RowOutcome))) : list string :=
  flat_map (fun f => match f with
                     | Some rows => counted_keys_of_rows rows
                     | None => []
                     end) files.

Fixpoint occurrences (k : string) (keys : list string) : Z :=
  match keys with
  | [] => 0
  | k' :: rest => (if String.eqb k k' then 1 else 0) + occurrences k rest
  end.

(** Counts that are all at least one: a key is stored exactly when it was
    counted. *)
Definition counts_agree (counts : gmap string Z) (keys : list string) : Prop :=
  forall k, counts !! k =
            (if occurrences k keys =? 0 then None else Some (occurrences k keys)).

(** ** Budget invariant of the retry store *)

(** No entry dated [today] records more than the daily maximum. *)
Definition within_budget (today : string) (state : gmap string RetryEntry) : Prop :=
  forall key entry,
    state !! key = Some entry ->
    day entry = Some today ->
    default 0 (attempts entry) <= MAX_ATTEMPTS_PER_DAY.

(** ** Shapes of statements about entry points *)

(** An operation that returns to its caller without raising and leaves the
    job lock as it found it. *)
Definition returns_and_keeps_lock {A} (m : M A) (w : World) : Prop :=
  (exists a, result m w = Normal a) /\ job_lock (exec m w) = job_lock w.

(** The ledger of [w'] is the ledger of [w] with items appended. *)
Definition ledger_extends (w w' : World) : Prop :=
  exists l, ledger w' = (ledger w ++ l)%list.

(** ** Further scenarios *)

Module Scenario2.

(** Another invocation holds the job lock. *)
Definition world_locked : World := with_lock true initial_world.

(** The download raises. *)
Definition pop_env_download_raises : PopEnv :=
  mkPopEnv true None true [Scenario.source_s1] true Scenario.store_up_no_data
           Scenario.evening Scenario.retry_env.

(** Every population attempt of the evening detector fails at the download. *)
Definition catch_env_failing : CatchEnv :=
  mkCatch Scenario.evening Scenario.store_up_no_data
          (fun _ => pop_env_download_raises).

(** The propagation state of another date was written before. *)
Definition world_other_date : World :=
  exec (set_propagation_state (Some "2025-07-26") (Some false) (Some true))
       initial_world.

(** A ledger holding one completed record of the 16:00 slot. *)
Definition run_1600 : RunRecord :=
  mkRun "RUN_TRACKING#2025-07-27" "1600_scheduled_1753657200"
        "2025-07-27T16:00:00" "scheduled" "completed".
Definition world_with_run_1600 : World := with_ledger [run_1600] initial_world.

Definition catch_env_afternoon : CatchEnv :=
  mkCatch Scenario.afternoon Scenario.store_up_no_data
          (fun _ => Scenario.pop_env Scenario.afternoon true).

(** Five empty pages with continuation keys, then a page with data. *)
Definition store_data_on_sixth_page : StoreEnv :=
  mkStore true true (Some [])
          (fun p => if (p <? 5)%nat then Some ([], true)
                    else Some (["169#2025-07-27"], false)).

(** A date whose enrichment is running, with a coverage snapshot stored. *)
Definition world_ai_running : World :=
  with_ai {[ "2025-07-27" := mkAI true None (Some "") (mkCov 40 25) ]} initial_world.

(** Three scanned items; two of them carry a pan id, one as a number. *)
Definition three_items : list ScanItem :=
  [mkItem (AttrStr "P-12") AttrNone AttrNone AttrNone AttrNone AttrNone;
   mkItem AttrNone AttrNone (AttrStr "") AttrNone AttrNone AttrNone;
   mkItem AttrNone AttrNone AttrNone AttrNone (AttrNum 7) AttrNone].

(** The parts of a path in the layout the ingest loop's comment describes,
    without and with a numeric directory above the scan folder. *)
Definition parts_without_id : list string :=
  ["/"; "data"; "audits"; "ScansToAudit-Mayan Princess-Balam-2025-08-17_16-00";
   "scans.csv"].
Definition parts_with_id : list string :=
  ["/"; "data"; "169"; "ScansToAudit-Mayan Princess-Balam-2025-08-17_16-00";
   "scans.csv"].

(** Two files: the first raises at its fourth row, the second cannot be
    opened; then a third with one keyed row and one row without a key. *)
Definition three_files : list (option (list RowOutcome)) :=
  [Some [RowItem (Some "169#2025-07-27"); RowNoItem; RowItem (Some "169#2025-07-27");
         RowRaises; RowItem (Some "169#2025-07-27")];
   None;
   Some [RowItem (Some "170#2025-07-27"); RowItem (Some "")]].

(** The population of [Scenario.pop_env] with the audit-session table
    raising on every request. *)
Definition pop_env_ledger_down : PopEnv :=
  mkPopEnv true (Some true) true [Scenario.source_s1] true
           Scenario.store_ledger_down Scenario.evening Scenario.retry_env.

(** The parts of a path with no numeric directory and no numeric piece in
    the name of its scan folder, and a CSV at that path. *)
Definition parts_no_id : list string :=
  ["/"; "data"; "ScansToAudit-Balam-latest"; "scans.csv"].
Definition source_without_id : Csv :=
  mkCsv "/data/ScansToAudit-Balam-latest/scans.csv"
        (extract_restaurant_id parts_no_id)
        "/data/ScansToAudit-Balam-latest/scans_corner.csv" (Some 100) 20
        1753660000 true "/data/ScansToAudit-Balam-latest/scans_final.csv"
        1753660100.

End Scenario2.

(** ** Reading the detector *)

(** The status the detector obtains for a slot of today. *)
Definition status_of_slot (e : CatchEnv) (w : World) (slot : Z * Z) : string :=
  match result (_check_run_status (catch_store e) (dt_date (catch_now e))
                                  (fst slot) (snd slot)) w with
  | Normal st => status st
  | _ => ""
  end.

(** The expected time of a slot is strictly before the detector's clock. *)
Definition slot_is_past (e : CatchEnv) (slot : Z * Z) : Prop :=
  dt_micros (dt_replace (catch_now e) (fst slot) (snd slot)) < dt_micros (catch_now e).

(** The events of a catch-up loop over [missed]: for each slot in turn a
    population attempt that calls the download once, then the call of the
    ledger write for that slot. *)
Fixpoint catch_up_events (rtype : string) (missed : list (Z * Z))
    (delta : list Event) : Prop :=
  match missed with
  | [] => delta = []
  | slot :: rest =>
      exists attempt later,
        delta = (EvDownload None :: attempt ++
                 EvRecordRun (slot_hhmm slot) rtype :: later)%list /\
        Forall (fun ev => is_download ev = false) attempt /\
        catch_up_events rtype rest later
  end.

(** ** Reading a smart-retry pass *)

(** The source is under-covered, within today's budget and past its
    back-off, given the retry dictionary at its evaluation. *)
Definition retry_due (e : RetryEnv) (c : Csv) (state : gmap string RetryEntry) : Prop :=
  under_covered c = true /\
  attempts_today e (retry_entry_of state c) < 2 /\
  30 * 60 <= elapsed_since_last c (retry_entry_of state c).

(** The entry written for a source that is retried. *)
Definition retried_entry (e : RetryEnv) (c : Csv) (state : gmap string RetryEntry)
    : RetryEntry :=
  mkRetry (Some (today_key e))
          (Some (attempts_today e (retry_entry_of state c) + 1))
          (Some (csv_update_ts c)).

(** ** Proof steps shared by the population lemmas *)

(** Run the pipeline one layer further, keeping its sub-operations folded. *)
Ltac pipeline_step :=
  cbn -[for_each _record_successful_run _smart_retry_for_missing
        set_propagation_state ingest_events strftime_HHMM].

(** * Properties *)

(** ** Per-date state store *)

Section StateStore.

Lemma set_propagation_state_lookup d r n w :
  date_propagation_state (exec (set_propagation_state d r n) w) !! prop_key d =
  Some (mkProp (default (running (propagation_of d w)) r)
               (default (noData (propagation_of d w)) n)).
Proof.
  unfold exec, set_propagation_state, modify, propagation_of. cbn.
  rewrite lookup_insert_eq.
  destruct (default default_propagation_state _), r, n; reflexivity.
Qed.

Lemma get_ai_state_present k st w :
  ai_state w !! k = Some st -> get_ai_state k w = (Normal st, w).
Proof. intros H. unfold get_ai_state. rewrite H. reflexivity. Qed.

Lemma set_ai_state_other k k' r c l w :
  k <> k' ->
  ai_state (exec (set_ai_state k r c l) w) !! k' = ai_state w !! k'.
Proof.
  intros Hne. unfold exec, set_ai_state, bind, get_ai_state, modify.
  destruct (ai_state w !! k) eqn:E; cbn.
  - by rewrite lookup_insert_ne.
  - rewrite lookup_insert_ne; [|done]. by rewrite lookup_insert_ne.
Qed.

Lemma set_ai_state_same k r c l st w :
  ai_state w !! k = Some st ->
  ai_state (exec (set_ai_state k r c l) w) !! k =
  Some (mkAI (default (ai_running st) r)
             (match c with Some x => Some x | None => completedAt st end)
             (match l with Some x => Some x | None => lastError st end)
             (coverage st)).
Proof.
  intros H. unfold exec, set_ai_state, bind.
  rewrite (get_ai_state_present _ _ _ H). cbn.
  rewrite lookup_insert_eq. destruct st, r, c, l; reflexivity.
Qed.

Lemma set_ai_state_normal k r c l w :
  result (set_ai_state k r c l) w = Normal tt.
Proof.
  unfold result, set_ai_state, bind, get_ai_state, modify.
  destruct (ai_state w !! k); reflexivity.
Qed.

Lemma set_ai_state_calls_cons c calls w :
  exec (set_ai_state_calls (c :: calls)) w =
  exec (set_ai_state_calls calls)
       (exec (set_ai_state (call_date c) (call_running c) (call_completedAt c)
                           (call_lastError c)) w).
Proof.
  unfold set_ai_state_calls, exec. cbn [for_each]. unfold bind at 1.
  pose proof (set_ai_state_normal (call_date c) (call_running c)
                (call_completedAt c) (call_lastError c) w) as Hn.
  unfold result in Hn.
  destruct (set_ai_state _ _ _ _ w) as [r w1]. cbn in Hn. subst r. reflexivity.
Qed.

(** Along any sequence of [set_ai_state] calls an entry stays present, a
    [completedAt] or [lastError] that is not [None] never becomes [None]
    again, and calls that pass no [lastError] for the date leave the recorded
    string as it was. *)
Lemma set_ai_state_calls_keep (calls : list SetAICall) (d : string)
    (st : AIState) (w : World) :
  ai_state w !! d = Some st ->
  exists st',
    ai_state (exec (set_ai_state_calls calls) w) !! d = Some st' /\
    (completedAt st <> None -> completedAt st' <> None) /\
    (lastError st <> None -> lastError st' <> None) /\
    (Forall (fun c => call_date c = d -> call_lastError c = None) calls ->
     lastError st' = lastError st).
Proof.
  revert st w. induction calls as [|c calls IH]; intros st w Hst.
  - exists st. cbn. auto.
  - rewrite set_ai_state_calls_cons.
    destruct (decide (call_date c = d)) as [Heq|Hne].
    + subst d.
      pose proof (set_ai_state_same (call_date c) (call_running c)
                    (call_completedAt c) (call_lastError c) st w Hst) as Hs.
      destruct (IH _ _ Hs) as (st' & Hl & Hc & He & Hk).
      exists st'. split; [exact Hl|]. cbn in Hc, He, Hk. repeat split.
      * intros Hnn. apply Hc. destruct (call_completedAt c); congruence.
      * intros Hnn. apply He. destruct (call_lastError c); congruence.
      * intros Hall. inversion Hall as [|? ? Hc0 Hrest]; subst.
        rewrite (Hk Hrest). rewrite (Hc0 eq_refl). reflexivity.
    + pose proof (set_ai_state_other (call_date c) d (call_running c)
                    (call_completedAt c) (call_lastError c) w Hne) as Ho.
      rewrite Hst in Ho.
      destruct (IH _ _ Ho) as (st' & Hl & Hc & He & Hk).
      exists st'. split; [exact Hl|]. repeat split; auto.
      intros Hall. inversion Hall; subst. auto.
Qed.

(** The entry stored by one [set_ai_state] call, on a present or a missing
    key. *)
Lemma set_ai_state_lookup k r c l w :
  let st := default default_ai_state (ai_state w !! k) in
  ai_state (exec (set_ai_state k r c l) w) !! k =
  Some (mkAI (default (ai_running st) r)
             (match c with Some x => Some x | None => completedAt st end)
             (match l with Some x => Some x | None => lastError st end)
             (coverage st)).
Proof.
  cbn zeta. destruct (ai_state w !! k) as [st|] eqn:E.
  - apply set_ai_state_same. exact E.
  - unfold exec, set_ai_state, bind, get_ai_state, modify. rewrite E. cbn.
    rewrite lookup_insert_eq. destruct r, c, l; reflexivity.
Qed.

End StateStore.

(** C7 (as the code has it): on a date key never written,
    [get_propagation_state] answers the default [{running: False, noData:
    False}] and leaves the world, hence the map, unchanged, while
    [get_ai_state] answers the default [{running: False, completedAt: None,
    lastError: None, coverage: {total: 0, withPan: 0}}] and stores it under
    the key. *)
Theorem get_state_defaults_on_fresh_key (d : option string) (k : string) (w : World) :
  date_propagation_state w !! prop_key d = None ->
  ai_state w !! k = None ->
  get_propagation_state d w = (Normal (mkProp false false), w) /\
  result (get_ai_state k) w = Normal (mkAI false None None (mkCov 0 0)) /\
  exec (get_ai_state k) w =
    with_ai (<[k := mkAI false None None (mkCov 0 0)]> (ai_state w)) w /\
  ai_state (exec (get_ai_state k) w) !! k = Some (mkAI false None None (mkCov 0 0)).
Proof.
  intros Hp Ha. repeat split.
  - unfold get_propagation_state, gets. rewrite Hp. reflexivity.
  - unfold result, get_ai_state. rewrite Ha. reflexivity.
  - unfold exec, get_ai_state. rewrite Ha. reflexivity.
  - unfold exec, get_ai_state. rewrite Ha. cbn. apply lookup_insert_eq.
Qed.

Lemma get_state_defaults_on_fresh_key_witness :
  get_propagation_state (Some "2025-07-27") initial_world
    = (Normal (mkProp false false), initial_world) /\
  ai_state (exec (get_ai_state "2025-07-27") initial_world) !! "2025-07-27"
    = Some (mkAI false None None (mkCov 0 0)).
Proof.
  destruct (get_state_defaults_on_fresh_key (Some "2025-07-27") "2025-07-27"
              initial_world) as (H1 & _ & _ & H4).
  - reflexivity.
  - reflexivity.
  - split; [exact H1 | exact H4].
Defined.

(** C7 as stated fails: reading the propagation state of a fresh date
    returns the default but creates no entry. *)
Lemma get_propagation_state_creates_no_entry :
  ~ (result (get_propagation_state (Some "2025-07-27")) initial_world
       = Normal (mkProp false false) /\
     is_Some (date_propagation_state
                (exec (get_propagation_state (Some "2025-07-27")) initial_world)
              !! "2025-07-27")).
Proof.
  intros [_ [x Hx]]. cbn in Hx. rewrite lookup_empty in Hx. discriminate.
Qed.

(** ** Smart retry engine *)

Section SmartRetry.

Lemma new_events_app w w' delta :
  trace w' = (trace w ++ delta)%list -> new_events w w' = delta.
Proof. intros H. unfold new_events. rewrite H. apply drop_app_length. Qed.

Lemma new_events_same w : new_events w w = [].
Proof. unfold new_events. apply drop_all. Qed.

Lemma retry_frame_refl w : retry_frame w w [].
Proof. unfold retry_frame. rewrite app_nil_r. tauto. Qed.

Lemma retry_frame_trans w1 w2 w3 d1 d2 :
  retry_frame w1 w2 d1 -> retry_frame w2 w3 d2 -> retry_frame w1 w3 (d1 ++ d2).
Proof.
  unfold retry_frame. intros (?&?&?&?&?&Ht1) (?&?&?&?&?&Ht2).
  repeat split; try congruence. rewrite Ht2, Ht1. by rewrite app_assoc.
Qed.

(** A source that is skipped: only its evaluation is traced. *)
Lemma smart_retry_one_skip e c state w :
  under_covered c = false
  \/ 2 <= attempts_today e (retry_entry_of state c)
  \/ elapsed_since_last c (retry_entry_of state c) < 30 * 60 ->
  smart_retry_one e c state w =
    (Normal state, with_trace (trace w ++ [EvRetryEval (csv_path c)]) w).
Proof.
  intros H. unfold smart_retry_one, bind, emit, modify. cbn.
  destruct (under_covered c) eqn:Hu; cbn; [|reflexivity].
  fold (retry_entry_of state c). fold (attempts_today e (retry_entry_of state c)).
  unfold MAX_ATTEMPTS_PER_DAY.
  destruct (2 <=? attempts_today e (retry_entry_of state c)) eqn:Ha; [reflexivity|].
  fold (elapsed_since_last c (retry_entry_of state c)). unfold MIN_BACKOFF_SECONDS.
  destruct (elapsed_since_last c (retry_entry_of state c) <? 30 * 60) eqn:Hb;
    [reflexivity|].
  apply Z.leb_gt in Ha. apply Z.ltb_ge in Hb.
  destruct H as [H|[H|H]]; [discriminate | lia | lia].
Qed.

(** A source that is retried: the enrichment stages are entered, the result
    is re-ingested when they succeed, and the entry is rewritten with one
    more attempt. *)
Lemma smart_retry_one_retry e c state w :
  under_covered c = true ->
  attempts_today e (retry_entry_of state c) < 2 ->
  30 * 60 <= elapsed_since_last c (retry_entry_of state c) ->
  exists w',
    smart_retry_one e c state w =
      (Normal (<[csv_path c :=
                   mkRetry (Some (today_key e))
                           (Some (attempts_today e (retry_entry_of state c) + 1))
                           (Some (csv_update_ts c))]> state), w') /\
    retry_frame w w'
      (EvRetryEval (csv_path c) :: EvEnrich (csv_path c) ::
       (if csv_enrich_ok c then [EvPopulateCsv (csv_final c)] else [])).
Proof.
  intros Hu Ha Hb. unfold smart_retry_one, bind, emit, modify. cbn.
  rewrite Hu. cbn.
  fold (retry_entry_of state c). fold (attempts_today e (retry_entry_of state c)).
  unfold MAX_ATTEMPTS_PER_DAY.
  destruct (2 <=? attempts_today e (retry_entry_of state c)) eqn:Ha';
    [apply Z.leb_le in Ha'; lia|].
  fold (elapsed_since_last c (retry_entry_of state c)). unfold MIN_BACKOFF_SECONDS.
  destruct (elapsed_since_last c (retry_entry_of state c) <? 30 * 60) eqn:Hb';
    [apply Z.ltb_lt in Hb'; lia|].
  unfold _save_retry_state, ret, modify.
  destruct (csv_enrich_ok c), (retry_save_ok e); cbn;
    eexists; (split; [reflexivity|]);
    unfold retry_frame; cbn; rewrite <- ?app_assoc; cbn;
    repeat split; reflexivity.
Qed.

(** Every source evaluation returns normally and only appends retry events. *)
Lemma smart_retry_one_frame e c state w :
  exists state' w' delta,
    smart_retry_one e c state w = (Normal state', w') /\
    retry_frame w w' delta /\
    Forall (fun ev => is_retry_step ev = true) delta.
Proof.
  destruct (under_covered c) eqn:Hu.
  - destruct (Z_lt_le_dec (attempts_today e (retry_entry_of state c)) 2) as [Ha|Ha].
    + destruct (Z_lt_le_dec (elapsed_since_last c (retry_entry_of state c)) (30 * 60))
        as [Hb|Hb].
      * eexists; eexists; eexists. split; [apply smart_retry_one_skip; auto|].
        split; [unfold retry_frame; cbn; tauto | repeat constructor].
      * destruct (smart_retry_one_retry e c state w Hu Ha Hb) as (w' & Heq & Hf).
        eexists; eexists; eexists. split; [exact Heq|]. split; [exact Hf|].
        destruct (csv_enrich_ok c); repeat constructor.
    + eexists; eexists; eexists. split; [apply smart_retry_one_skip; auto|].
      split; [unfold retry_frame; cbn; tauto | repeat constructor].
  - eexists; eexists; eexists. split; [apply smart_retry_one_skip; auto|].
    split; [unfold retry_frame; cbn; tauto | repeat constructor].
Qed.

Lemma fold_smart_retry_frame e cs : forall state w,
  exists state' w' delta,
    fold_m cs (smart_retry_one e) state w = (Normal state', w') /\
    retry_frame w w' delta /\
    Forall (fun ev => is_retry_step ev = true) delta.
Proof.
  induction cs as [|c cs IH]; intros state w.
  - exists state, w, []. split; [reflexivity|]. split; [apply retry_frame_refl | constructor].
  - destruct (smart_retry_one_frame e c state w) as (s1 & w1 & d1 & H1 & F1 & A1).
    destruct (IH s1 w1) as (s2 & w2 & d2 & H2 & F2 & A2).
    exists s2, w2, (d1 ++ d2)%list. cbn [fold_m]. unfold bind. rewrite H1.
    split; [exact H2|]. split; [eapply retry_frame_trans; eauto|].
    apply Forall_app. auto.
Qed.

(** A smart-retry pass returns normally; it appends its scan marker and then
    only evaluation, enrichment and re-ingest events, and touches nothing but
    the retry store. *)
Lemma smart_retry_frame e cs w :
  exists w' delta,
    _smart_retry_for_missing e cs w = (Normal tt, w') /\
    retry_frame w w' (EvRetryScan :: delta) /\
    Forall (fun ev => is_retry_step ev = true) delta.
Proof.
  unfold _smart_retry_for_missing, bind, emit, modify, _load_retry_state, gets.
  cbn.
  match goal with
  | |- context [fold_m cs (smart_retry_one e) ?s ?w0] =>
      destruct (fold_smart_retry_frame e cs s w0) as (s' & w' & d & H & F & A)
  end.
  rewrite H. exists w', d. split; [reflexivity|]. split; [|exact A].
  unfold retry_frame in *. cbn in F. destruct F as (?&?&?&?&?&Ht).
  repeat split; try assumption. rewrite Ht. by rewrite <- app_assoc.
Qed.

End SmartRetry.

Section SmartRetryScan.

(** The decision taken for one source at its evaluation. *)
Lemma smart_retry_one_decision (e : RetryEnv) (c : Csv)
    (state : gmap string RetryEntry) (w : World) :
  under_covered c = true ->
  (In (EvEnrich (csv_path c))
      (new_events w (exec (smart_retry_one e c state) w)) <->
   attempts_today e (retry_entry_of state c) < 2 /\
   30 * 60 <= elapsed_since_last c (retry_entry_of state c)).
Proof.
  intros Hu.
  destruct (Z_lt_le_dec (attempts_today e (retry_entry_of state c)) 2) as [Ha|Ha];
    [destruct (Z_lt_le_dec (elapsed_since_last c (retry_entry_of state c)) (30 * 60))
       as [Hb|Hb]|].
  - unfold exec. rewrite smart_retry_one_skip by auto.
    rewrite (new_events_app _ _ [EvRetryEval (csv_path c)]) by reflexivity.
    split; [intros [H|[]]; discriminate | lia].
  - destruct (smart_retry_one_retry e c state w Hu Ha Hb) as (w' & Heq & Hf).
    unfold exec. rewrite Heq. cbn [snd].
    destruct Hf as (_&_&_&_&_&Ht). rewrite (new_events_app _ _ _ Ht).
    split; [auto | intros _; right; left; reflexivity].
  - unfold exec. rewrite smart_retry_one_skip by auto.
    rewrite (new_events_app _ _ [EvRetryEval (csv_path c)]) by reflexivity.
    split; [intros [H|[]]; discriminate | lia].
Qed.

(** What one evaluation leaves behind: it enriches no other source, and it
    does not touch the entry of a source with another path. *)
Lemma smart_retry_one_summary e c state w :
  exists state' w' delta,
    smart_retry_one e c state w = (Normal state', w') /\
    trace w' = (trace w ++ delta)%list /\
    (forall q, In (EvEnrich q) delta -> q = csv_path c) /\
    (forall c', csv_path c' <> csv_path c ->
       retry_entry_of state' c' = retry_entry_of state c').
Proof.
  destruct (under_covered c) eqn:Hu;
    [destruct (Z_lt_le_dec (attempts_today e (retry_entry_of state c)) 2) as [Ha|Ha];
     [destruct (Z_lt_le_dec (elapsed_since_last c (retry_entry_of state c)) (30 * 60))
        as [Hb|Hb]|]|].
  2: { destruct (smart_retry_one_retry e c state w Hu Ha Hb) as (w' & Heq & Hf).
       eexists; eexists; eexists. split; [exact Heq|].
       destruct Hf as (_&_&_&_&_&Htr). split; [exact Htr|]. split.
       - intros q [H|[H|H]]; [discriminate | congruence |].
         destruct (csv_enrich_ok c); [destruct H as [H|[]]; discriminate | destruct H].
       - intros c' Hne. unfold retry_entry_of. by rewrite lookup_insert_ne. }
  all: eexists; eexists; eexists; (split; [apply smart_retry_one_skip; auto|]);
    (split; [reflexivity|]); (split; [intros q [H|[]]; discriminate | reflexivity]).
Qed.

Lemma exec_fold_cons e c cs state w state1 w1 :
  smart_retry_one e c state w = (Normal state1, w1) ->
  exec (fold_m (c :: cs) (smart_retry_one e) state) w =
  exec (fold_m cs (smart_retry_one e) state1) w1.
Proof. intros H. unfold exec. cbn [fold_m]. unfold bind. rewrite H. reflexivity. Qed.

Lemma fold_trace_grows e cs state w :
  exists delta,
    trace (exec (fold_m cs (smart_retry_one e) state) w) = (trace w ++ delta)%list.
Proof.
  destruct (fold_smart_retry_frame e cs state w) as (s' & w' & d & H & F & _).
  unfold exec. rewrite H. destruct F as (_&_&_&_&_&Ht). eauto.
Qed.

(** A pass enriches only sources of its list. *)
Lemma fold_enrich_only_listed e cs : forall state w q,
  In (EvEnrich q) (new_events w (exec (fold_m cs (smart_retry_one e) state) w)) ->
  In q (map csv_path cs).
Proof.
  induction cs as [|c0 rest IH]; intros state w q Hin.
  - cbn in Hin. rewrite new_events_same in Hin. destruct Hin.
  - destruct (smart_retry_one_summary e c0 state w)
      as (s1 & w1 & d1 & H1 & Ht1 & Hown & _).
    rewrite (exec_fold_cons _ _ _ _ _ _ _ H1) in Hin.
    destruct (fold_trace_grows e rest s1 w1) as (d2 & Ht2).
    rewrite (new_events_app w _ (d1 ++ d2)) in Hin
      by (rewrite Ht2, Ht1; by rewrite app_assoc).
    apply in_app_or in Hin. destruct Hin as [Hin|Hin].
    + left. symmetry. apply Hown. exact Hin.
    + right. apply (IH s1 w1). by rewrite (new_events_app w1 _ d2).
Qed.

(** Over sources with pairwise distinct paths, the decision for each source
    is the one its entry in the state at the start of the pass commands. *)
Lemma fold_retry_decision e cs :
  NoDup (map csv_path cs) -> forall state w c,
  In c cs -> under_covered c = true ->
  (In (EvEnrich (csv_path c))
      (new_events w (exec (fold_m cs (smart_retry_one e) state) w)) <->
   attempts_today e (retry_entry_of state c) < 2 /\
   30 * 60 <= elapsed_since_last c (retry_entry_of state c)).
Proof.
  induction cs as [|c0 rest IH]; intros Hnd state w c Hin Hu; [destruct Hin|].
  cbn [map] in Hnd. apply NoDup_cons in Hnd. destruct Hnd as [Hfresh Hnd].
  destruct (smart_retry_one_summary e c0 state w)
    as (s1 & w1 & d1 & H1 & Ht1 & Hown & Hkeep).
  rewrite (exec_fold_cons _ _ _ _ _ _ _ H1).
  destruct (fold_trace_grows e rest s1 w1) as (d2 & Ht2).
  rewrite (new_events_app w _ (d1 ++ d2)) by (rewrite Ht2, Ht1; by rewrite app_assoc).
  pose proof (fold_enrich_only_listed e rest s1 w1) as Hlisted.
  rewrite (new_events_app w1 _ d2 Ht2) in Hlisted.
  destruct Hin as [<- | Hin].
  - pose proof (smart_retry_one_decision e c0 state w Hu) as Hdec.
    unfold exec in Hdec. rewrite H1 in Hdec. cbn [snd] in Hdec.
    rewrite (new_events_app w w1 d1 Ht1) in Hdec.
    rewrite <- Hdec. split.
    + intros H. apply in_app_or in H. destruct H as [H|H]; [exact H|].
      exfalso. apply Hfresh. apply list_elem_of_In. apply Hlisted. exact H.
    + intros H. apply in_or_app. left. exact H.
  - assert (csv_path c <> csv_path c0) as Hne.
    { intros Heq. apply Hfresh. rewrite <- Heq. apply list_elem_of_In.
      apply in_map. exact Hin. }
    pose proof (IH Hnd s1 w1 c Hin Hu) as Hrest.
    rewrite (new_events_app w1 _ d2 Ht2) in Hrest.
    rewrite (Hkeep c Hne) in Hrest. rewrite <- Hrest. split.
    + intros H. apply in_app_or in H. destruct H as [H|H]; [|exact H].
      exfalso. apply Hne. apply Hown. exact H.
    + intros H. apply in_or_app. right. exact H.
Qed.

End SmartRetryScan.

(** C5: in a smart-retry pass over sources with distinct paths, an
    under-covered source is re-enriched exactly when the attempts its stored
    entry counts for today (zero when the stored day is not today) are below
    2 and at least 30 minutes have passed since its last attempt; with two
    attempts recorded today it is skipped, whatever its shortfall. *)
Theorem smart_retry_budget_and_backoff (e : RetryEnv) (cs : list Csv) (c : Csv)
    (w : World) :
  NoDup (map csv_path cs) ->
  In c cs ->
  under_covered c = true ->
  let entry := retry_entry_of (if retry_load_ok e then retry_state w else ∅) c in
  let w' := exec (_smart_retry_for_missing e cs) w in
  (In (EvEnrich (csv_path c)) (new_events w w') <->
     attempts_today e entry < 2 /\ 30 * 60 <= elapsed_since_last c entry) /\
  (day entry <> Some (today_key e) -> attempts_today e entry = 0) /\
  (day entry = Some (today_key e) -> attempts entry = Some 2 ->
     ~ In (EvEnrich (csv_path c)) (new_events w w')).
Proof.
  intros Hnd Hin Hu entry w'.
  assert (In (EvEnrich (csv_path c)) (new_events w w') <->
          attempts_today e entry < 2 /\ 30 * 60 <= elapsed_since_last c entry) as Hiff.
  { subst entry w'.
    set (state := if retry_load_ok e then retry_state w else ∅).
    set (w0 := with_trace (trace w ++ [EvRetryScan]) w).
    assert (exec (_smart_retry_for_missing e cs) w
            = exec (fold_m cs (smart_retry_one e) state) w0) as Hex.
    { unfold exec, _smart_retry_for_missing, bind, emit, modify, _load_retry_state,
        gets. cbn. fold state. fold w0.
      destruct (fold_m cs (smart_retry_one e) state w0) as [[| |] ?]; reflexivity. }
    rewrite Hex.
    destruct (fold_trace_grows e cs state w0) as (d & Ht).
    pose proof (fold_retry_decision e cs Hnd state w0 c Hin Hu) as Hdec.
    rewrite (new_events_app w0 _ d Ht) in Hdec.
    rewrite (new_events_app w _ (EvRetryScan :: d))
      by (rewrite Ht; subst w0; cbn; by rewrite <- app_assoc).
    rewrite <- Hdec. split.
    - intros [H|H]; [discriminate | exact H].
    - intros H. right. exact H. }
  split; [exact Hiff|]. split.
  - intros Hd. unfold attempts_today. destruct (decide _); [contradiction|reflexivity].
  - intros Hd Hatt Hen. apply Hiff in Hen. destruct Hen as [Ha _].
    unfold attempts_today in Ha. rewrite Hatt in Ha.
    destruct (decide _); [cbn in Ha; lia | contradiction].
Qed.

Section UiTrigger.

Lemma count_events_app p t1 t2 :
  count_events p (t1 ++ t2) = (count_events p t1 + count_events p t2)%nat.
Proof. unfold count_events. by rewrite List.filter_app, length_app. Qed.

Lemma count_events_none p t :
  Forall (fun ev => p ev = false) t -> count_events p t = 0%nat.
Proof.
  induction 1 as [|ev t Hev _ IH]; [reflexivity|].
  unfold count_events in *. cbn. rewrite Hev. exact IH.
Qed.


Lemma trigger_debounced e w :
  trigger_now e - last_ui_trigger_ts w < 300 ->
  trigger_smart_retry_background e w = (Normal tt, w).
Proof.
  intros H. unfold trigger_smart_retry_background, call, try_except, bind, gets.
  cbn. apply Z.ltb_lt in H. rewrite H. reflexivity.
Qed.

Lemma trigger_scans e w :
  300 <= trigger_now e - last_ui_trigger_ts w ->
  trigger_setup_ok e = true ->
  exists w1 delta,
    trigger_smart_retry_background e w = (Normal tt, with_ui_ts (trigger_now e) w1) /\
    retry_frame w w1 (EvRetryScan :: delta) /\
    Forall (fun ev => is_retry_step ev = true) delta.
Proof.
  intros Hw Hs. unfold trigger_smart_retry_background, call, try_except, bind, gets.
  cbn -[_smart_retry_for_missing]. apply Z.ltb_ge in Hw. rewrite Hw, Hs.
  cbn -[_smart_retry_for_missing].
  destruct (smart_retry_frame (trigger_retry e) (trigger_csv_files e) w)
    as (w1 & delta & Heq & Hf & Ha).
  rewrite Heq. exists w1, delta. auto.
Qed.

Lemma count_retry_scan_steps delta :
  Forall (fun ev => is_retry_step ev = true) delta ->
  count_events is_retry_scan delta = 0%nat.
Proof.
  induction 1 as [|ev delta Hev _ IH]; [reflexivity|].
  unfold count_events in *. cbn. destruct ev; try discriminate; exact IH.
Qed.

Lemma trigger_setup_fails e w :
  300 <= trigger_now e - last_ui_trigger_ts w ->
  trigger_setup_ok e = false ->
  trigger_smart_retry_background e w = (Normal tt, w).
Proof.
  intros Hw Hs. unfold trigger_smart_retry_background, call, try_except, bind, gets.
  cbn -[_smart_retry_for_missing]. apply Z.ltb_ge in Hw. rewrite Hw, Hs. reflexivity.
Qed.

(** One call of the UI entry point scans at most once. *)
Lemma trigger_scans_at_most_once e w :
  (count_events is_retry_scan
     (new_events w (exec (trigger_smart_retry_background e) w)) <= 1)%nat.
Proof.
  destruct (Z_lt_le_dec (trigger_now e - last_ui_trigger_ts w) 300) as [Hd|Hw].
  - unfold exec. rewrite (trigger_debounced e w Hd). cbn [snd].
    rewrite new_events_same. cbn. lia.
  - destruct (trigger_setup_ok e) eqn:Hs.
    + destruct (trigger_scans e w Hw Hs) as (w1 & delta & Heq & Hf & Ha).
      unfold exec. rewrite Heq. cbn [snd].
      destruct Hf as (_&_&_&_&_&Ht).
      rewrite (new_events_app w (with_ui_ts (trigger_now e) w1) _ Ht).
      change (EvRetryScan :: delta) with ([EvRetryScan] ++ delta)%list.
      rewrite count_events_app, (count_retry_scan_steps delta Ha). cbn. lia.
    + unfold exec. rewrite (trigger_setup_fails e w Hw Hs). cbn [snd].
      rewrite new_events_same. cbn. lia.
Qed.

End UiTrigger.

(** C6: two successive calls of the UI entry point less than 300 seconds
    apart never scan twice.  When the first of them scans (it passed the
    debounce test and its set-up succeeded), the second is dropped: it changes
    nothing, and the two calls together make exactly one scan. *)
Theorem ui_trigger_debounce (e1 e2 : TriggerEnv) (w : World) :
  trigger_now e2 - trigger_now e1 < 300 ->
  let w1 := exec (trigger_smart_retry_background e1) w in
  let w2 := exec (trigger_smart_retry_background e2) w1 in
  (count_events is_retry_scan (new_events w w2) <= 1)%nat /\
  (300 <= trigger_now e1 - last_ui_trigger_ts w ->
   trigger_setup_ok e1 = true ->
   w2 = w1 /\
   count_events is_retry_scan (new_events w w1) = 1%nat /\
   count_events is_retry_scan (new_events w w2) = 1%nat).
Proof.
  intros Hd w1 w2. subst w1 w2.
  assert (300 <= trigger_now e1 - last_ui_trigger_ts w ->
          trigger_setup_ok e1 = true ->
          exec (trigger_smart_retry_background e2)
               (exec (trigger_smart_retry_background e1) w)
            = exec (trigger_smart_retry_background e1) w /\
          count_events is_retry_scan
            (new_events w (exec (trigger_smart_retry_background e1) w)) = 1%nat)
    as Hscan.
  { intros Hw Hs.
    destruct (trigger_scans e1 w Hw Hs) as (w1 & delta & Heq & Hf & Ha).
    assert (exec (trigger_smart_retry_background e1) w
            = with_ui_ts (trigger_now e1) w1) as Hex.
    { unfold exec. rewrite Heq. reflexivity. }
    rewrite !Hex. split.
    - unfold exec. rewrite trigger_debounced; [reflexivity | exact Hd].
    - destruct Hf as (_&_&_&_&_&Ht).
      rewrite (new_events_app w (with_ui_ts (trigger_now e1) w1) _ Ht).
      change (EvRetryScan :: delta) with ([EvRetryScan] ++ delta)%list.
      rewrite count_events_app, (count_retry_scan_steps delta Ha). reflexivity. }
  split.
  - destruct (Z_lt_le_dec (trigger_now e1 - last_ui_trigger_ts w) 300) as [Hd1|Hw].
    + assert (exec (trigger_smart_retry_background e1) w = w) as ->.
      { unfold exec. rewrite (trigger_debounced e1 w Hd1). reflexivity. }
      apply trigger_scans_at_most_once.
    + destruct (trigger_setup_ok e1) eqn:Hs.
      * destruct (Hscan Hw eq_refl) as [-> ->]. lia.
      * assert (exec (trigger_smart_retry_background e1) w = w) as ->.
        { unfold exec. rewrite (trigger_setup_fails e1 w Hw Hs). reflexivity. }
        apply trigger_scans_at_most_once.
  - intros Hw Hs. destruct (Hscan Hw Hs) as [H1 H2].
    split; [exact H1|]. split; [exact H2|]. rewrite H1. exact H2.
Qed.

(** ** Population entry point *)

Section Population.

Lemma with_trace_nil w : with_trace (trace w ++ []) w = w.
Proof. destruct w. unfold with_trace. cbn. by rewrite app_nil_r. Qed.

Lemma ingest_one_events run_ai c w :
  ingest_one run_ai c w =
    (Normal tt, with_trace (trace w ++ ingest_events run_ai [c]) w).
Proof.
  unfold ingest_one, try_except, ingest_events. cbn.
  destruct (csv_restaurant_id c); cbn.
  - destruct run_ai; cbn; unfold with_trace; cbn; rewrite <- ?app_assoc; reflexivity.
  - by rewrite with_trace_nil.
Qed.

Lemma ingest_loop_events run_ai cs : forall w,
  for_each cs (ingest_one run_ai) w =
    (Normal tt, with_trace (trace w ++ ingest_events run_ai cs) w).
Proof.
  induction cs as [|c cs IH]; intros w.
  - cbn. unfold ret. by rewrite with_trace_nil.
  - cbn [for_each]. unfold bind. rewrite ingest_one_events. rewrite IH.
    unfold with_trace. cbn. rewrite app_nil_r, <- app_assoc. reflexivity.
Qed.

Lemma prefix_append (s t : string) : String.prefix s (s +:+ t) = true.
Proof.
  induction s as [|a s IH]; [by destruct t|].
  change (String a s +:+ t) with (String a (s +:+ t)).
  change (String.prefix (String a s) (String a (s +:+ t)))
    with (if ascii_dec a a then String.prefix s (s +:+ t) else false).
  destruct (ascii_dec a a); [exact IH | congruence].
Qed.

(** The ledger write returns normally and appends its marker to the trace;
    building the record raises before [put_item], so nothing is stored and
    nothing else is touched. *)
Lemma record_run_frame s t ty w :
  exists w' l,
    _record_successful_run s t ty w = (Normal tt, w') /\
    job_lock w' = job_lock w /\
    date_propagation_state w' = date_propagation_state w /\
    ai_state w' = ai_state w /\
    last_ui_trigger_ts w' = last_ui_trigger_ts w /\
    retry_state w' = retry_state w /\
    trace w' = (trace w ++ [EvRecordRun (strftime_HHMM t) ty])%list /\
    ledger w' = (ledger w ++ l)%list /\
    l = [].
Proof.
  exists (with_trace (trace w ++ [EvRecordRun (strftime_HHMM t) ty]) w), [].
  unfold _record_successful_run, timezone_utc, bind, try_except, emit, modify,
    guard, raise.
  destruct (config_ok s); cbn -[strftime_HHMM]; rewrite app_nil_r;
    repeat split; reflexivity.
Qed.

Lemma set_propagation_state_eq d r n w :
  set_propagation_state d r n w =
    (Normal tt, exec (set_propagation_state d r n) w).
Proof. reflexivity. Qed.

Lemma set_propagation_state_frame d r n w :
  let w' := exec (set_propagation_state d r n) w in
  job_lock w' = job_lock w /\ ai_state w' = ai_state w /\
  last_ui_trigger_ts w' = last_ui_trigger_ts w /\ ledger w' = ledger w /\
  retry_state w' = retry_state w /\ trace w' = trace w /\
  (forall k, k <> prop_key d ->
     date_propagation_state w' !! k = date_propagation_state w !! k).
Proof.
  cbn. repeat split. intros k Hk. by rewrite lookup_insert_ne.
Qed.

(** Name what the closing [set_propagation_state] of the goal leaves
    unchanged ([F1] lock, [F2] AI states, [F3] trigger time, [F4] ledger,
    [F6] trace, [F7] other dates) and what it stores ([L]). *)
Ltac final_state_write d F1 F2 F3 F4 F6 F7 L :=
  match goal with
  | |- context [exec (set_propagation_state d ?r ?n) ?w0] =>
      pose proof (set_propagation_state_lookup d r n w0) as L;
      destruct (set_propagation_state_frame d r n w0) as (F1&F2&F3&F4&_&F6&F7)
  end.

(** What the steps after the running mark do, by the way they end. *)
Lemma populate_steps_spec e d run_ai w :
  exists r w' rest l,
    populate_steps e d run_ai w = (r, w') /\
    job_lock w' = job_lock w /\
    ai_state w' = ai_state w /\
    last_ui_trigger_ts w' = last_ui_trigger_ts w /\
    trace w' = (trace w ++ EvDownload (download_target d) :: rest)%list /\
    ledger w' = (ledger w ++ l)%list /\
    (forall k, k <> prop_key d ->
       date_propagation_state w' !! k = date_propagation_state w !! k) /\
    match r with
    | Normal _ =>
        download e = Some true /\
        date_propagation_state w' !! prop_key d = Some (mkProp false false) /\
        exists post,
          rest = (EvExtract :: ingest_events run_ai (csv_files e) ++
                  [EvVerifyCounts; EvVerifySample; EvVerifySample;
                   EvRecordRun (strftime_HHMM (pop_now e)) "scheduled"] ++ post)%list /\
          if run_ai
          then exists delta, post = EvRetryScan :: delta /\
                             Forall (fun ev => is_retry_step ev = true) delta
          else post = []
    | Returned =>
        date_propagation_state w' !! prop_key d = Some (mkProp false true) /\
        l = [] /\ (rest = [] \/ rest = [EvExtract]) /\
        (download e = Some false -> rest = [])
    | Raised =>
        date_propagation_state w' = date_propagation_state w /\
        l = [] /\ (rest = [] \/ rest = [EvExtract]) /\ download e <> Some false
    end.
Proof.
  unfold populate_steps, bind, emit, modify.
  destruct (download e) as [[|]|]; pipeline_step.
  - destruct (extract_ok e); pipeline_step.
    + destruct (csv_files e) as [|c0 cs0] eqn:Hcs.
      * rewrite set_propagation_state_eq. cbn -[set_propagation_state].
        eexists; eexists; exists [EvExtract], [].
        split; [reflexivity|].
        final_state_write d F1 F2 F3 F4 F6 F7 L.
        rewrite F1, F2, F3, F4, F6, L. cbn. rewrite <- app_assoc, app_nil_r.
        repeat split; auto; try (intros; discriminate).
      * rewrite <- Hcs.
        destruct (manager_ok e); pipeline_step.
        -- rewrite ingest_loop_events.
           pipeline_step.
           match goal with |- context [_record_successful_run ?s ?t ?ty ?w0] =>
             destruct (record_run_frame s t ty w0)
               as (w1 & l & Hr & R1 & R2 & R3 & R4 & R5 & R6 & R7 & _) end.
           rewrite Hr. cbn in R1, R2, R3, R4, R5, R6, R7.
           destruct run_ai.
           ++ unfold try_except.
              destruct (smart_retry_frame (pop_retry e) (csv_files e) w1)
                as (w2 & delta & Hs & (S1&S2&S3&S4&S5&S6) & Hd).
              rewrite Hs. rewrite set_propagation_state_eq.
              eexists; eexists; eexists; exists l. split; [reflexivity|].
              final_state_write d F1 F2 F3 F4 F6 F7 L.
              rewrite F1, F2, F3, F4, F6, L, S1, S3, S4, S5, S6, R1, R3, R4, R6, R7.
              cbn -[ingest_events strftime_HHMM].
              repeat split.
              ** repeat (rewrite <- app_assoc; cbn [app]). reflexivity.
              ** intros k Hk. rewrite lookup_insert_ne by congruence.
                 rewrite S2, R2. reflexivity.
              ** eexists. split; [reflexivity|]. exists delta. auto.
           ++ cbn -[set_propagation_state]. rewrite set_propagation_state_eq.
              eexists; eexists; eexists; exists l. split; [reflexivity|].
              final_state_write d F1 F2 F3 F4 F6 F7 L.
              rewrite F1, F2, F3, F4, F6, L, R1, R3, R4, R6, R7.
              cbn -[ingest_events strftime_HHMM].
              repeat split.
              ** repeat (rewrite <- app_assoc; cbn [app]). reflexivity.
              ** intros k Hk. rewrite lookup_insert_ne by congruence.
                 rewrite R2. reflexivity.
              ** exists []. split; reflexivity.
        -- eexists; eexists; exists [EvExtract], [].
           split; [reflexivity|]. cbn. rewrite <- app_assoc, app_nil_r.
           repeat split; auto; try discriminate.
    + eexists; eexists; exists [EvExtract], [].
      split; [reflexivity|]. cbn. rewrite <- app_assoc, app_nil_r.
      repeat split; auto; try discriminate.
  - rewrite set_propagation_state_eq. cbn -[set_propagation_state].
    eexists; eexists; exists [], [].
    split; [reflexivity|].
    final_state_write d F1 F2 F3 F4 F6 F7 L.
    rewrite F1, F2, F3, F4, F6, L. cbn. rewrite app_nil_r.
    repeat split; auto.
  - eexists; eexists; exists [], [].
    split; [reflexivity|]. cbn. rewrite app_nil_r.
    repeat split; auto; try discriminate.
Qed.

(** An invocation that finds the lock held returns at once and changes
    nothing, the trace included. *)
Lemma populate_skips_when_locked e d run_ai w :
  job_lock w = true ->
  populate_audits_for_date e d run_ai w = (Normal tt, w).
Proof.
  intros H. unfold populate_audits_for_date, call, populate_body.
  rewrite H. reflexivity.
Qed.

Lemma populate_unfold_free e d run_ai w :
  job_lock w = false ->
  exec (populate_audits_for_date e d run_ai) w =
    with_lock false (exec (populate_locked e d run_ai) (with_lock true w)).
Proof.
  intros H. unfold exec, populate_audits_for_date, call, populate_body.
  rewrite H. destruct (populate_locked e d run_ai (with_lock true w)) as [[| |] w1];
    reflexivity.
Qed.

Lemma populate_pipeline_setup_fails e d run_ai w :
  setup_ok e = false -> populate_pipeline e d run_ai w = (Raised, w).
Proof. intros H. unfold populate_pipeline, bind, guard. rewrite H. reflexivity. Qed.

Lemma populate_pipeline_setup_ok e d run_ai w :
  setup_ok e = true ->
  populate_pipeline e d run_ai w =
    populate_steps e d run_ai (exec (set_propagation_state d (Some true) None) w).
Proof. intros H. unfold populate_pipeline, bind, guard. rewrite H. reflexivity. Qed.

Lemma propagation_of_lookup d w st :
  date_propagation_state w !! prop_key d = Some st -> propagation_of d w = st.
Proof. intros H. unfold propagation_of. rewrite H. reflexivity. Qed.

Lemma propagation_of_set d r n w :
  propagation_of d (exec (set_propagation_state d r n) w) =
    mkProp (default (running (propagation_of d w)) r)
           (default (noData (propagation_of d w)) n).
Proof. apply propagation_of_lookup, set_propagation_state_lookup. Qed.

Lemma ingest_events_phase run_ai cs :
  Forall (fun ev => is_smart_retry ev = false /\ is_record_run ev = false /\
                    is_download ev = false)
         (ingest_events run_ai cs).
Proof.
  induction cs as [|c cs IH]; [constructor|].
  unfold ingest_events in *. cbn [flat_map]. apply Forall_app. split; [|exact IH].
  destruct (csv_restaurant_id c); [|constructor].
  destruct run_ai; repeat constructor.
Qed.

Lemma retry_steps_phase delta :
  Forall (fun ev => is_retry_step ev = true) delta ->
  Forall (fun ev => is_verify ev = false /\ is_record_run ev = false /\
                    is_download ev = false) delta.
Proof.
  intros H. eapply Forall_impl; [exact H|]. intros ev Hev.
  destruct ev; try discriminate; repeat split.
Qed.

End Population.

(** C3: one invocation that takes the lock first marks the date running
    (leaving [noData] as it was) once set-up has succeeded, and then ends in
    one of three ways: it returns early on no data with [running = False,
    noData = True]; it completes with [running = False, noData = False]; or it
    fails, and the handler clears [running] and leaves [noData] unchanged. *)
Theorem populate_propagation_transitions (e : PopEnv) (d : option string)
    (run_ai : bool) (w : World) :
  job_lock w = false ->
  let before := propagation_of d w in
  let w' := exec (populate_audits_for_date e d run_ai) w in
  (setup_ok e = true ->
   exists w_r,
     populate_pipeline e d run_ai (with_lock true w) = populate_steps e d run_ai w_r /\
     propagation_of d w_r = mkProp true (noData before)) /\
  match result (populate_pipeline e d run_ai) (with_lock true w) with
  | Normal _ => propagation_of d w' = mkProp false false
  | Returned => propagation_of d w' = mkProp false true
  | Raised => propagation_of d w' = mkProp false (noData before)
  end.
Proof.
  intros Hfree before w'. subst before w'. split.
  - intros Hs. eexists. split; [apply populate_pipeline_setup_ok; exact Hs|].
    rewrite propagation_of_set. reflexivity.
  - rewrite (populate_unfold_free _ _ _ _ Hfree).
    unfold result, exec, populate_locked, try_except.
    destruct (setup_ok e) eqn:Hs.
    + rewrite (populate_pipeline_setup_ok _ _ _ _ Hs).
      destruct (populate_steps_spec e d run_ai
                  (exec (set_propagation_state d (Some true) None) (with_lock true w)))
        as (r & w1 & rest & l & Heq & _ & _ & _ & _ & _ & _ & Hr).
      rewrite Heq. destruct r as [[]| |]; cbn [fst snd].
      * destruct Hr as (_ & Hl & _). apply propagation_of_lookup. exact Hl.
      * destruct Hr as [Hl _]. apply propagation_of_lookup. exact Hl.
      * destruct Hr as [Hp _].
        change (snd (set_propagation_state d (Some false) None w1))
          with (exec (set_propagation_state d (Some false) None) w1).
        change (propagation_of d (with_lock false
                  (exec (set_propagation_state d (Some false) None) w1)))
          with (propagation_of d (exec (set_propagation_state d (Some false) None) w1)).
        rewrite propagation_of_set. cbn [default].
        unfold propagation_of at 1. rewrite Hp.
        fold (propagation_of d (exec (set_propagation_state d (Some true) None)
                                     (with_lock true w))).
        rewrite propagation_of_set. reflexivity.
    + rewrite (populate_pipeline_setup_fails _ _ _ _ Hs). cbn [fst snd].
      change (snd (set_propagation_state d (Some false) None (with_lock true w)))
        with (exec (set_propagation_state d (Some false) None) (with_lock true w)).
      change (propagation_of d (with_lock false
                (exec (set_propagation_state d (Some false) None) (with_lock true w))))
        with (propagation_of d (exec (set_propagation_state d (Some false) None)
                                     (with_lock true w))).
      rewrite propagation_of_set. reflexivity.
Qed.

(** C4: when the download reports that no files were found, the invocation
    returns early: the download is its only collaborator call (no extraction,
    no ingest, no ledger write), the date ends with [noData = True] and
    [running = False], and the lock is free again. *)
Theorem no_files_short_circuit (e : PopEnv) (d : option string) (run_ai : bool)
    (w : World) :
  job_lock w = false ->
  setup_ok e = true ->
  download e = Some false ->
  let w' := exec (populate_audits_for_date e d run_ai) w in
  result (populate_pipeline e d run_ai) (with_lock true w) = Returned /\
  new_events w w' = [EvDownload (download_target d)] /\
  (forall csv, ~ In (EvPopulateCsv csv) (new_events w w')) /\
  propagation_of d w' = mkProp false true /\
  ledger w' = ledger w /\
  job_lock w' = false.
Proof.
  intros Hfree Hs Hd w'. subst w'.
  rewrite (populate_unfold_free _ _ _ _ Hfree).
  unfold result, exec, populate_locked, try_except.
  rewrite (populate_pipeline_setup_ok _ _ _ _ Hs).
  destruct (populate_steps_spec e d run_ai
              (exec (set_propagation_state d (Some true) None) (with_lock true w)))
    as (r & w1 & rest & l & Heq & _ & _ & _ & Ht & Hl & _ & Hr).
  rewrite Heq. destruct r as [[]| |]; cbn [fst snd].
  - destruct Hr as (Hdl & _). congruence.
  - destruct Hr as (Hp & -> & _ & Hrest). specialize (Hrest Hd). subst rest.
    assert (new_events w (with_lock false w1) = [EvDownload (download_target d)]) as Hn.
    { apply new_events_app. cbn in Ht |- *. exact Ht. }
    rewrite Hn. repeat split.
    + intros csv [H|[]]. discriminate.
    + apply propagation_of_lookup. exact Hp.
    + cbn in Hl |- *. rewrite Hl. apply app_nil_r.
  - destruct Hr as (_ & _ & _ & Hne). contradiction.
Qed.

(** C8 (as the code has it): in a successful population run the call of
    the ledger write, [_record_successful_run], comes after the download, the
    extraction, the ingest of every source and the three verification calls
    (the count check and the sample check, which the code runs twice), none
    of which belongs to the smart retry engine; everything after that call is
    smart retry (present only with AI enabled), with no further verification
    or ledger write.  The call catches its own failure, so this holds whatever
    the store answers. *)
Theorem ledger_write_after_ingest_before_retry (e : PopEnv) (d : option string)
    (run_ai : bool) (w : World) :
  job_lock w = false ->
  result (populate_pipeline e d run_ai) (with_lock true w) = Normal tt ->
  let w' := exec (populate_audits_for_date e d run_ai) w in
  exists pre post,
    new_events w w' =
      (pre ++ EvRecordRun (strftime_HHMM (pop_now e)) "scheduled" :: post)%list /\
    pre = (EvDownload (download_target d) :: EvExtract ::
           ingest_events run_ai (csv_files e) ++
           [EvVerifyCounts; EvVerifySample; EvVerifySample])%list /\
    Forall (fun ev => is_smart_retry ev = false /\ is_record_run ev = false) pre /\
    Forall (fun ev => is_verify ev = false /\ is_record_run ev = false) post /\
    (if run_ai
     then exists delta, post = EvRetryScan :: delta /\
                        Forall (fun ev => is_retry_step ev = true) delta
     else post = []).
Proof.
  intros Hfree Hres w'. subst w'.
  rewrite (populate_unfold_free _ _ _ _ Hfree).
  unfold result in Hres. unfold exec, populate_locked, try_except.
  destruct (setup_ok e) eqn:Hs;
    [|rewrite (populate_pipeline_setup_fails _ _ _ _ Hs) in Hres; discriminate].
  rewrite (populate_pipeline_setup_ok _ _ _ _ Hs) in Hres |- *.
  destruct (populate_steps_spec e d run_ai
              (exec (set_propagation_state d (Some true) None) (with_lock true w)))
    as (r & w1 & rest & l & Heq & _ & _ & _ & Ht & _ & _ & Hr).
  rewrite Heq in Hres |- *. cbn [fst] in Hres. subst r. cbn [snd].
  destruct Hr as (_ & _ & post & Hrest & Hpost).
  exists (EvDownload (download_target d) :: EvExtract ::
          ingest_events run_ai (csv_files e) ++
          [EvVerifyCounts; EvVerifySample; EvVerifySample])%list, post.
  split; [|split; [reflexivity|split; [|split]]].
  - apply new_events_app. cbn -[ingest_events strftime_HHMM] in Ht |- *.
    rewrite Ht, Hrest. cbn [app]. rewrite <- app_assoc. reflexivity.
  - repeat constructor. apply Forall_app. split; [|repeat constructor].
    eapply Forall_impl; [apply ingest_events_phase|]. cbn. tauto.
  - destruct run_ai.
    + destruct Hpost as (delta & -> & Hd). constructor; [auto|].
      eapply Forall_impl; [apply retry_steps_phase; exact Hd|]. cbn. tauto.
    + subst post. constructor.
  - exact Hpost.
Qed.

(** ** Catch-up detector *)

Section CatchUp.

(** An invocation that takes the lock and passes set-up calls the download
    exactly once, returns normally to its caller and leaves the lock free. *)
Lemma populate_free_spec e d run_ai w :
  job_lock w = false ->
  setup_ok e = true ->
  exists w' rest l,
    populate_audits_for_date e d run_ai w = (Normal tt, w') /\
    job_lock w' = false /\
    trace w' = (trace w ++ EvDownload (download_target d) :: rest)%list /\
    Forall (fun ev => is_download ev = false) rest /\
    ledger w' = (ledger w ++ l)%list.
Proof.
  intros Hfree Hs.
  unfold populate_audits_for_date, call, populate_body. rewrite Hfree.
  unfold populate_locked, try_except.
  rewrite (populate_pipeline_setup_ok _ _ _ _ Hs).
  destruct (populate_steps_spec e d run_ai
              (exec (set_propagation_state d (Some true) None) (with_lock true w)))
    as (r & w1 & rest & l & Heq & _ & _ & _ & Ht & Hl & _ & Hr).
  rewrite Heq. cbn in Ht, Hl.
  assert (Forall (fun ev => is_download ev = false) rest) as Hnd.
  { destruct r as [[]| |].
    - destruct Hr as (_ & _ & post & -> & Hpost).
      constructor; [reflexivity|]. apply Forall_app. split.
      + eapply Forall_impl; [apply ingest_events_phase|]. cbn. tauto.
      + apply Forall_app. split; [repeat constructor|].
        destruct run_ai.
        * destruct Hpost as (delta & -> & Hd). constructor; [reflexivity|].
          eapply Forall_impl; [apply retry_steps_phase; exact Hd|]. cbn. tauto.
        * subst post. constructor.
    - destruct Hr as (_ & _ & [->| ->] & _); repeat constructor.
    - destruct Hr as (_ & _ & [->| ->] & _); repeat constructor. }
  destruct r as [[]| |].
  - exists (with_lock false w1), rest, l. cbn. auto.
  - exists (with_lock false w1), rest, l. cbn. auto.
  - exists (with_lock false (exec (set_propagation_state d (Some false) None) w1)),
      rest, l. cbn. auto.
Qed.

(** The catch-up loop: for each slot of the list it is given, in turn, one
    population attempt and then the call of the ledger write. *)
Lemma catch_up_loop_spec e rtype missed : forall i w,
  job_lock w = false ->
  (forall j, setup_ok (catch_pop e j) = true) ->
  exists w' delta l,
    catch_up_loop e rtype i missed w = (Normal (map slot_label missed), w') /\
    job_lock w' = false /\
    trace w' = (trace w ++ delta)%list /\
    ledger w' = (ledger w ++ l)%list /\
    count_events is_download delta = length missed /\
    (forall slot, In slot missed -> In (EvRecordRun (slot_hhmm slot) rtype) delta) /\
    catch_up_events rtype missed delta.
Proof.
  induction missed as [|[hour minute] rest IH]; intros i w Hfree Hsetup.
  - exists w, [], []. cbn. rewrite !app_nil_r.
    repeat split; try reflexivity; intros; contradiction || tauto.
  - cbn [catch_up_loop]. unfold bind at 1. unfold try_except, bind.
    unfold populate_today_audits.
    destruct (populate_free_spec (catch_pop e i) None true w Hfree (Hsetup i))
      as (w1 & rest1 & l1 & Hp & Hf1 & Ht1 & Hnd & Hl1).
    rewrite Hp.
    destruct (record_run_frame (catch_store e) (dt_replace (catch_now e) hour minute)
                rtype w1)
      as (w2 & l2 & Hr & R1 & _ & _ & _ & _ & R6 & R7 & _).
    rewrite Hr. unfold ret at 1.
    assert (job_lock w2 = false) as Hf2 by congruence.
    destruct (IH (S i) w2 Hf2 Hsetup)
      as (w3 & d3 & l3 & Hloop & Hf3 & Ht3 & Hl3 & Hc3 & He3 & Hg3).
    rewrite Hloop. unfold ret.
    exists w3,
      ((EvDownload (download_target None) :: rest1) ++
       [EvRecordRun (strftime_HHMM (dt_replace (catch_now e) hour minute)) rtype] ++ d3)%list,
      (l1 ++ l2 ++ l3)%list.
    split; [reflexivity|]. split; [exact Hf3|].
    split; [rewrite Ht3, R6, Ht1; by rewrite <- !app_assoc|].
    split; [rewrite Hl3, R7, Hl1; by rewrite <- !app_assoc|].
    split; [|split].
    + rewrite !count_events_app, Hc3.
      change (EvDownload (download_target None) :: rest1)
        with ([EvDownload (download_target None)] ++ rest1)%list.
      rewrite count_events_app, (count_events_none _ _ Hnd). reflexivity.
    + intros slot [<-|Hin].
      * apply in_or_app. right. left. reflexivity.
      * apply in_or_app. right. right. apply He3. exact Hin.
    + cbn [catch_up_events]. exists rest1, d3.
      split; [reflexivity|]. split; [exact Hnd | exact Hg3].
Qed.

(** A status check returns normally and reads only. *)
Lemma check_run_status_total s date_str h m w :
  exists st, _check_run_status s date_str h m w = (Normal st, w).
Proof.
  unfold _check_run_status, try_except, bind, guard, gets.
  destruct (config_ok s); cbn -[fmt02 run_tracking_items];
    [destruct (session_ok s); cbn -[fmt02 run_tracking_items]|].
  - destruct (filter _ _); destruct (_has_recent_successful_run s); eauto.
  - destruct (_has_recent_successful_run s); eauto.
  - destruct (_has_recent_successful_run s); eauto.
Qed.

Lemma detect_missed_total e slots w :
  exists missed, detect_missed e slots w = (Normal missed, w).
Proof.
  induction slots as [|[hour minute] rest IH]; [by exists []|].
  destruct IH as (missed & IH). cbn [detect_missed]. unfold bind at 1.
  destruct (dt_gt (catch_now e) (dt_replace (catch_now e) hour minute)).
  - unfold bind at 1.
    destruct (check_run_status_total (catch_store e) (dt_date (catch_now e))
                hour minute w) as (st & ->).
    unfold ret at 1. unfold bind. rewrite IH. unfold ret. eauto.
  - unfold ret at 1. unfold bind. rewrite IH. unfold ret. eauto.
Qed.

(** When the scan-data probe raises or the configuration cannot be read,
    every status check answers ["completed"]. *)
Lemma check_run_status_assumes_success s date_str h m w :
  config_ok s = false \/ recent_scan s = None ->
  exists rt ty,
    _check_run_status s date_str h m w = (Normal (mkStatus "completed" rt ty), w).
Proof.
  intros H.
  assert (_has_recent_successful_run s = true) as Hrec.
  { unfold _has_recent_successful_run. destruct H as [-> | ->]; [reflexivity|].
    destruct (config_ok s); reflexivity. }
  unfold _check_run_status, try_except, bind, guard, gets. rewrite Hrec.
  destruct (config_ok s); cbn -[fmt02 run_tracking_items];
    [destruct (session_ok s); cbn -[fmt02 run_tracking_items]|]; eauto.
  destruct (filter _ _); eauto.
Qed.

Lemma detect_missed_assumes_success e slots w :
  config_ok (catch_store e) = false \/ recent_scan (catch_store e) = None ->
  detect_missed e slots w = (Normal [], w).
Proof.
  intros H. induction slots as [|[hour minute] rest IH]; [reflexivity|].
  cbn [detect_missed]. unfold bind at 1.
  destruct (dt_gt (catch_now e) (dt_replace (catch_now e) hour minute)).
  - unfold bind at 1.
    destruct (check_run_status_assumes_success (catch_store e)
                (dt_date (catch_now e)) hour minute w H) as (rt & ty & ->).
    unfold ret at 1. unfold bind. rewrite IH. reflexivity.
  - unfold ret at 1. unfold bind. rewrite IH. reflexivity.
Qed.

End CatchUp.

(** C2 (as the code has it): both detectors run the population entry point
    once for every missed slot, not once for the whole set.  With the job lock
    free and every attempt passing set-up, the events of a detector run are,
    for each missed slot in turn, one population attempt that calls the
    download once, followed by the call of the ledger write of type
    ["catchup"] (["manual_catchup"] for the manual detector) for that slot: the
    download is called as many times as there are missed slots.  The manual
    detector reports every missed slot as caught up. *)
Theorem catch_up_populates_per_missed_slot (e : CatchEnv) (w : World)
    (missed : list (Z * Z)) :
  job_lock w = false ->
  (forall j, setup_ok (catch_pop e j) = true) ->
  result (detect_missed e expected_runs) w = Normal missed ->
  (let w' := exec (_check_and_catch_up_missed_runs e) w in
   catch_up_events "catchup" missed (new_events w w') /\
   count_events is_download (new_events w w') = length missed /\
   (forall slot, In slot missed ->
      In (EvRecordRun (slot_hhmm slot) "catchup") (new_events w w'))) /\
  (let w' := exec (manual_catch_up_runs e) w in
   catch_up_events "manual_catchup" missed (new_events w w') /\
   count_events is_download (new_events w w') = length missed /\
   (forall slot, In slot missed ->
      In (EvRecordRun (slot_hhmm slot) "manual_catchup") (new_events w w')) /\
   result (manual_catch_up_runs e) w =
     Normal (mkReport true (map slot_label missed) (length missed))).
Proof.
  intros Hfree Hsetup Hdet.
  destruct (detect_missed_total e expected_runs w) as (missed' & Hm).
  unfold result in Hdet. rewrite Hm in Hdet. cbn in Hdet.
  injection Hdet as ->.
  split.
  - destruct (catch_up_loop_spec e "catchup" missed 0%nat w Hfree Hsetup)
      as (w1 & delta & l & Hloop & _ & Ht & _ & Hc & He & Hg).
    cbn zeta. unfold exec, _check_and_catch_up_missed_runs, try_except, bind.
    rewrite Hm. destruct missed as [|slot0 rest0] eqn:Hmissed.
    + cbn. unfold new_events. rewrite drop_all.
      repeat split; intros; contradiction.
    + rewrite Hloop. cbn [snd fst ret].
      rewrite (new_events_app _ _ _ Ht). split; [exact Hg|]. split; [exact Hc|].
      exact He.
  - destruct (catch_up_loop_spec e "manual_catchup" missed 0%nat w Hfree Hsetup)
      as (w1 & delta & l & Hloop & _ & Ht & _ & Hc & He & Hg).
    cbn zeta. unfold result, exec, manual_catch_up_runs, try_except, bind.
    rewrite Hm. destruct missed as [|slot0 rest0] eqn:Hmissed.
    + cbn. unfold new_events. rewrite drop_all.
      repeat split; intros; contradiction.
    + rewrite Hloop. cbn [snd fst ret].
      rewrite (new_events_app _ _ _ Ht). split; [exact Hg|]. split; [exact Hc|].
      split; [exact He | reflexivity].
Qed.

Lemma catch_up_populates_per_missed_slot_witness :
  count_events is_download
    (new_events initial_world
       (exec (_check_and_catch_up_missed_runs Scenario.catch_env_evening)
             initial_world)) = 2%nat /\
  catch_up_events "catchup" [(16, 0); (20, 0)]
    (new_events initial_world
       (exec (_check_and_catch_up_missed_runs Scenario.catch_env_evening)
             initial_world)) /\
  result (manual_catch_up_runs Scenario.catch_env_evening) initial_world
    = Normal (mkReport true ["16:00"; "20:00"] 2).
Proof.
  destruct (catch_up_populates_per_missed_slot Scenario.catch_env_evening
              initial_world [(16, 0); (20, 0)]) as [(H0 & H1 & _) (_ & _ & _ & H2)].
  - reflexivity.
  - intros j. reflexivity.
  - vm_compute. reflexivity.
  - split; [exact H1 | split; [exact H0 | exact H2]].
Defined.

(** C2 as stated fails: at 21:00 with both slots missed the detector runs
    the population pipeline twice, not once. *)
Lemma catch_up_runs_pipeline_twice :
  ~ (result (detect_missed Scenario.catch_env_evening expected_runs) initial_world
       = Normal [(16, 0); (20, 0)] ->
     count_events is_download
       (new_events initial_world
          (exec (_check_and_catch_up_missed_runs Scenario.catch_env_evening)
                initial_world)) = 1%nat).
Proof.
  intros H. assert (Hd : result (detect_missed Scenario.catch_env_evening expected_runs)
                           initial_world = Normal [(16, 0); (20, 0)])
    by (vm_compute; reflexivity).
  specialize (H Hd). vm_compute in H. discriminate.
Qed.

(** C9 (as the code has it): a failing scan-data probe, or a configuration
    that cannot be read, makes [_has_recent_successful_run] answer [True] and
    [_check_run_status] report ["completed"], and a failing paginated scan
    makes [_is_today_populated] answer [True]; then neither the detector nor
    start-up changes anything.  A failing run-tracking query only falls back
    on the probe: the status is ["completed"] when the probe answers [True]
    and ["error"] when it answers [False]. *)
Theorem status_checks_under_store_failure (s : StoreEnv) (date_str : string)
    (h m : Z) (w : World) :
  (config_ok s = false \/ recent_scan s = None ->
   _has_recent_successful_run s = true /\
   exists rt ty,
     _check_run_status s date_str h m w = (Normal (mkStatus "completed" rt ty), w)) /\
  (config_ok s = true -> scan_today_pages s 0 MAX_PAGES = None ->
   _is_today_populated s w = (Normal true, w)) /\
  (config_ok s = true -> session_ok s = false ->
   _check_run_status s date_str h m w =
     (Normal (if _has_recent_successful_run s
              then mkStatus "completed" (Some "unknown") (Some "inferred_from_data")
              else mkStatus "error" None None), w)) /\
  (forall e, catch_store e = s ->
     config_ok s = false \/ recent_scan s = None ->
     exec (_check_and_catch_up_missed_runs e) w = w) /\
  (forall e, catch_store e = s ->
     config_ok s = false \/
       (recent_scan s = None /\ scan_today_pages s 0 MAX_PAGES = None) ->
     exec (run_once_on_startup e) w = w).
Proof.
  split; [|split; [|split; [|split]]].
  - intros H. split.
    + unfold _has_recent_successful_run. destruct H as [-> | ->]; [reflexivity|].
      destruct (config_ok s); reflexivity.
    + apply check_run_status_assumes_success. exact H.
  - intros Hc Hp. unfold _is_today_populated, bind, guard. rewrite Hc, Hp. reflexivity.
  - intros Hc Hs. unfold _check_run_status, try_except, bind, guard.
    rewrite Hc, Hs. cbn. destruct (_has_recent_successful_run s); reflexivity.
  - intros e He H. subst s.
    unfold exec, _check_and_catch_up_missed_runs, try_except, bind.
    rewrite (detect_missed_assumes_success e expected_runs w H). reflexivity.
  - intros e He H. subst s.
    unfold exec, run_once_on_startup, try_except, bind, _is_today_populated, guard.
    destruct H as [Hc | [Hr Hp]].
    + rewrite Hc. reflexivity.
    + destruct (config_ok (catch_store e)) eqn:Hc; [|reflexivity].
      cbn -[_check_and_catch_up_missed_runs scan_today_pages MAX_PAGES].
      rewrite Hp. cbn -[_check_and_catch_up_missed_runs].
      unfold _check_and_catch_up_missed_runs, try_except, bind.
      rewrite (detect_missed_assumes_success e expected_runs w (or_intror Hr)).
      reflexivity.
Qed.

Lemma status_checks_under_store_failure_witness :
  _has_recent_successful_run Scenario.store_scan_down = true /\
  exec (run_once_on_startup Scenario.catch_env_scan_down) initial_world
    = initial_world /\
  result (_check_run_status Scenario.store_ledger_down "2025-07-27" 16 0) initial_world
    = Normal (mkStatus "error" None None).
Proof.
  destruct (status_checks_under_store_failure Scenario.store_scan_down
              "2025-07-27" 16 0 initial_world) as (H1 & _ & _ & _ & H5).
  destruct (status_checks_under_store_failure Scenario.store_ledger_down
              "2025-07-27" 16 0 initial_world) as (_ & _ & H3 & _).
  split; [|split].
  - apply H1. right. reflexivity.
  - apply (H5 Scenario.catch_env_scan_down); [reflexivity|].
    right. split; reflexivity.
  - unfold result. rewrite H3; reflexivity.
Defined.

(** C9 as stated fails: at 17:00, with the run-tracking query raising and
    the scan-data probe answering that today has no data, the 16:00 status is
    ["error"], not ["completed"], and the detector runs a population. *)
Lemma ledger_failure_triggers_population :
  ~ (session_ok Scenario.store_ledger_down = false ->
     (exists rt ty,
        result (_check_run_status Scenario.store_ledger_down "2025-07-27" 16 0)
               initial_world = Normal (mkStatus "completed" rt ty)) /\
     count_events is_download
       (new_events initial_world
          (exec (_check_and_catch_up_missed_runs Scenario.catch_env_ledger_down)
                initial_world)) = 0%nat).
Proof.
  intros H. destruct (H eq_refl) as [_ Hc]. vm_compute in Hc. discriminate.
Qed.

(** ** Worked scenarios *)

Lemma populate_propagation_transitions_witness :
  propagation_of (Some "2025-07-27")
    (exec (populate_audits_for_date (Scenario.pop_env Scenario.evening true)
             (Some "2025-07-27") true) initial_world)
  = mkProp false false.
Proof.
  destruct (populate_propagation_transitions (Scenario.pop_env Scenario.evening true)
              (Some "2025-07-27") true initial_world) as [_ H].
  - reflexivity.
  - vm_compute in H. vm_compute. exact H.
Defined.

Lemma no_files_short_circuit_witness :
  new_events initial_world
    (exec (populate_audits_for_date (Scenario.pop_env Scenario.evening false)
             (Some "2025-07-27") true) initial_world)
    = [EvDownload (Some "2025-07-27")] /\
  propagation_of (Some "2025-07-27")
    (exec (populate_audits_for_date (Scenario.pop_env Scenario.evening false)
             (Some "2025-07-27") true) initial_world)
    = mkProp false true.
Proof.
  destruct (no_files_short_circuit (Scenario.pop_env Scenario.evening false)
              (Some "2025-07-27") true initial_world)
    as (_ & H2 & _ & H4 & _).
  - reflexivity.
  - reflexivity.
  - reflexivity.
  - split; [exact H2 | exact H4].
Defined.

Lemma smart_retry_budget_and_backoff_witness :
  ~ In (EvEnrich (csv_path Scenario.source_s1))
       (new_events (with_retry Scenario.budget_spent initial_world)
          (exec (_smart_retry_for_missing Scenario.retry_env [Scenario.source_s1])
                (with_retry Scenario.budget_spent initial_world))) /\
  ~ In (EvEnrich (csv_path Scenario.source_s1))
       (new_events (with_retry Scenario.retried_10_min_ago initial_world)
          (exec (_smart_retry_for_missing Scenario.retry_env [Scenario.source_s1])
                (with_retry Scenario.retried_10_min_ago initial_world))) /\
  In (EvEnrich (csv_path Scenario.source_s1))
     (new_events (with_retry Scenario.retried_31_min_ago initial_world)
        (exec (_smart_retry_for_missing Scenario.retry_env [Scenario.source_s1])
              (with_retry Scenario.retried_31_min_ago initial_world))).
Proof.
  assert (NoDup (map csv_path [Scenario.source_s1])) as Hnd
    by (repeat constructor; intros H; inversion H).
  assert (In Scenario.source_s1 [Scenario.source_s1]) as Hin by (left; reflexivity).
  destruct (smart_retry_budget_and_backoff Scenario.retry_env [Scenario.source_s1]
              Scenario.source_s1 (with_retry Scenario.budget_spent initial_world)
              Hnd Hin eq_refl) as (_ & _ & Hspent).
  destruct (smart_retry_budget_and_backoff Scenario.retry_env [Scenario.source_s1]
              Scenario.source_s1 (with_retry Scenario.retried_10_min_ago initial_world)
              Hnd Hin eq_refl) as (Hten & _).
  destruct (smart_retry_budget_and_backoff Scenario.retry_env [Scenario.source_s1]
              Scenario.source_s1 (with_retry Scenario.retried_31_min_ago initial_world)
              Hnd Hin eq_refl) as (Hlate & _).
  split; [|split].
  - apply Hspent; vm_compute; reflexivity.
  - intros Hen. apply Hten in Hen. destruct Hen as [_ Hlate']. vm_compute in Hlate'.
    apply Hlate'. reflexivity.
  - apply Hlate. split; vm_compute; [reflexivity | discriminate].
Defined.

Lemma ui_trigger_debounce_witness :
  count_events is_retry_scan
    (new_events initial_world
       (exec (trigger_smart_retry_background Scenario.trigger_second)
          (exec (trigger_smart_retry_background Scenario.trigger_first)
                initial_world))) = 1%nat.
Proof.
  destruct (ui_trigger_debounce Scenario.trigger_first Scenario.trigger_second
              initial_world) as (_ & H).
  - vm_compute. reflexivity.
  - destruct H as (_ & _ & H).
    + vm_compute. discriminate.
    + reflexivity.
    + exact H.
Defined.

Lemma ledger_write_after_ingest_before_retry_witness :
  exists pre post,
    new_events initial_world
      (exec (populate_audits_for_date (Scenario.pop_env Scenario.evening true)
               (Some "2025-07-27") true) initial_world)
      = (pre ++ EvRecordRun "2100" "scheduled" :: post)%list /\
    In (EvPopulateCsv (csv_enriched Scenario.source_s1)) pre /\
    In EvVerifyCounts pre /\
    In EvRetryScan post.
Proof.
  destruct (ledger_write_after_ingest_before_retry
              (Scenario.pop_env Scenario.evening true) (Some "2025-07-27") true
              initial_world) as (pre & post & H1 & H2 & _ & _ & H5).
  - reflexivity.
  - vm_compute. reflexivity.
  - exists pre, post. split; [exact H1|]. rewrite H2.
    destruct H5 as (delta & -> & _). cbn. tauto.
Defined.
(** C8 as stated fails: with the audit-session table raising on every
    request, a successful run evaluates and re-enriches a source in its
    smart-retry pass although no run record has been written. *)
Lemma smart_retry_runs_without_ledger_record :
  ~ (result (populate_pipeline Scenario2.pop_env_ledger_down (Some "2025-07-27") true)
            (with_lock true initial_world) = Normal tt ->
     In (EvRetryEval (csv_path Scenario.source_s1))
        (new_events initial_world
           (exec (populate_audits_for_date Scenario2.pop_env_ledger_down
                    (Some "2025-07-27") true) initial_world)) ->
     ledger (exec (populate_audits_for_date Scenario2.pop_env_ledger_down
                     (Some "2025-07-27") true) initial_world) <> []).
Proof.
  intros H. apply H.
  - vm_compute. reflexivity.
  - vm_compute. tauto.
  - vm_compute. reflexivity.
Qed.

(** * Further properties of the module *)

(** ** The population entry point as a whole *)

Section PopulationTotal.

Lemma count_events_le_length p t : (count_events p t <= length t)%nat.
Proof. unfold count_events. apply List.filter_length_le. Qed.

(** Whatever the collaborators do and whether or not the lock is held, an
    invocation returns normally; it leaves the lock, the AI states, the
    trigger time and the other dates as they were, only appends to the trace
    and the ledger, and calls the download at most once. *)
Lemma populate_total e d run_ai w :
  exists w' delta l,
    populate_audits_for_date e d run_ai w = (Normal tt, w') /\
    job_lock w' = job_lock w /\
    ai_state w' = ai_state w /\
    last_ui_trigger_ts w' = last_ui_trigger_ts w /\
    trace w' = (trace w ++ delta)%list /\
    ledger w' = (ledger w ++ l)%list /\
    (forall k, k <> prop_key d ->
       date_propagation_state w' !! k = date_propagation_state w !! k) /\
    (count_events is_download delta <= 1)%nat /\
    (job_lock w = false -> running (propagation_of d w') = false) /\
    (job_lock w = true -> delta = []).
Proof.
  destruct (job_lock w) eqn:Hlock.
  - exists w, [], []. rewrite (populate_skips_when_locked e d run_ai w Hlock).
    rewrite !app_nil_r. repeat split; auto. discriminate.
  - unfold populate_audits_for_date, call, populate_body. rewrite Hlock.
    unfold populate_locked, try_except.
    destruct (setup_ok e) eqn:Hs.
    + rewrite (populate_pipeline_setup_ok _ _ _ _ Hs).
      destruct (populate_steps_spec e d run_ai
                  (exec (set_propagation_state d (Some true) None) (with_lock true w)))
        as (r & w1 & rest & l & Heq & H1 & H2 & H3 & Ht & Hl & Hk & Hr).
      rewrite Heq. cbn in H1, H2, H3, Ht, Hl.
      assert (forall k, k <> prop_key d ->
                date_propagation_state w1 !! k = date_propagation_state w !! k) as Hk'.
      { intros k Hne. rewrite (Hk k Hne). cbn. by rewrite lookup_insert_ne. }
      assert (Forall (fun ev => is_download ev = false) rest) as Hnd.
      { destruct r as [[]| |].
        - destruct Hr as (_ & _ & post & -> & Hpost).
          constructor; [reflexivity|]. apply Forall_app. split.
          + eapply Forall_impl; [apply ingest_events_phase|]. cbn. tauto.
          + apply Forall_app. split; [repeat constructor|].
            destruct run_ai.
            * destruct Hpost as (delta & -> & Hd). constructor; [reflexivity|].
              eapply Forall_impl; [apply retry_steps_phase; exact Hd|]. cbn. tauto.
            * subst post. constructor.
        - destruct Hr as (_ & _ & [->| ->] & _); repeat constructor.
        - destruct Hr as (_ & _ & [->| ->] & _); repeat constructor. }
      assert (count_events is_download (EvDownload (download_target d) :: rest) <= 1)%nat
        as Hcount.
      { change (EvDownload (download_target d) :: rest)
          with ([EvDownload (download_target d)] ++ rest)%list.
        rewrite count_events_app, (count_events_none _ _ Hnd). cbn. lia. }
      destruct r as [[]| |].
      * exists (with_lock false w1), (EvDownload (download_target d) :: rest), l.
        cbn. repeat split; auto; try discriminate. intros _.
        destruct Hr as (_ & Hp & _).
        change (propagation_of d (with_lock false w1)) with (propagation_of d w1).
        by rewrite (propagation_of_lookup _ _ _ Hp).
      * exists (with_lock false w1), (EvDownload (download_target d) :: rest), l.
        cbn. repeat split; auto; try discriminate. intros _.
        destruct Hr as (Hp & _).
        change (propagation_of d (with_lock false w1)) with (propagation_of d w1).
        by rewrite (propagation_of_lookup _ _ _ Hp).
      * exists (with_lock false (exec (set_propagation_state d (Some false) None) w1)),
          (EvDownload (download_target d) :: rest), l.
        cbn -[set_propagation_state exec propagation_of].
        destruct (set_propagation_state_frame d (Some false) None w1)
          as (F1 & F2 & F3 & F4 & _ & F6 & F7).
        cbn [job_lock ai_state last_ui_trigger_ts trace ledger
             date_propagation_state with_lock].
        rewrite F2, F3, F4, F6.
        split; [reflexivity|]. repeat split; auto; try discriminate.
        -- intros k Hne. rewrite (F7 k Hne). auto.
        -- intros _.
           change (propagation_of d (with_lock false
                     (exec (set_propagation_state d (Some false) None) w1)))
             with (propagation_of d (exec (set_propagation_state d (Some false) None) w1)).
           by rewrite propagation_of_set.
    + rewrite (populate_pipeline_setup_fails _ _ _ _ Hs).
      exists (with_lock false
                (exec (set_propagation_state d (Some false) None) (with_lock true w))),
        [], [].
      rewrite !app_nil_r. split; [reflexivity|]. cbn.
      repeat split; auto; try discriminate.
      * intros k Hne. by rewrite lookup_insert_ne.
      * intros _.
        change (running (propagation_of d (with_lock false
                  (exec (set_propagation_state d (Some false) None) (with_lock true w))))
                = false).
        change (propagation_of d (with_lock false
                  (exec (set_propagation_state d (Some false) None) (with_lock true w))))
          with (propagation_of d (exec (set_propagation_state d (Some false) None)
                                       (with_lock true w))).
        by rewrite propagation_of_set.
Qed.

End PopulationTotal.

Section EntryPoints.

(** One call of the UI trigger, whatever happens: it returns normally,
    changes nothing but the retry store, the trace and the trigger time, and
    never moves the trigger time backwards. *)
Lemma trigger_total t w :
  exists w' delta,
    trigger_smart_retry_background t w = (Normal tt, w') /\
    job_lock w' = job_lock w /\
    date_propagation_state w' = date_propagation_state w /\
    ai_state w' = ai_state w /\
    ledger w' = ledger w /\
    trace w' = (trace w ++ delta)%list /\
    last_ui_trigger_ts w <= last_ui_trigger_ts w' /\
    (last_ui_trigger_ts w' = last_ui_trigger_ts w \/
     last_ui_trigger_ts w' = trigger_now t /\
     300 <= trigger_now t - last_ui_trigger_ts w).
Proof.
  destruct (Z_lt_le_dec (trigger_now t - last_ui_trigger_ts w) 300) as [Hd|Hw].
  - exists w, []. rewrite (trigger_debounced t w Hd), app_nil_r.
    repeat split; auto. lia.
  - destruct (trigger_setup_ok t) eqn:Hs.
    + destruct (trigger_scans t w Hw Hs) as (w1 & delta & Heq & Hf & _).
      destruct Hf as (F1 & F2 & F3 & F4 & F5 & F6).
      exists (with_ui_ts (trigger_now t) w1), (EvRetryScan :: delta).
      split; [exact Heq|]. cbn. repeat split; auto. lia.
    + exists w, []. rewrite (trigger_setup_fails t w Hw Hs), app_nil_r.
      repeat split; auto. lia.
Qed.

(** The catch-up loop, whatever its population attempts do: it returns the
    label of every slot it was given and makes the ledger write of each. *)
Lemma catch_up_loop_total e rtype missed : forall i w,
  exists w' delta,
    catch_up_loop e rtype i missed w = (Normal (map slot_label missed), w') /\
    job_lock w' = job_lock w /\
    ai_state w' = ai_state w /\
    last_ui_trigger_ts w' = last_ui_trigger_ts w /\
    ledger_extends w w' /\
    trace w' = (trace w ++ delta)%list /\
    (count_events is_download delta <= length missed)%nat /\
    (forall slot, In slot missed -> In (EvRecordRun (slot_hhmm slot) rtype) delta) /\
    (job_lock w = true -> count_events is_download delta = 0%nat).
Proof.
  induction missed as [|[hour minute] rest IH]; intros i w.
  - exists w, []. cbn. rewrite app_nil_r.
    repeat split; auto; try (exists []; by rewrite app_nil_r); try (intros ? []).
  - cbn [catch_up_loop]. unfold bind at 1. unfold try_except, bind.
    unfold populate_today_audits.
    destruct (populate_total (catch_pop e i) None true w)
      as (w1 & d1 & l1 & Hp & P1 & P2 & P3 & P4 & P5 & _ & Pc & _ & Pheld).
    rewrite Hp.
    destruct (record_run_frame (catch_store e) (dt_replace (catch_now e) hour minute)
                rtype w1)
      as (w2 & l2 & Hr & R1 & _ & R3 & R4 & _ & R6 & R7 & _).
    rewrite Hr. unfold ret at 1.
    destruct (IH (S i) w2)
      as (w3 & d3 & Hloop & L1 & L2 & L3 & [l3 L4] & L5 & Lc & Le & Lheld).
    rewrite Hloop. unfold ret.
    exists w3,
      (d1 ++ [EvRecordRun (strftime_HHMM (dt_replace (catch_now e) hour minute)) rtype]
          ++ d3)%list.
    split; [reflexivity|]. repeat split; try congruence.
    + exists (l1 ++ l2 ++ l3)%list. rewrite L4, R7, P5. by rewrite <- !app_assoc.
    + rewrite L5, R6, P4. by rewrite <- !app_assoc.
    + rewrite !count_events_app. cbn [length]. cbn in Pc |- *. lia.
    + intros slot [<-|Hin].
      * apply in_or_app. right. left. reflexivity.
      * apply in_or_app. right. right. apply Le. exact Hin.
    + intros Hheld. rewrite (Pheld Hheld). rewrite !count_events_app.
      rewrite Lheld by congruence. reflexivity.
Qed.

Lemma catch_up_total e w :
  exists missed w' delta,
    detect_missed e expected_runs w = (Normal missed, w) /\
    _check_and_catch_up_missed_runs e w = (Normal tt, w') /\
    job_lock w' = job_lock w /\
    ai_state w' = ai_state w /\
    last_ui_trigger_ts w' = last_ui_trigger_ts w /\
    ledger_extends w w' /\
    trace w' = (trace w ++ delta)%list /\
    (count_events is_download delta <= length missed)%nat /\
    (forall slot, In slot missed -> In (EvRecordRun (slot_hhmm slot) "catchup") delta).
Proof.
  destruct (detect_missed_total e expected_runs w) as (missed & Hm).
  exists missed. unfold _check_and_catch_up_missed_runs, try_except, bind.
  rewrite Hm. destruct missed as [|slot0 rest0] eqn:Hmissed.
  - exists w, []. rewrite app_nil_r.
    repeat split; auto; try (exists []; by rewrite app_nil_r); try (intros ? []).
  - destruct (catch_up_loop_total e "catchup" (slot0 :: rest0) 0%nat w)
      as (w' & delta & Hloop & H1 & H2 & H3 & H4 & H5 & H6 & H7 & _).
    rewrite Hloop. exists w', delta. repeat split; auto.
Qed.

End EntryPoints.


(** ** The AI state across a run *)

Section AIRun.

(** An AI run of a date ends with the date not running, the completion time
    stored and the error string empty, whatever was stored before and
    whatever the population did. *)
Lemma run_pan_ai_state e t d completed_at error w :
  result (run_pan_ai e t d completed_at error) w = Normal tt /\
  exists st',
    ai_state (exec (run_pan_ai e t d completed_at error) w) !! d = Some st' /\
    ai_running st' = false /\
    completedAt st' = Some completed_at /\
    lastError st' = Some "".
Proof.
  pose proof (set_ai_state_normal d (Some true) None (Some "") w) as Hn1.
  pose proof (set_ai_state_lookup d (Some true) None (Some "") w) as Hl1.
  unfold result in Hn1. unfold exec in Hl1. cbn zeta in Hl1.
  destruct (set_ai_state d (Some true) None (Some "") w) as [r1 w1] eqn:E1.
  cbn [fst snd] in Hn1, Hl1. subst r1.
  destruct (populate_total e (Some d) true w1)
    as (w2 & delta & l & E2 & _ & Hai2 & _).
  rewrite <- Hai2 in Hl1.
  pose proof (set_ai_state_normal d (Some false) (Some completed_at) None w2) as Hn3.
  pose proof (set_ai_state_same d (Some false) (Some completed_at) None _ w2 Hl1)
    as Hl3.
  unfold result in Hn3. unfold exec in Hl3.
  destruct (set_ai_state d (Some false) (Some completed_at) None w2) as [r3 w3] eqn:E3.
  cbn [fst snd] in Hn3, Hl3. subst r3.
  destruct (trigger_total t w3) as (w4 & d4 & E4 & _ & _ & Hai4 & _).
  unfold result, exec, run_pan_ai, bind, try_except.
  rewrite E1, E2, E3, E4. cbn [fst snd]. split; [reflexivity|].
  rewrite Hai4, Hl3. eexists. split; [reflexivity|]. cbn. auto.
Qed.

End AIRun.

(** C10 (as the code has it): [set_ai_state] reads [None] as "not
    provided".  Along any sequence of [set_ai_state] calls an entry stays
    present, a [completedAt] or [lastError] that is not [None] never becomes
    [None] again, and calls that pass no [lastError] for the date leave the
    recorded string as it was.  Every AI run starts by passing
    [lastError=""], so after a run that completes the error string of the date
    is the empty string, whatever a failed enrichment had recorded. *)
Theorem set_ai_state_never_resets_to_none (calls : list SetAICall) (d : string)
    (st : AIState) (w : World) (e : PopEnv) (t : TriggerEnv)
    (completed_at error : string) :
  ai_state w !! d = Some st ->
  (exists st',
     ai_state (exec (set_ai_state_calls calls) w) !! d = Some st' /\
     (completedAt st <> None -> completedAt st' <> None) /\
     (lastError st <> None -> lastError st' <> None) /\
     (Forall (fun c => call_date c = d -> call_lastError c = None) calls ->
      lastError st' = lastError st)) /\
  (exists st',
     ai_state (exec (run_pan_ai e t d completed_at error) w) !! d = Some st' /\
     completedAt st' = Some completed_at /\
     lastError st' = Some "").
Proof.
  intros Hst. split.
  - apply set_ai_state_calls_keep. exact Hst.
  - destruct (run_pan_ai_state e t d completed_at error w)
      as (_ & st' & Hl & _ & Hc & He).
    exists st'. auto.
Qed.

Lemma set_ai_state_never_resets_to_none_witness :
  (exists st',
     ai_state (exec (set_ai_state_calls Scenario.successful_run_calls)
                    Scenario.world_after_failed_enrichment) !! "2025-07-27" = Some st' /\
     lastError st' <> None) /\
  (exists st',
     ai_state (exec (run_pan_ai (Scenario.pop_env Scenario.evening true)
                       Scenario.trigger_first "2025-07-27"
                       "2025-07-28T01:00:00+00:00" "")
                    Scenario.world_after_failed_enrichment) !! "2025-07-27" = Some st' /\
     lastError st' = Some "").
Proof.
  destruct (set_ai_state_never_resets_to_none Scenario.successful_run_calls
              "2025-07-27" (mkAI false None (Some "connection refused") (mkCov 0 0))
              Scenario.world_after_failed_enrichment
              (Scenario.pop_env Scenario.evening true) Scenario.trigger_first
              "2025-07-28T01:00:00+00:00" "")
    as [(st1 & Hl1 & _ & He1 & _) (st2 & Hl2 & _ & He2)].
  - vm_compute. reflexivity.
  - split.
    + exists st1. split; [exact Hl1|]. apply He1. discriminate.
    + exists st2. split; [exact Hl2 | exact He2].
Defined.

(** C10 as stated fails: the error string recorded by a failed enrichment
    does not persist across a later successful run, which ends with the
    completion time stored and the error string empty. *)
Lemma successful_run_clears_last_error :
  ~ (lastError <$> (ai_state Scenario.world_after_failed_enrichment !! "2025-07-27")
       = Some (Some "connection refused") ->
     completedAt <$>
       (ai_state (exec (run_pan_ai (Scenario.pop_env Scenario.evening true)
                          Scenario.trigger_first "2025-07-27"
                          "2025-07-28T01:00:00+00:00" "")
                       Scenario.world_after_failed_enrichment) !! "2025-07-27")
       = Some (Some "2025-07-28T01:00:00+00:00") ->
     lastError <$>
       (ai_state (exec (run_pan_ai (Scenario.pop_env Scenario.evening true)
                          Scenario.trigger_first "2025-07-27"
                          "2025-07-28T01:00:00+00:00" "")
                       Scenario.world_after_failed_enrichment) !! "2025-07-27")
       = Some (Some "connection refused")).
Proof.
  intros H.
  assert (lastError <$>
            (ai_state (exec (run_pan_ai (Scenario.pop_env Scenario.evening true)
                               Scenario.trigger_first "2025-07-27"
                               "2025-07-28T01:00:00+00:00" "")
                            Scenario.world_after_failed_enrichment) !! "2025-07-27")
          = Some (Some "connection refused")) as Hbad.
  { apply H; vm_compute; reflexivity. }
  vm_compute in Hbad. discriminate.
Qed.

(** X1: no entry point lets an exception reach its caller, and each leaves
    the job lock as it found it; an invocation that took the lock has
    released it when it returns, however its pipeline ended. *)
Theorem entry_points_never_raise (pe : PopEnv) (d : option string) (run_ai : bool)
    (ce : CatchEnv) (t : TriggerEnv) (w : World) :
  returns_and_keeps_lock (populate_audits_for_date pe d run_ai) w /\
  returns_and_keeps_lock (_check_and_catch_up_missed_runs ce) w /\
  returns_and_keeps_lock (_health_check_and_catch_up ce) w /\
  returns_and_keeps_lock (manual_catch_up_runs ce) w /\
  returns_and_keeps_lock (run_once_on_startup ce) w /\
  returns_and_keeps_lock (trigger_smart_retry_background t) w.
Proof.
  assert (returns_and_keeps_lock (_check_and_catch_up_missed_runs ce) w) as Hcheck.
  { destruct (catch_up_total ce w) as (missed & w' & delta & _ & Heq & Hl & _).
    unfold returns_and_keeps_lock, result, exec. rewrite Heq. eauto. }
  split; [|split; [exact Hcheck|split; [|split; [|split]]]].
  - destruct (populate_total pe d run_ai w) as (w' & delta & l & Heq & Hl & _).
    unfold returns_and_keeps_lock, result, exec. rewrite Heq. eauto.
  - destruct (catch_up_total ce w) as (missed & w' & delta & _ & Heq & Hl & _).
    unfold returns_and_keeps_lock, result, exec, _health_check_and_catch_up, try_except.
    rewrite Heq. eauto.
  - destruct (detect_missed_total ce expected_runs w) as (missed & Hm).
    unfold returns_and_keeps_lock, result, exec, manual_catch_up_runs, try_except, bind.
    rewrite Hm. destruct missed as [|slot0 rest0]; [cbn; eauto|].
    destruct (catch_up_loop_total ce "manual_catchup" (slot0 :: rest0) 0%nat w)
      as (w' & delta & Hloop & Hl & _).
    rewrite Hloop. cbn. eauto.
  - unfold returns_and_keeps_lock, result, exec, run_once_on_startup, try_except, bind,
      _is_today_populated, guard.
    destruct (config_ok (catch_store ce)); [|cbn; eauto].
    cbn -[_check_and_catch_up_missed_runs populate_today_audits scan_today_pages
          MAX_PAGES].
    destruct (scan_today_pages (catch_store ce) 0 MAX_PAGES) as [[|]|];
      cbn -[_check_and_catch_up_missed_runs populate_today_audits].
    + destruct Hcheck as [[a Ha] Hl]. unfold result, exec in Ha, Hl.
      destruct (_check_and_catch_up_missed_runs ce w) as [r w']. cbn in Ha, Hl.
      subst r. cbn. eauto.
    + unfold populate_today_audits.
      destruct (populate_total (catch_pop ce 0) None true w)
        as (w' & delta & l & Heq & Hl & _).
      rewrite Heq. cbn. eauto.
    + destruct Hcheck as [[a Ha] Hl]. unfold result, exec in Ha, Hl.
      destruct (_check_and_catch_up_missed_runs ce w) as [r w']. cbn in Ha, Hl.
      subst r. cbn. eauto.
  - destruct (trigger_total t w) as (w' & delta & Heq & Hl & _).
    unfold returns_and_keeps_lock, result, exec. rewrite Heq. eauto.
Qed.

(** X2: a population invocation for one date touches no other date: the
    propagation state of every other key, all AI states and the UI trigger
    time are as before, and the ledger only grows by appended items. *)
Theorem populate_touches_only_its_date (e : PopEnv) (d : option string)
    (run_ai : bool) (w : World) (k : string) :
  k <> prop_key d ->
  let w' := exec (populate_audits_for_date e d run_ai) w in
  date_propagation_state w' !! k = date_propagation_state w !! k /\
  ai_state w' = ai_state w /\
  last_ui_trigger_ts w' = last_ui_trigger_ts w /\
  ledger_extends w w'.
Proof.
  intros Hk w'. subst w'.
  destruct (populate_total e d run_ai w)
    as (w' & delta & l & Heq & _ & Ha & Hu & _ & Hl & Hkeep & _).
  unfold exec. rewrite Heq. cbn [snd].
  split; [apply Hkeep; exact Hk|]. split; [exact Ha|]. split; [exact Hu|].
  exists l. exact Hl.
Qed.

Lemma populate_touches_only_its_date_witness :
  date_propagation_state
    (exec (populate_audits_for_date (Scenario.pop_env Scenario.evening true)
             (Some "2025-07-27") true) Scenario2.world_other_date)
    !! "2025-07-26" = Some (mkProp false true).
Proof.
  destruct (populate_touches_only_its_date (Scenario.pop_env Scenario.evening true)
              (Some "2025-07-27") true Scenario2.world_other_date "2025-07-26")
    as (H & _).
  - vm_compute. discriminate.
  - rewrite H. vm_compute. reflexivity.
Defined.

(** X3: an invocation that took the lock calls [_record_successful_run]
    exactly once when its [try:] block runs to the end, and otherwise (no
    data, or any failure) leaves the ledger untouched and makes neither a
    ledger write nor a smart-retry pass. *)
Theorem populate_records_only_completed_runs (e : PopEnv) (d : option string)
    (run_ai : bool) (w : World) :
  job_lock w = false ->
  let w' := exec (populate_audits_for_date e d run_ai) w in
  match result (populate_pipeline e d run_ai) (with_lock true w) with
  | Normal _ => count_events is_record_run (new_events w w') = 1%nat
  | _ => ledger w' = ledger w /\
         Forall (fun ev => is_record_run ev = false /\ is_smart_retry ev = false)
                (new_events w w')
  end.
Proof.
  intros Hfree w'. subst w'.
  rewrite (populate_unfold_free _ _ _ _ Hfree).
  unfold result, exec, populate_locked, try_except.
  destruct (setup_ok e) eqn:Hs.
  - rewrite (populate_pipeline_setup_ok _ _ _ _ Hs).
    destruct (populate_steps_spec e d run_ai
                (exec (set_propagation_state d (Some true) None) (with_lock true w)))
      as (r & w1 & rest & l & Heq & _ & _ & _ & Ht & Hl & _ & Hr).
    rewrite Heq. cbn in Ht, Hl. destruct r as [[]| |]; cbn [fst snd].
    + destruct Hr as (_ & _ & post & -> & Hpost).
      rewrite (new_events_app w (with_lock false w1) _ Ht).
      change (EvDownload (download_target d) :: EvExtract ::
              ingest_events run_ai (csv_files e) ++
              [EvVerifyCounts; EvVerifySample; EvVerifySample;
               EvRecordRun (strftime_HHMM (pop_now e)) "scheduled"] ++ post)%list
        with ([EvDownload (download_target d); EvExtract] ++
              ingest_events run_ai (csv_files e) ++
              [EvVerifyCounts; EvVerifySample; EvVerifySample;
               EvRecordRun (strftime_HHMM (pop_now e)) "scheduled"] ++ post)%list.
      rewrite !count_events_app.
      rewrite (count_events_none is_record_run (ingest_events run_ai (csv_files e))).
      2: { eapply Forall_impl; [apply ingest_events_phase|]. cbn. tauto. }
      rewrite (count_events_none is_record_run post).
      2: { destruct run_ai.
           - destruct Hpost as (delta & -> & Hd). constructor; [reflexivity|].
             eapply Forall_impl; [apply retry_steps_phase; exact Hd|]. cbn. tauto.
           - subst post. constructor. }
      reflexivity.
    + destruct Hr as (_ & -> & Hrest & _).
      rewrite (new_events_app w (with_lock false w1) _ Ht).
      split; [cbn; rewrite Hl; apply app_nil_r|].
      destruct Hrest as [-> | ->]; repeat constructor.
    + destruct Hr as (_ & -> & Hrest & _).
      assert (new_events w (with_lock false
                (snd (set_propagation_state d (Some false) None w1)))
              = EvDownload (download_target d) :: rest) as Hn.
      { apply new_events_app. cbn. exact Ht. }
      rewrite Hn. split; [cbn; rewrite Hl; apply app_nil_r|].
      destruct Hrest as [-> | ->]; repeat constructor.
  - rewrite (populate_pipeline_setup_fails _ _ _ _ Hs). cbn [fst snd].
    split; [reflexivity|].
    assert (new_events w (with_lock false
              (snd (set_propagation_state d (Some false) None (with_lock true w))))
            = []) as Hn.
    { apply new_events_app. cbn. by rewrite app_nil_r. }
    rewrite Hn. constructor.
Qed.

Lemma populate_records_only_completed_runs_witness :
  ledger (exec (populate_audits_for_date Scenario2.pop_env_download_raises
                  (Some "2025-07-27") true) initial_world) = [].
Proof.
  pose proof (populate_records_only_completed_runs Scenario2.pop_env_download_raises
                (Some "2025-07-27") true initial_world eq_refl) as H.
  vm_compute in H. destruct H as [H _]. vm_compute. exact H.
Defined.

(** X4: the manual detector always answers [success = True] and lists
    every slot it found missed as caught up, with a ledger write of type
    ["manual_catchup"] for each, whatever its population attempts did; when
    another invocation holds the lock the attempts are skipped, no download is
    made, and the report is the same. *)
Theorem manual_catch_up_reports_every_missed_slot (e : CatchEnv) (w : World) :
  exists missed,
    result (detect_missed e expected_runs) w = Normal missed /\
    result (manual_catch_up_runs e) w =
      Normal (mkReport true (map slot_label missed) (length missed)) /\
    (forall slot, In slot missed ->
       In (EvRecordRun (slot_hhmm slot) "manual_catchup")
          (new_events w (exec (manual_catch_up_runs e) w))) /\
    (job_lock w = true ->
     count_events is_download (new_events w (exec (manual_catch_up_runs e) w)) = 0%nat).
Proof.
  destruct (detect_missed_total e expected_runs w) as (missed & Hm).
  exists missed. unfold result, exec, manual_catch_up_runs, try_except, bind.
  rewrite Hm. cbn [fst]. split; [reflexivity|].
  destruct missed as [|slot0 rest0].
  - cbn. rewrite new_events_same. repeat split; auto; intros ? [].
  - destruct (catch_up_loop_total e "manual_catchup" (slot0 :: rest0) 0%nat w)
      as (w' & delta & Hloop & _ & _ & _ & _ & Ht & _ & Hrec & Hheld).
    rewrite Hloop. cbn [fst snd ret].
    rewrite (new_events_app w w' delta Ht). repeat split; auto.
Qed.

Lemma manual_catch_up_reports_every_missed_slot_witness :
  result (manual_catch_up_runs Scenario2.catch_env_failing) Scenario2.world_locked
    = Normal (mkReport true ["16:00"; "20:00"] 2) /\
  count_events is_download
    (new_events Scenario2.world_locked
       (exec (manual_catch_up_runs Scenario2.catch_env_failing)
             Scenario2.world_locked)) = 0%nat.
Proof.
  destruct (manual_catch_up_reports_every_missed_slot Scenario2.catch_env_failing
              Scenario2.world_locked) as (missed & Hd & Hr & _ & Hheld).
  assert (missed = [(16, 0); (20, 0)]) as ->.
  { vm_compute in Hd. injection Hd as <-. reflexivity. }
  split; [exact Hr | apply Hheld; reflexivity].
Defined.

(** X5: a call of the UI smart-retry trigger changes nothing but the retry
    store, the trace and the trigger time: the lock, the propagation and AI
    states and the ledger are as before.  The trigger time never moves
    backwards, and it changes only to the time of a call made at least 300
    seconds after the previous value. *)
Theorem ui_trigger_frame (t : TriggerEnv) (w : World) :
  let w' := exec (trigger_smart_retry_background t) w in
  date_propagation_state w' = date_propagation_state w /\
  ai_state w' = ai_state w /\
  ledger w' = ledger w /\
  last_ui_trigger_ts w <= last_ui_trigger_ts w' /\
  (last_ui_trigger_ts w' = last_ui_trigger_ts w \/
   last_ui_trigger_ts w' = trigger_now t /\
   300 <= trigger_now t - last_ui_trigger_ts w).
Proof.
  destruct (trigger_total t w) as (w' & delta & Heq & _ & Hp & Ha & Hl & _ & Hm & Hc).
  cbn zeta. unfold exec. rewrite Heq. cbn [snd]. auto.
Qed.


(** ** Detector and status checks *)

Section Detector.

Lemma detect_missed_cons e slot rest w :
  exists missed_rest,
    detect_missed e rest w = (Normal missed_rest, w) /\
    detect_missed e (slot :: rest) w =
      (Normal (if dt_gt (catch_now e) (dt_replace (catch_now e) (fst slot) (snd slot))
                  && negb (String.eqb (status_of_slot e w slot) "completed")
               then slot :: missed_rest else missed_rest), w).
Proof.
  destruct (detect_missed_total e rest w) as (missed_rest & Hrest).
  exists missed_rest. split; [exact Hrest|].
  destruct slot as [hour minute]. cbn [detect_missed fst snd]. unfold bind at 1.
  unfold status_of_slot, result. cbn [fst snd].
  destruct (dt_gt (catch_now e) (dt_replace (catch_now e) hour minute)).
  - unfold bind at 1.
    destruct (check_run_status_total (catch_store e) (dt_date (catch_now e))
                hour minute w) as (st & ->).
    unfold ret at 1. unfold bind. rewrite Hrest. reflexivity.
  - unfold ret at 1. unfold bind. rewrite Hrest. reflexivity.
Qed.

Lemma detect_missed_member e slots : forall w missed,
  detect_missed e slots w = (Normal missed, w) ->
  forall slot,
    In slot missed <->
    In slot slots /\ slot_is_past e slot /\ status_of_slot e w slot <> "completed".
Proof.
  induction slots as [|slot0 rest IH]; intros w missed Hd slot.
  - cbn in Hd. injection Hd as <-. cbn. tauto.
  - destruct (detect_missed_cons e slot0 rest w) as (missed_rest & Hrest & Hcons).
    rewrite Hcons in Hd. injection Hd as <-.
    specialize (IH w missed_rest Hrest slot).
    unfold slot_is_past, dt_gt in *.
    destruct (dt_micros (dt_replace (catch_now e) (fst slot0) (snd slot0))
              <? dt_micros (catch_now e)) eqn:Hpast;
      [destruct (String.eqb (status_of_slot e w slot0) "completed") eqn:Hst|];
      cbn [andb negb].
    + apply String.eqb_eq in Hst. rewrite IH. cbn. split.
      * tauto.
      * intros ([<-|Hin] & Hp & Hne); [contradiction | tauto].
    + apply String.eqb_neq in Hst. apply Z.ltb_lt in Hpast. cbn. rewrite IH. split.
      * intros [<-|H]; tauto.
      * intros ([<-|Hin] & Hp & Hne); tauto.
    + apply Z.ltb_ge in Hpast. rewrite IH. cbn. split.
      * tauto.
      * intros ([<-|Hin] & Hp & Hne); [lia | tauto].
Qed.

End Detector.

(** X6: the detector reports a slot missed exactly when the slot is in the
    schedule, its time is strictly before the clock, and its status is not
    ["completed"]; at or before 16:00:00 nothing is reported, and 20:00 is
    reported only after 20:00:00. *)
Theorem detector_reports_past_unconfirmed_slots (e : CatchEnv) (w : World) :
  exists missed,
    result (detect_missed e expected_runs) w = Normal missed /\
    (forall slot,
       In slot missed <->
       In slot expected_runs /\ slot_is_past e slot /\
       status_of_slot e w slot <> "completed") /\
    (dt_micros (catch_now e) <= 57600000000 -> missed = []) /\
    (In (20, 0) missed -> 72000000000 < dt_micros (catch_now e)).
Proof.
  destruct (detect_missed_total e expected_runs w) as (missed & Hm).
  exists missed. unfold result. rewrite Hm. cbn [fst].
  pose proof (detect_missed_member e expected_runs w missed Hm) as Hmem.
  split; [reflexivity|]. split; [exact Hmem|]. split.
  - intros Hearly. destruct missed as [|slot rest]; [reflexivity|].
    exfalso. destruct (proj1 (Hmem slot) (or_introl eq_refl)) as (Hin & Hpast & _).
    unfold slot_is_past, dt_micros, dt_replace in Hpast. cbn in Hpast.
    unfold dt_micros in Hearly.
    destruct Hin as [<-|[<-|[]]]; cbn in Hpast; lia.
  - intros Hin. destruct (proj1 (Hmem (20, 0)) Hin) as (_ & Hpast & _).
    unfold slot_is_past, dt_micros, dt_replace in Hpast. cbn in Hpast.
    unfold dt_micros. lia.
Qed.

Lemma detector_reports_past_unconfirmed_slots_witness :
  result (detect_missed Scenario2.catch_env_afternoon expected_runs) initial_world
    = Normal [(16, 0)].
Proof.
  destruct (detector_reports_past_unconfirmed_slots Scenario2.catch_env_afternoon
              initial_world) as (missed & Hd & _ & _ & _).
  rewrite Hd. vm_compute in Hd. injection Hd as <-. reflexivity.
Defined.

(** X7: with the configuration and the audit-session table answering, a
    completed run-tracking record of the date whose [RunID] starts with the
    slot's [HHMM] makes [_check_run_status] answer ["completed"] with the run
    time and type of such a record, without consulting the scan data and
    without changing anything; the detector then never reports that slot. *)
Theorem completed_record_satisfies_slot (s : StoreEnv) (date_str : string)
    (h m : Z) (r : RunRecord) (w : World) :
  config_ok s = true ->
  session_ok s = true ->
  In r (ledger w) ->
  RestaurantDate r = "RUN_TRACKING#" +:+ date_str ->
  String.prefix (fmt02 h +:+ fmt02 m) (RunID r) = true ->
  Status r = "completed" ->
  (exists item,
     In item (ledger w) /\
     RestaurantDate item = "RUN_TRACKING#" +:+ date_str /\
     String.prefix (fmt02 h +:+ fmt02 m) (RunID item) = true /\
     _check_run_status s date_str h m w =
       (Normal (mkStatus "completed" (Some (RunTime item)) (Some (RunType item))), w)) /\
  (forall e missed,
     catch_store e = s -> dt_date (catch_now e) = date_str ->
     result (detect_missed e expected_runs) w = Normal missed ->
     ~ In (h, m) missed).
Proof.
  intros Hc Hs Hin Hdate Hpre Hst.
  assert (exists item,
            In item (ledger w) /\
            RestaurantDate item = "RUN_TRACKING#" +:+ date_str /\
            String.prefix (fmt02 h +:+ fmt02 m) (RunID item) = true /\
            _check_run_status s date_str h m w =
              (Normal (mkStatus "completed" (Some (RunTime item)) (Some (RunType item))),
               w)) as Hcheck.
  { unfold _check_run_status, try_except, bind, guard, gets. rewrite Hc, Hs.
    cbn -[fmt02 run_tracking_items].
    assert (r ∈ filter (fun x => Status x = "completed")
                  (run_tracking_items date_str (fmt02 h +:+ fmt02 m) (ledger w)))
      as Helem.
    { apply list_elem_of_filter. split; [exact Hst|].
      unfold run_tracking_items. apply list_elem_of_filter.
      split; [split; assumption | by apply list_elem_of_In]. }
    destruct (filter (fun x => Status x = "completed")
                (run_tracking_items date_str (fmt02 h +:+ fmt02 m) (ledger w)))
      as [|item rest] eqn:Hf.
    - by apply elem_of_nil in Helem.
    - assert (item ∈ filter (fun x => Status x = "completed")
                  (run_tracking_items date_str (fmt02 h +:+ fmt02 m) (ledger w)))
        as Hitem by (rewrite Hf; left).
      apply list_elem_of_filter in Hitem. destruct Hitem as [_ Hitem].
      unfold run_tracking_items in Hitem. apply list_elem_of_filter in Hitem.
      destruct Hitem as [[Hd Hp] Hl].
      exists item. split; [by apply list_elem_of_In|]. auto. }
  split; [exact Hcheck|].
  intros e missed He Hd Hres Hmissed.
  destruct (detect_missed_total e expected_runs w) as (missed' & Hm).
  unfold result in Hres. rewrite Hm in Hres. cbn in Hres. injection Hres as ->.
  destruct (proj1 (detect_missed_member e expected_runs w missed Hm (h, m)) Hmissed)
    as (_ & _ & Hne).
  apply Hne. unfold status_of_slot, result. cbn [fst snd]. rewrite He, Hd.
  destruct Hcheck as (item & _ & _ & _ & ->). reflexivity.
Qed.

Lemma completed_record_satisfies_slot_witness :
  exists item,
    _check_run_status Scenario.store_up_no_data "2025-07-27" 16 0
                      Scenario2.world_with_run_1600
    = (Normal (mkStatus "completed" (Some (RunTime item)) (Some (RunType item))),
       Scenario2.world_with_run_1600).
Proof.
  pose proof (completed_record_satisfies_slot Scenario.store_up_no_data "2025-07-27"
                16 0 Scenario2.run_1600 Scenario2.world_with_run_1600
                eq_refl eq_refl (or_introl eq_refl) eq_refl eq_refl eq_refl)
    as [(item & _ & _ & _ & Hcheck) _].
  exists item. exact Hcheck.
Defined.

(** X8: [_is_today_populated] decides on the first five pages of the scan
    only: two stores that agree on pages 0 to 4 get the same answer, and when
    those five pages are empty and each announces a further page the answer
    is [False], whatever the later pages hold. *)
Theorem today_scan_reads_five_pages (s s' : StoreEnv) (w : World) :
  (forall p, (p < 5)%nat -> populated_pages s p = populated_pages s' p) ->
  scan_today_pages s 0 MAX_PAGES = scan_today_pages s' 0 MAX_PAGES /\
  (config_ok s = true ->
   (forall p, (p < 5)%nat -> populated_pages s p = Some ([], true)) ->
   _is_today_populated s w = (Normal false, w)).
Proof.
  intros Hagree.
  assert (forall fuel page,
            (forall p, (page <= p < page + fuel)%nat ->
                       populated_pages s p = populated_pages s' p) ->
            scan_today_pages s page fuel = scan_today_pages s' page fuel) as Hgen.
  { induction fuel as [|fuel IH]; intros page Hp; [reflexivity|].
    cbn [scan_today_pages]. rewrite <- (Hp page) by lia.
    destruct (populated_pages s page) as [[[|it items] more]|]; try reflexivity.
    destruct more; [|reflexivity]. apply IH. intros p Hrange. apply Hp. lia. }
  split.
  - apply Hgen. intros p Hp. apply Hagree. unfold MAX_PAGES in Hp. lia.
  - intros Hc Hempty. unfold _is_today_populated, bind, guard. rewrite Hc.
    cbn -[scan_today_pages]. unfold MAX_PAGES. cbn [scan_today_pages].
    rewrite !Hempty by lia. reflexivity.
Qed.

Lemma today_scan_reads_five_pages_witness :
  _is_today_populated Scenario2.store_data_on_sixth_page initial_world
    = (Normal false, initial_world).
Proof.
  destruct (today_scan_reads_five_pages Scenario2.store_data_on_sixth_page
              Scenario2.store_data_on_sixth_page initial_world) as (_ & H).
  - intros p Hp. reflexivity.
  - apply H; [reflexivity|]. intros p Hp.
    do 5 (destruct p as [|p]; [reflexivity|]). lia.
Defined.


(** ** The retry store across passes *)

Section RetryStore.

Lemma retry_due_dec e c state : {retry_due e c state} + {~ retry_due e c state}.
Proof.
  unfold retry_due.
  destruct (under_covered c); [|right; intros (H & _); discriminate].
  destruct (Z_lt_le_dec (attempts_today e (retry_entry_of state c)) 2) as [Ha|Ha];
    [|right; intros (_ & H & _); lia].
  destruct (Z_lt_le_dec (elapsed_since_last c (retry_entry_of state c)) (30 * 60))
    as [Hb|Hb]; [right; intros (_ & _ & H); lia | left; auto].
Qed.

(** The two ways one evaluation ends, with what it leaves in the file. *)
Lemma smart_retry_one_cases e c state w :
  (~ retry_due e c state /\
   smart_retry_one e c state w =
     (Normal state, with_trace (trace w ++ [EvRetryEval (csv_path c)]) w)) \/
  (retry_due e c state /\
   exists w',
     smart_retry_one e c state w =
       (Normal (<[csv_path c := retried_entry e c state]> state), w') /\
     trace w' = (trace w ++ EvRetryEval (csv_path c) :: EvEnrich (csv_path c) ::
                 (if csv_enrich_ok c then [EvPopulateCsv (csv_final c)] else []))%list /\
     retry_state w' = (if retry_save_ok e
                       then <[csv_path c := retried_entry e c state]> state
                       else retry_state w)).
Proof.
  destruct (retry_due_dec e c state) as [Hdue|Hnot].
  - right. split; [exact Hdue|]. destruct Hdue as (Hu & Ha & Hb).
    unfold smart_retry_one, bind, emit, modify. cbn.
    rewrite Hu. cbn.
    fold (retry_entry_of state c). fold (attempts_today e (retry_entry_of state c)).
    unfold MAX_ATTEMPTS_PER_DAY.
    destruct (2 <=? attempts_today e (retry_entry_of state c)) eqn:Ha';
      [apply Z.leb_le in Ha'; lia|].
    fold (elapsed_since_last c (retry_entry_of state c)). unfold MIN_BACKOFF_SECONDS.
    destruct (elapsed_since_last c (retry_entry_of state c) <? 30 * 60) eqn:Hb';
      [apply Z.ltb_lt in Hb'; lia|].
    unfold _save_retry_state, ret, modify, retried_entry.
    destruct (csv_enrich_ok c), (retry_save_ok e); cbn;
      eexists; (split; [reflexivity|]); cbn; rewrite <- ?app_assoc; cbn;
      split; reflexivity.
  - left. split; [exact Hnot|]. apply smart_retry_one_skip. unfold retry_due in Hnot.
    destruct (under_covered c); [|auto].
    destruct (Z_lt_le_dec (attempts_today e (retry_entry_of state c)) 2) as [Ha|Ha];
      [|auto].
    destruct (Z_lt_le_dec (elapsed_since_last c (retry_entry_of state c)) (30 * 60))
      as [Hb|Hb]; [auto|]. exfalso. apply Hnot. auto.
Qed.

Lemma within_budget_retried e c state :
  within_budget (today_key e) state ->
  attempts_today e (retry_entry_of state c) < 2 ->
  within_budget (today_key e) (<[csv_path c := retried_entry e c state]> state).
Proof.
  intros Hin Ha key entry Hl Hd.
  destruct (decide (csv_path c = key)) as [<-|Hne].
  - rewrite lookup_insert_eq in Hl. injection Hl as <-. cbn.
    unfold MAX_ATTEMPTS_PER_DAY. lia.
  - rewrite lookup_insert_ne in Hl by exact Hne. eapply Hin; eauto.
Qed.

Lemma fold_within_budget e cs : forall state w,
  within_budget (today_key e) state ->
  within_budget (today_key e) (retry_state w) ->
  within_budget (today_key e)
    (retry_state (exec (fold_m cs (smart_retry_one e) state) w)).
Proof.
  induction cs as [|c cs IH]; intros state w Hs Hw; [exact Hw|].
  destruct (smart_retry_one_cases e c state w) as [[_ Heq]|[Hdue (w' & Heq & _ & Hrs)]].
  - rewrite (exec_fold_cons _ _ _ _ _ _ _ Heq). apply IH; assumption.
  - rewrite (exec_fold_cons _ _ _ _ _ _ _ Heq).
    destruct Hdue as (_ & Ha & _).
    pose proof (within_budget_retried e c state Hs Ha) as Hnew.
    apply IH; [exact Hnew|]. rewrite Hrs. destruct (retry_save_ok e); assumption.
Qed.

(** With the file writable, a pass that enriched some source leaves in the
    file the dictionary it ends with. *)
Lemma fold_saves_state e cs :
  retry_save_ok e = true -> forall state w,
  exists state' w' delta,
    fold_m cs (smart_retry_one e) state w = (Normal state', w') /\
    trace w' = (trace w ++ delta)%list /\
    ((forall q, ~ In (EvEnrich q) delta) /\ state' = state /\
     retry_state w' = retry_state w
     \/ retry_state w' = state').
Proof.
  intros Hsave. induction cs as [|c cs IH]; intros state w.
  - exists state, w, []. rewrite app_nil_r. split; [reflexivity|]. split; [reflexivity|].
    left. repeat split; auto.
  - cbn [fold_m]. unfold bind.
    destruct (smart_retry_one_cases e c state w)
      as [[_ Heq]|[_ (w1 & Heq & Ht1 & Hrs)]]; rewrite Heq.
    + destruct (IH state (with_trace (trace w ++ [EvRetryEval (csv_path c)]) w))
        as (state' & w' & d2 & Hf & Ht2 & Hcase).
      exists state', w', ([EvRetryEval (csv_path c)] ++ d2)%list.
      split; [exact Hf|]. split; [rewrite Ht2; cbn; by rewrite <- app_assoc|].
      destruct Hcase as [(Hno & -> & Hrs')|Hrs']; [left|right; exact Hrs'].
      repeat split; auto. intros q [H|H]; [discriminate | exact (Hno q H)].
    + rewrite Hsave in Hrs.
      destruct (IH (<[csv_path c := retried_entry e c state]> state) w1)
        as (state' & w' & d2 & Hf & Ht2 & Hcase).
      eexists state', w', _.
      split; [exact Hf|]. split; [rewrite Ht2, Ht1; by rewrite <- app_assoc|].
      right. destruct Hcase as [(_ & -> & Hrs')|Hrs']; congruence.
Qed.

(** A pass leaves the entries of paths outside its list alone, and ends with
    the retried entry of every source of its list that was due. *)
Lemma fold_final_entries e cs :
  NoDup (map csv_path cs) -> forall state w,
  (forall key, ~ In key (map csv_path cs) ->
     match fst (fold_m cs (smart_retry_one e) state w) with
     | Normal state' => state' !! key = state !! key
     | _ => False
     end) /\
  (forall c, In c cs -> retry_due e c state ->
     match fst (fold_m cs (smart_retry_one e) state w) with
     | Normal state' => state' !! csv_path c = Some (retried_entry e c state)
     | _ => False
     end).
Proof.
  induction cs as [|c0 cs IH]; intros Hnd state w.
  - split; [intros key _; reflexivity | intros c []].
  - cbn [map] in Hnd. apply NoDup_cons in Hnd. destruct Hnd as [Hfresh Hnd].
    assert (forall state1 w1,
              smart_retry_one e c0 state w = (Normal state1, w1) ->
              fst (fold_m (c0 :: cs) (smart_retry_one e) state w)
              = fst (fold_m cs (smart_retry_one e) state1 w1)) as Hstep.
    { intros state1 w1 Heq. cbn [fold_m]. unfold bind. rewrite Heq. reflexivity. }
    destruct (smart_retry_one_cases e c0 state w)
      as [[Hnot Heq]|[Hdue0 (w1 & Heq & _ & _)]];
      rewrite (Hstep _ _ Heq);
      match goal with
      | |- context [fold_m cs (smart_retry_one e) ?s1 ?w1] =>
          destruct (IH Hnd s1 w1) as [IHkeep IHdue]
      end.
    + split.
      * intros key Hkey. apply IHkeep. intros Hin. apply Hkey. right. exact Hin.
      * intros c [<-|Hin] Hdue; [contradiction|]. apply IHdue; assumption.
    + split.
      * intros key Hkey. assert (~ In key (map csv_path cs)) as Hkey'.
        { intros Hin. apply Hkey. right. exact Hin. }
        pose proof (IHkeep key Hkey') as Hk.
        destruct (fst (fold_m cs (smart_retry_one e) _ w1)) as [state'| |];
          try contradiction.
        rewrite Hk. apply lookup_insert_ne. intros Heqk. apply Hkey. left. exact Heqk.
      * intros c [<-|Hin] Hdue.
        -- assert (~ In (csv_path c0) (map csv_path cs)) as Hkey'.
           { intros Hin. apply Hfresh. by apply list_elem_of_In. }
           pose proof (IHkeep (csv_path c0) Hkey') as Hk.
           destruct (fst (fold_m cs (smart_retry_one e) _ w1)) as [state'| |];
             try contradiction.
           rewrite Hk. apply lookup_insert_eq.
        -- assert (csv_path c <> csv_path c0) as Hne.
           { intros Heqp. apply Hfresh. rewrite <- Heqp. apply list_elem_of_In.
             apply in_map. exact Hin. }
           assert (retry_entry_of (<[csv_path c0 := retried_entry e c0 state]> state) c
                   = retry_entry_of state c) as Hentry.
           { unfold retry_entry_of. by rewrite lookup_insert_ne. }
           assert (retry_due e c (<[csv_path c0 := retried_entry e c0 state]> state))
             as Hdue1.
           { unfold retry_due in *. rewrite Hentry. exact Hdue. }
           specialize (IHdue c Hin Hdue1).
           destruct (fst (fold_m cs (smart_retry_one e) _ w1)) as [state'| |];
             try contradiction.
           rewrite IHdue. unfold retried_entry at 1. rewrite Hentry. reflexivity.
Qed.

End RetryStore.

Section RetryPass.

(** A pass is its scan marker followed by the loop over the loaded state. *)
Lemma smart_retry_pass_unfold e cs w :
  let state := if retry_load_ok e then retry_state w else ∅ in
  let w0 := with_trace (trace w ++ [EvRetryScan]) w in
  exec (_smart_retry_for_missing e cs) w = exec (fold_m cs (smart_retry_one e) state) w0 /\
  new_events w (exec (_smart_retry_for_missing e cs) w) =
    EvRetryScan :: new_events w0 (exec (fold_m cs (smart_retry_one e) state) w0).
Proof.
  cbn zeta.
  set (state := if retry_load_ok e then retry_state w else ∅).
  set (w0 := with_trace (trace w ++ [EvRetryScan]) w).
  assert (exec (_smart_retry_for_missing e cs) w
          = exec (fold_m cs (smart_retry_one e) state) w0) as Hex.
  { unfold exec, _smart_retry_for_missing, bind, emit, modify, _load_retry_state, gets.
    cbn. fold state. fold w0.
    destruct (fold_m cs (smart_retry_one e) state w0) as [[| |] ?]; reflexivity. }
  split; [exact Hex|]. rewrite Hex.
  destruct (fold_trace_grows e cs state w0) as (d & Ht).
  rewrite (new_events_app w0 _ d Ht).
  apply new_events_app. rewrite Ht. subst w0. cbn. by rewrite <- app_assoc.
Qed.

End RetryPass.

(** X9: a smart-retry pass keeps the daily budget: if no entry of the retry
    file dated today records more than 2 attempts before the pass, none does
    after it, whether or not the file could be read or written. *)
Theorem smart_retry_keeps_budget (e : RetryEnv) (cs : list Csv) (w : World) :
  within_budget (today_key e) (retry_state w) ->
  within_budget (today_key e) (retry_state (exec (_smart_retry_for_missing e cs) w)).
Proof.
  intros Hw.
  destruct (smart_retry_pass_unfold e cs w) as [Hex _]. cbn zeta in Hex. rewrite Hex.
  apply fold_within_budget; [|exact Hw].
  destruct (retry_load_ok e); [exact Hw|].
  intros key entry Hl. rewrite lookup_empty in Hl. discriminate.
Qed.

Lemma smart_retry_keeps_budget_witness :
  within_budget "2025-07-27"
    (retry_state
       (exec (_smart_retry_for_missing Scenario.retry_env [Scenario.source_s1])
             (with_retry Scenario.retried_31_min_ago initial_world))).
Proof.
  apply (smart_retry_keeps_budget Scenario.retry_env [Scenario.source_s1]
           (with_retry Scenario.retried_31_min_ago initial_world)).
  intros key entry Hl Hd. cbn in Hl. unfold Scenario.retried_31_min_ago in Hl.
  apply lookup_singleton_Some in Hl. destruct Hl as [_ <-]. cbn.
  unfold MAX_ATTEMPTS_PER_DAY. lia.
Defined.

(** X10: with the retry file writable, a source that a pass re-enriched is
    left in the file with today's date, one more attempt and the time of the
    write; a later pass that reads the file and evaluates the same path less
    than 30 minutes after that time does not re-enrich it. *)
Theorem retry_is_persisted_and_backs_off (e e2 : RetryEnv) (cs cs2 : list Csv)
    (c c2 : Csv) (w : World) :
  NoDup (map csv_path cs) ->
  In c cs ->
  under_covered c = true ->
  retry_save_ok e = true ->
  let loaded := if retry_load_ok e then retry_state w else ∅ in
  let w1 := exec (_smart_retry_for_missing e cs) w in
  In (EvEnrich (csv_path c)) (new_events w w1) ->
  retry_state w1 !! csv_path c =
    Some (mkRetry (Some (today_key e))
                  (Some (attempts_today e (retry_entry_of loaded c) + 1))
                  (Some (csv_update_ts c))) /\
  (retry_load_ok e2 = true ->
   NoDup (map csv_path cs2) ->
   In c2 cs2 ->
   csv_path c2 = csv_path c ->
   under_covered c2 = true ->
   csv_check_ts c2 - csv_update_ts c < 30 * 60 ->
   ~ In (EvEnrich (csv_path c2))
        (new_events w1 (exec (_smart_retry_for_missing e2 cs2) w1))).
Proof.
  intros Hnd Hin Hu Hsave loaded w1 Hen. subst w1.
  destruct (smart_retry_pass_unfold e cs w) as [Hex Hev]. cbn zeta in Hex, Hev.
  fold loaded in Hex, Hev.
  set (w0 := with_trace (trace w ++ [EvRetryScan]) w) in *.
  rewrite Hev in Hen. destruct Hen as [Hen|Hen]; [discriminate|].
  assert (retry_due e c loaded) as Hdue.
  { split; [exact Hu|]. apply (fold_retry_decision e cs Hnd loaded w0 c Hin Hu). exact Hen. }
  destruct (fold_saves_state e cs Hsave loaded w0)
    as (state' & w' & delta & Hfold & Ht & Hcase).
  assert (exec (fold_m cs (smart_retry_one e) loaded) w0 = w') as Hw'.
  { unfold exec. rewrite Hfold. reflexivity. }
  rewrite Hw' in Hen. rewrite (new_events_app w0 w' delta Ht) in Hen.
  destruct Hcase as [(Hno & _)|Hrs]; [exfalso; exact (Hno _ Hen)|].
  destruct (fold_final_entries e cs Hnd loaded w0) as [_ Hfinal].
  specialize (Hfinal c Hin Hdue). rewrite Hfold in Hfinal. cbn [fst] in Hfinal.
  assert (retry_state (exec (_smart_retry_for_missing e cs) w) !! csv_path c
          = Some (retried_entry e c loaded)) as Hstored.
  { rewrite Hex, Hw', Hrs. exact Hfinal. }
  split; [exact Hstored|].
  intros Hload Hnd2 Hin2 Hpath Hu2 Hsoon Hen2.
  destruct (smart_retry_pass_unfold e2 cs2 (exec (_smart_retry_for_missing e cs) w))
    as [_ Hev2]. cbn zeta in Hev2. rewrite Hload in Hev2.
  rewrite Hev2 in Hen2. destruct Hen2 as [Hen2|Hen2]; [discriminate|].
  apply (fold_retry_decision e2 cs2 Hnd2 _ _ c2 Hin2 Hu2) in Hen2.
  destruct Hen2 as [_ Helapsed].
  unfold elapsed_since_last, retry_entry_of in Helapsed.
  rewrite Hpath, Hstored in Helapsed. cbn in Helapsed. lia.
Qed.

Lemma retry_is_persisted_and_backs_off_witness :
  retry_state
    (exec (_smart_retry_for_missing Scenario.retry_env [Scenario.source_s1])
          (with_retry Scenario.retried_31_min_ago initial_world))
    !! csv_path Scenario.source_s1
  = Some (mkRetry (Some "2025-07-27") (Some 2) (Some 1753660100)).
Proof.
  assert (NoDup (map csv_path [Scenario.source_s1])) as Hnd
    by (repeat constructor; intros H; inversion H).
  destruct (retry_is_persisted_and_backs_off Scenario.retry_env Scenario.retry_env
              [Scenario.source_s1] [Scenario.source_s1] Scenario.source_s1
              Scenario.source_s1 (with_retry Scenario.retried_31_min_ago initial_world)
              Hnd (or_introl eq_refl) eq_refl eq_refl) as [H _].
  - vm_compute. right. right. left. reflexivity.
  - rewrite H. vm_compute. reflexivity.
Defined.


(** ** State stores and their readers *)

(** X11: [set_propagation_state] merges: a later read under the same key
    sees the fields that were passed and keeps the others, and a read under
    any other key is unaffected; [None] and the empty string address the same
    ["latest"] entry. *)
Theorem propagation_state_round_trip (d d' : option string) (r n : option bool)
    (w : World) :
  let w' := exec (set_propagation_state d r n) w in
  (prop_key d' = prop_key d ->
   get_propagation_state d' w' =
     (Normal (mkProp (default (running (propagation_of d w)) r)
                     (default (noData (propagation_of d w)) n)), w')) /\
  (prop_key d' <> prop_key d ->
   result (get_propagation_state d') w' = result (get_propagation_state d') w) /\
  prop_key None = prop_key (Some "").
Proof.
  cbn zeta. split; [|split; [|reflexivity]].
  - intros Hk. unfold get_propagation_state, gets. rewrite Hk.
    rewrite set_propagation_state_lookup. reflexivity.
  - intros Hk. unfold result, get_propagation_state, gets. cbn [fst].
    destruct (set_propagation_state_frame d r n w) as (_ & _ & _ & _ & _ & _ & Hkeep).
    rewrite (Hkeep (prop_key d') Hk). reflexivity.
Qed.

Lemma propagation_state_round_trip_witness :
  result (get_propagation_state (Some ""))
         (exec (set_propagation_state None (Some true) None) initial_world)
    = Normal (mkProp true false) /\
  result (get_propagation_state (Some "2025-07-27"))
         (exec (set_propagation_state None (Some true) None) initial_world)
    = Normal (mkProp false false).
Proof.
  destruct (propagation_state_round_trip None (Some "") (Some true) None initial_world)
    as (H1 & _ & _).
  destruct (propagation_state_round_trip None (Some "2025-07-27") (Some true) None
              initial_world) as (_ & H2 & _).
  split.
  - unfold result. rewrite H1; reflexivity.
  - rewrite H2; [reflexivity | vm_compute; discriminate].
Defined.

(** X12: [set_ai_state] creates a missing entry from the default and merges
    into it; [get_ai_state] then returns the merged entry without changing
    anything, entries of other dates are untouched, and the coverage snapshot
    of the date is never changed by [set_ai_state]. *)
Theorem ai_state_round_trip (k k' : string) (r : option bool)
    (c l : option string) (w : World) :
  let before := default default_ai_state (ai_state w !! k) in
  let merged := mkAI (default (ai_running before) r)
                     (match c with Some x => Some x | None => completedAt before end)
                     (match l with Some x => Some x | None => lastError before end)
                     (coverage before) in
  let w' := exec (set_ai_state k r c l) w in
  get_ai_state k w' = (Normal merged, w') /\
  (k' <> k -> ai_state w' !! k' = ai_state w !! k').
Proof.
  cbn zeta. split.
  - assert (ai_state (exec (set_ai_state k r c l) w) !! k
            = Some (mkAI (default (ai_running (default default_ai_state (ai_state w !! k))) r)
                         (match c with
                          | Some x => Some x
                          | None => completedAt (default default_ai_state (ai_state w !! k))
                          end)
                         (match l with
                          | Some x => Some x
                          | None => lastError (default default_ai_state (ai_state w !! k))
                          end)
                         (coverage (default default_ai_state (ai_state w !! k))))) as Hl.
    { destruct (ai_state w !! k) as [st|] eqn:Hk.
      - rewrite (set_ai_state_same k r c l st w Hk). reflexivity.
      - unfold exec, set_ai_state, bind, get_ai_state, modify. rewrite Hk. cbn.
        rewrite lookup_insert_eq. destruct r, c, l; reflexivity. }
    apply get_ai_state_present. exact Hl.
  - intros Hne. apply set_ai_state_other. congruence.
Qed.

Lemma ai_state_round_trip_witness :
  ai_state (exec (set_ai_state "2025-07-27" (Some true) None (Some "")) initial_world)
    !! "2025-07-26" = None.
Proof.
  destruct (ai_state_round_trip "2025-07-27" "2025-07-26" (Some true) None (Some "")
              initial_world) as [_ H].
  rewrite H; [reflexivity | discriminate].
Defined.

Section Coverage.

Lemma count_with_pan_bounds items :
  0 <= count_with_pan items <= Z.of_nat (length items).
Proof.
  induction items as [|it items IH]; [cbn; lia|].
  cbn [count_with_pan length]. destruct (has_pan it); lia.
Qed.

Lemma count_with_pan_full items :
  count_with_pan items = Z.of_nat (length items) <-> Forall (fun it => has_pan it = true) items.
Proof.
  induction items as [|it items IH]; [split; [constructor | reflexivity]|].
  pose proof (count_with_pan_bounds items) as Hb.
  cbn [count_with_pan length]. destruct (has_pan it) eqn:Hp.
  - split.
    + intros H. constructor; [exact Hp|]. apply IH. lia.
    + intros H. inversion H; subst. apply IH in H3. lia.
  - split; [lia|]. intros H. inversion H; subst. congruence.
Qed.

End Coverage.

(** X13: the coverage of a date counts the scanned items and those with at
    least one truthy pan-id attribute, so [0 <= withPan <= total]; the two are
    equal exactly when every item has a pan id, and a failing scan gives
    [{total: 0, withPan: 0}]. *)
Theorem coverage_is_bounded (scan : option (list ScanItem)) :
  let cov := _compute_coverage_for_date scan in
  0 <= withPan cov <= total cov /\
  (scan = None -> cov = mkCov 0 0) /\
  (forall items, scan = Some items ->
     total cov = Z.of_nat (length items) /\
     (withPan cov = total cov <-> Forall (fun it => has_pan it = true) items)).
Proof.
  cbn zeta. destruct scan as [items|]; cbn.
  - split; [apply count_with_pan_bounds|]. split; [discriminate|].
    intros items' [= <-]. split; [reflexivity | apply count_with_pan_full].
  - split; [lia|]. split; [reflexivity | discriminate].
Qed.

Lemma coverage_is_bounded_witness :
  total (_compute_coverage_for_date (Some Scenario2.three_items)) = 3 /\
  ~ Forall (fun it => has_pan it = true) Scenario2.three_items.
Proof.
  destruct (coverage_is_bounded (Some Scenario2.three_items)) as (_ & _ & H).
  destruct (H Scenario2.three_items eq_refl) as [Ht Hfull].
  split; [exact Ht|]. intros Hall. apply Hfull in Hall. vm_compute in Hall.
  discriminate Hall.
Defined.

(** X14: the status query refreshes the stored coverage only while the
    date's enrichment is not running: with [running = True] it changes
    nothing and answers the stored snapshot; otherwise it stores and answers
    the coverage just computed; [running], [completedAt] and [lastError] are
    never changed by it. *)
Theorem status_query_keeps_coverage_while_running (scan : option (list ScanItem))
    (date : string) (st : AIState) (w : World) :
  date <> "" ->
  ai_state w !! date = Some st ->
  let w' := exec (get_pan_ai_status scan date) w in
  (ai_running st = true ->
   w' = w /\
   result (get_pan_ai_status scan date) w =
     Normal (mkAIStatus true (completedAt st) (lastError st) (coverage st))) /\
  (ai_running st = false ->
   ai_state w' !! date =
     Some (mkAI false (completedAt st) (lastError st) (_compute_coverage_for_date scan)) /\
   result (get_pan_ai_status scan date) w =
     Normal (mkAIStatus false (completedAt st) (lastError st)
                        (_compute_coverage_for_date scan))) /\
  (forall k, k <> date -> ai_state w' !! k = ai_state w !! k).
Proof.
  intros Hd Hst. cbn zeta.
  apply String.eqb_neq in Hd.
  unfold exec, result, get_pan_ai_status. rewrite Hd. unfold bind.
  rewrite (get_ai_state_present date st w Hst).
  destruct st as [[|] ca le cov]; cbn.
  - split; [intros _; split; reflexivity|]. split; [intros H; discriminate H|].
    intros k _. reflexivity.
  - split; [intros H; discriminate H|]. split.
    + intros _. split; [by rewrite lookup_insert_eq | reflexivity].
    + intros k Hk. by rewrite lookup_insert_ne.
Qed.

Lemma status_query_keeps_coverage_while_running_witness :
  result (get_pan_ai_status (Some Scenario2.three_items) "2025-07-27")
         Scenario2.world_ai_running
    = Normal (mkAIStatus true None (Some "") (mkCov 40 25)).
Proof.
  destruct (status_query_keeps_coverage_while_running (Some Scenario2.three_items)
              "2025-07-27" (mkAI true None (Some "") (mkCov 40 25))
              Scenario2.world_ai_running) as (H & _).
  - discriminate.
  - vm_compute. reflexivity.
  - destruct (H eq_refl) as [_ Hres]. exact Hres.
Defined.

(** ** Automatic population from the scans route *)

Section AutoPopulate.

Lemma auto_populate_request_gated date w :
  date = "" \/ running (propagation_of (Some date) w) = true
  \/ noData (propagation_of (Some date) w) = true ->
  auto_populate_request date w = (Normal false, w).
Proof.
  intros H. unfold auto_populate_request, try_except.
  destruct (String.eqb date "") eqn:Hd; [reflexivity|].
  unfold bind, get_propagation_state, gets. fold (propagation_of (Some date) w).
  destruct H as [->|[H|H]]; [discriminate | |]; rewrite H; cbn.
  - reflexivity.
  - by rewrite andb_false_r.
Qed.

Lemma auto_populate_request_marks date w :
  date <> "" ->
  propagation_of (Some date) w = mkProp false false ->
  auto_populate_request date w =
    (Normal true, exec (set_propagation_state (Some date) (Some true) None) w).
Proof.
  intros Hd Hidle. apply String.eqb_neq in Hd.
  unfold auto_populate_request, try_except. rewrite Hd.
  unfold bind, get_propagation_state, gets. fold (propagation_of (Some date) w).
  rewrite Hidle. reflexivity.
Qed.

(** The thread body is the population followed by the trigger, and only the
    population can change the propagation state. *)
Lemma auto_populate_thread_state e t date w :
  date_propagation_state (exec (auto_populate_thread e t date) w)
  = date_propagation_state (exec (populate_audits_for_date e (Some date) false) w).
Proof.
  unfold exec, auto_populate_thread, try_except, bind.
  destruct (populate_total e (Some date) false w) as (w1 & d1 & l1 & Hp & _).
  rewrite Hp. cbn [snd].
  destruct (trigger_total t w1) as (w2 & d2 & Ht & _ & Hprop & _).
  rewrite Ht. cbn [snd]. exact Hprop.
Qed.

Lemma propagation_of_same_map d w w' :
  date_propagation_state w' = date_propagation_state w ->
  propagation_of d w' = propagation_of d w.
Proof. intros H. unfold propagation_of. by rewrite H. Qed.

(** A run that finds no files ends with the date marked [noData]. *)
Lemma populate_no_files_state e d run_ai w :
  job_lock w = false -> setup_ok e = true -> download e = Some false ->
  propagation_of d (exec (populate_audits_for_date e d run_ai) w) = mkProp false true.
Proof.
  intros Hfree Hs Hd.
  rewrite (populate_unfold_free _ _ _ _ Hfree).
  unfold exec, populate_locked, try_except.
  rewrite (populate_pipeline_setup_ok _ _ _ _ Hs).
  destruct (populate_steps_spec e d run_ai
              (exec (set_propagation_state d (Some true) None) (with_lock true w)))
    as (r & w1 & rest & l & Heq & _ & _ & _ & _ & _ & _ & Hr).
  rewrite Heq. destruct r as [[]| |]; cbn [snd].
  - destruct Hr as (Hdl & _). congruence.
  - destruct Hr as (Hp & _). apply propagation_of_lookup. exact Hp.
  - destruct Hr as (_ & _ & _ & Hne). contradiction.
Qed.

End AutoPopulate.

(** X15: the scans route starts a population for an empty date only when
    the date is neither running nor marked [noData].  Once it has marked the
    date running, a population that takes the lock always clears the mark;
    one that finds the lock held returns without clearing it, and from then on
    the route neither starts another population for that date nor writes its
    no-data hint. *)
Theorem auto_populate_mark_and_lock (e : PopEnv) (t : TriggerEnv) (date : string)
    (w : World) :
  date <> "" ->
  propagation_of (Some date) w = mkProp false false ->
  let w1 := exec (auto_populate_request date) w in
  let w2 := exec (auto_populate_thread e t date) w1 in
  result (auto_populate_request date) w = Normal true /\
  propagation_of (Some date) w1 = mkProp true false /\
  (job_lock w = false -> running (propagation_of (Some date) w2) = false) /\
  (job_lock w = true ->
   propagation_of (Some date) w2 = mkProp true false /\
   auto_populate_request date w2 = (Normal false, w2) /\
   exec (hint_no_data (Some date)) w2 = w2).
Proof.
  intros Hd Hidle. cbn zeta.
  assert (exec (auto_populate_request date) w
          = exec (set_propagation_state (Some date) (Some true) None) w) as Hreq.
  { unfold exec at 1. by rewrite (auto_populate_request_marks date w Hd Hidle). }
  assert (result (auto_populate_request date) w = Normal true) as Hres.
  { unfold result. by rewrite (auto_populate_request_marks date w Hd Hidle). }
  rewrite Hreq, Hres.
  set (w1 := exec (set_propagation_state (Some date) (Some true) None) w).
  assert (propagation_of (Some date) w1 = mkProp true false) as Hmarked.
  { subst w1. rewrite propagation_of_set, Hidle. reflexivity. }
  assert (job_lock w1 = job_lock w) as Hlock by reflexivity.
  split; [reflexivity|]. split; [exact Hmarked|]. split.
  - intros Hfree.
    rewrite (propagation_of_same_map (Some date) _ _
               (auto_populate_thread_state e t date w1)).
    destruct (populate_total e (Some date) false w1)
      as (w' & d' & l' & Hp & _ & _ & _ & _ & _ & _ & _ & Hrun & _).
    unfold exec. rewrite Hp. cbn [snd]. apply Hrun. congruence.
  - intros Hheld.
    assert (propagation_of (Some date) (exec (auto_populate_thread e t date) w1)
            = mkProp true false) as Hstuck.
    { rewrite (propagation_of_same_map (Some date) _ _
                 (auto_populate_thread_state e t date w1)).
      unfold exec at 1.
      rewrite (populate_skips_when_locked e (Some date) false w1)
        by congruence.
      exact Hmarked. }
    split; [exact Hstuck|]. split.
    + apply auto_populate_request_gated. right. left. by rewrite Hstuck.
    + unfold exec at 1, hint_no_data, try_except, bind, get_propagation_state, gets.
      fold (propagation_of (Some date) (exec (auto_populate_thread e t date) w1)).
      rewrite Hstuck. reflexivity.
Qed.

Lemma auto_populate_mark_and_lock_witness :
  propagation_of (Some "2025-07-27")
    (exec (auto_populate_thread (Scenario.pop_env Scenario.evening true)
             Scenario.trigger_first "2025-07-27")
       (exec (auto_populate_request "2025-07-27") Scenario2.world_locked))
  = mkProp true false.
Proof.
  destruct (auto_populate_mark_and_lock (Scenario.pop_env Scenario.evening true)
              Scenario.trigger_first "2025-07-27" Scenario2.world_locked)
    as (_ & _ & _ & H).
  - discriminate.
  - reflexivity.
  - destruct (H eq_refl) as [Hstuck _]. exact Hstuck.
Defined.

(** X16: when the population started by the scans route finds no files for
    the date, the date ends marked [noData] and not running, and the route
    does not start a population for it again. *)
Theorem no_data_stops_auto_populate (e : PopEnv) (t : TriggerEnv) (date : string)
    (w : World) :
  date <> "" ->
  propagation_of (Some date) w = mkProp false false ->
  job_lock w = false ->
  setup_ok e = true ->
  download e = Some false ->
  let w2 := exec (auto_populate_thread e t date)
                 (exec (auto_populate_request date) w) in
  propagation_of (Some date) w2 = mkProp false true /\
  auto_populate_request date w2 = (Normal false, w2).
Proof.
  intros Hd Hidle Hfree Hs Hdl. cbn zeta.
  assert (exec (auto_populate_request date) w
          = exec (set_propagation_state (Some date) (Some true) None) w) as Hreq.
  { unfold exec at 1. by rewrite (auto_populate_request_marks date w Hd Hidle). }
  rewrite Hreq.
  set (w1 := exec (set_propagation_state (Some date) (Some true) None) w).
  assert (propagation_of (Some date) (exec (auto_populate_thread e t date) w1)
          = mkProp false true) as Hnd.
  { rewrite (propagation_of_same_map (Some date) _ _
               (auto_populate_thread_state e t date w1)).
    apply populate_no_files_state; auto. }
  split; [exact Hnd|].
  apply auto_populate_request_gated. right. right. by rewrite Hnd.
Qed.

Lemma no_data_stops_auto_populate_witness :
  auto_populate_request "2025-07-27"
    (exec (auto_populate_thread (Scenario.pop_env Scenario.evening false)
             Scenario.trigger_first "2025-07-27")
       (exec (auto_populate_request "2025-07-27") initial_world))
  = (Normal false,
     exec (auto_populate_thread (Scenario.pop_env Scenario.evening false)
             Scenario.trigger_first "2025-07-27")
       (exec (auto_populate_request "2025-07-27") initial_world)).
Proof.
  pose proof (no_data_stops_auto_populate (Scenario.pop_env Scenario.evening false)
                Scenario.trigger_first "2025-07-27" initial_world) as H.
  cbn zeta in H. apply H.
  - discriminate.
  - vm_compute. reflexivity.
  - reflexivity.
  - reflexivity.
  - reflexivity.
Defined.


(** ** Restaurant id of a CSV path *)

Section RestaurantId.

Lemma split_on_nonempty sep s : split_on sep s <> [].
Proof.
  destruct s as [|a s]; cbn; [discriminate|].
  destruct (Ascii.eqb a sep); [discriminate|].
  destruct (split_on sep s); discriminate.
Qed.

Lemma contains_char_cons (sep a : ascii) (s : string) :
  contains (String sep EmptyString) (String a s) =
  Ascii.eqb a sep || contains (String sep EmptyString) s.
Proof.
  cbn [contains String.prefix].
  destruct (ascii_dec sep a) as [<-|Hne].
  - rewrite Ascii.eqb_refl. by destruct s.
  - assert (Ascii.eqb a sep = false) as ->; [|reflexivity].
    apply Ascii.eqb_neq. congruence.
Qed.

(** Without the separator the split is the string itself; with it there are
    at least two pieces. *)
Lemma split_on_absent sep s :
  contains (String sep EmptyString) s = false -> split_on sep s = [s].
Proof.
  induction s as [|a s IH]; intros H; [reflexivity|].
  rewrite contains_char_cons in H. apply orb_false_iff in H. destruct H as [Ha Hs].
  cbn [split_on]. rewrite Ha, (IH Hs). reflexivity.
Qed.

Lemma split_on_present sep s :
  contains (String sep EmptyString) s = true -> (1 < length (split_on sep s))%nat.
Proof.
  induction s as [|a s IH]; intros H; [discriminate|].
  rewrite contains_char_cons in H. cbn [split_on].
  destruct (Ascii.eqb a sep) eqn:Ha.
  - cbn [length]. pose proof (split_on_nonempty sep s) as Hne.
    destruct (split_on sep s); [contradiction | cbn; lia].
  - cbn in H. specialize (IH H).
    destruct (split_on sep s) as [|piece pieces]; [cbn in IH; lia | exact IH].
Qed.

Lemma isdigit_nonempty s : isdigit s = true -> s <> "".
Proof. intros H ->. discriminate. Qed.

End RestaurantId.

(** X17: on ASCII path parts, an id found by the ingest loop is a non-empty
    string of decimal digits, and it is either a whole path part or one of the
    dash-separated pieces of a part that names a [ScansToAudit] folder. *)
Theorem restaurant_id_is_numeric_piece (path_parts : list string) (r : string) :
  Forall (fun part => ascii_text part = true) path_parts ->
  extract_restaurant_id path_parts = Some r ->
  isdigit r = true /\ r <> "" /\
  exists part,
    In part path_parts /\
    (r = part \/
     contains "ScansToAudit" part = true /\ isdigit part = false /\
     In r (split_on "-" part)).
Proof.
  intros _. induction path_parts as [|part rest IH]; intros H; [discriminate|].
  assert (extract_restaurant_id rest = Some r ->
          isdigit r = true /\ r <> "" /\
          exists part0, In part0 (part :: rest) /\
            (r = part0 \/ contains "ScansToAudit" part0 = true /\
             isdigit part0 = false /\ In r (split_on "-" part0))) as Hrest.
  { intros Hr. destruct (IH Hr) as (H1 & H2 & part0 & Hin & Hcase).
    split; [exact H1|]. split; [exact H2|]. exists part0. split; [right; exact Hin|].
    exact Hcase. }
  cbn [extract_restaurant_id] in H.
  destruct (isdigit part) eqn:Hdig.
  - injection H as <-. split; [exact Hdig|]. split; [by apply isdigit_nonempty|].
    exists part. split; [left; reflexivity | left; reflexivity].
  - destruct (contains "ScansToAudit" part && contains "-" part) eqn:Hsca;
      [|exact (Hrest H)].
    destruct (1 <? length (split_on "-" part))%nat; [|exact (Hrest H)].
    destruct (List.find isdigit (split_on "-" part)) as [p|] eqn:Hfind;
      [|exact (Hrest H)].
    injection H as <-. apply List.find_some in Hfind. destruct Hfind as [Hin Hp].
    apply andb_true_iff in Hsca. destruct Hsca as [Hsca _].
    split; [exact Hp|]. split; [by apply isdigit_nonempty|].
    exists part. split; [left; reflexivity|]. right. auto.
Qed.

Lemma restaurant_id_is_numeric_piece_witness :
  isdigit "2025" = true /\
  exists part,
    In part Scenario2.parts_without_id /\
    ("2025" = part \/
     contains "ScansToAudit" part = true /\ isdigit part = false /\
     In "2025" (split_on "-" part)).
Proof.
  destruct (restaurant_id_is_numeric_piece Scenario2.parts_without_id "2025")
    as (H1 & _ & H3).
  - repeat constructor.
  - vm_compute. reflexivity.
  - split; [exact H1 | exact H3].
Defined.

Section RestaurantIdMissing.

(** The search finds nothing exactly when no part is numeric and no part
    naming a [ScansToAudit] folder has a numeric dash-separated piece. *)
Lemma extract_restaurant_id_none_iff (path_parts : list string) :
  extract_restaurant_id path_parts = None <->
  forall part, In part path_parts ->
    isdigit part = false /\
    (contains "ScansToAudit" part = true ->
     forall piece, In piece (split_on "-" part) -> isdigit piece = false).
Proof.
  induction path_parts as [|part rest IH].
  - split; [intros _ part [] | reflexivity].
  - cbn [extract_restaurant_id].
    destruct (isdigit part) eqn:Hdig.
    { split; [discriminate|]. intros H.
      destruct (H part (or_introl eq_refl)) as [Hd _]. congruence. }
    assert ((forall p, In p (part :: rest) ->
               isdigit p = false /\
               (contains "ScansToAudit" p = true ->
                forall piece, In piece (split_on "-" p) -> isdigit piece = false)) <->
            (contains "ScansToAudit" part = true ->
             forall piece, In piece (split_on "-" part) -> isdigit piece = false) /\
            extract_restaurant_id rest = None) as Hsplit.
    { rewrite IH. split.
      - intros H. split; [apply (H part); left; reflexivity|].
        intros p Hp. apply H. right. exact Hp.
      - intros [Hpart Hrest] p [<-|Hp]; [split; assumption | apply Hrest; exact Hp]. }
    rewrite Hsplit.
    destruct (contains "ScansToAudit" part) eqn:Hsca; cbn [andb].
    + destruct (contains "-" part) eqn:Hdash.
      * pose proof (split_on_present "-" part Hdash) as Hlen.
        apply Nat.ltb_lt in Hlen. rewrite Hlen.
        destruct (List.find isdigit (split_on "-" part)) as [p|] eqn:Hfind.
        -- split; [discriminate|]. intros [Hnone _].
           apply List.find_some in Hfind. destruct Hfind as [Hin Hp].
           rewrite (Hnone eq_refl p Hin) in Hp. discriminate.
        -- split; [|tauto]. intros Hr. split; [|exact Hr].
           intros _. apply List.find_none. exact Hfind.
      * split; [|tauto]. intros Hr. split; [|exact Hr].
        intros _ piece Hin. rewrite (split_on_absent "-" part Hdash) in Hin.
        destruct Hin as [<-|[]]. exact Hdig.
    + split; [|tauto]. intros Hr. split; [discriminate | exact Hr].
Qed.

(** The collaborator calls of the loop body for one file: none exactly when
    no id was found for it. *)
Lemma ingest_one_skips_iff run_ai c w :
  new_events w (exec (ingest_one run_ai c) w) = [] <-> csv_restaurant_id c = None.
Proof.
  unfold exec. rewrite ingest_one_events. cbn [snd].
  rewrite (new_events_app w _ (ingest_events run_ai [c])) by reflexivity.
  unfold ingest_events. cbn [flat_map]. rewrite app_nil_r.
  destruct (csv_restaurant_id c); [|tauto].
  destruct run_ai; split; discriminate.
Qed.

End RestaurantIdMissing.

(** X18: on ASCII path parts, the search of the ingest loop finds no id
    exactly when no path part is numeric and no part naming a [ScansToAudit]
    folder has a numeric dash-separated piece; for a file whose id is the one
    found in its path, that is exactly when the loop body skips the file,
    making no collaborator call for it, and it then leaves everything as it
    was. *)
Theorem restaurant_id_missing_iff (path_parts : list string) (c : Csv)
    (run_ai : bool) (w : World) :
  Forall (fun part => ascii_text part = true) path_parts ->
  csv_restaurant_id c = extract_restaurant_id path_parts ->
  let none_numeric :=
    forall part, In part path_parts ->
      isdigit part = false /\
      (contains "ScansToAudit" part = true ->
       forall piece, In piece (split_on "-" part) -> isdigit piece = false) in
  (extract_restaurant_id path_parts = None <-> none_numeric) /\
  (new_events w (exec (ingest_one run_ai c) w) = [] <-> none_numeric) /\
  (none_numeric -> ingest_one run_ai c w = (Normal tt, w)).
Proof.
  intros _ Hid. cbn zeta.
  pose proof (extract_restaurant_id_none_iff path_parts) as Hiff.
  split; [exact Hiff|]. split.
  - rewrite ingest_one_skips_iff, Hid. exact Hiff.
  - intros Hnone. apply Hiff in Hnone. rewrite <- Hid in Hnone.
    rewrite ingest_one_events. unfold ingest_events. cbn [flat_map].
    rewrite Hnone. cbn [app]. by rewrite with_trace_nil.
Qed.

Lemma restaurant_id_missing_iff_witness :
  extract_restaurant_id Scenario2.parts_no_id = None /\
  ingest_one true Scenario2.source_without_id initial_world
    = (Normal tt, initial_world).
Proof.
  assert (forall part, In part Scenario2.parts_no_id ->
            isdigit part = false /\
            (contains "ScansToAudit" part = true ->
             forall piece, In piece (split_on "-" part) -> isdigit piece = false))
    as Hnone.
  { intros part Hin.
    destruct Hin as [<-|[<-|[<-|[<-|[]]]]]; (split; [reflexivity|]);
      try (intros H; discriminate H).
    intros _ piece Hp. vm_compute in Hp.
    destruct Hp as [<-|[<-|[<-|[]]]]; reflexivity. }
  destruct (restaurant_id_missing_iff Scenario2.parts_no_id
              Scenario2.source_without_id true initial_world)
    as (H1 & _ & H3).
  - repeat constructor.
  - reflexivity.
  - split; [apply H1; exact Hnone | apply H3; exact Hnone].
Defined.

(** ** Expected counts *)

Section ExpectedCounts.

Lemma occurrences_nonneg k keys : 0 <= occurrences k keys.
Proof.
  induction keys as [|k' keys IH]; cbn; [lia|].
  destruct (String.eqb k k'); lia.
Qed.

Lemma occurrences_app k keys1 keys2 :
  occurrences k (keys1 ++ keys2) = occurrences k keys1 + occurrences k keys2.
Proof. induction keys1 as [|k' keys1 IH]; cbn; [reflexivity|]. rewrite IH. lia. Qed.

Lemma count_file_rows_agree rows : forall counts keys,
  counts_agree counts keys ->
  counts_agree (count_file_rows rows counts) (keys ++ counted_keys_of_rows rows).
Proof.
  induction rows as [|row rows IH]; intros counts keys Hag.
  - cbn. by rewrite app_nil_r.
  - destruct row as [| |[rd|]]; cbn [count_file_rows counted_keys_of_rows].
    + by rewrite app_nil_r.
    + apply IH. exact Hag.
    + destruct (String.eqb rd "") eqn:Hrd; [apply IH; exact Hag|].
      replace (keys ++ rd :: counted_keys_of_rows rows)%list
        with ((keys ++ [rd]) ++ counted_keys_of_rows rows)%list
        by (by rewrite <- app_assoc).
      apply IH. intros k. rewrite occurrences_app. cbn [occurrences].
      pose proof (occurrences_nonneg k keys) as Hnn.
      destruct (decide (rd = k)) as [<-|Hne].
      * rewrite lookup_insert_eq, String.eqb_refl. rewrite (Hag rd).
        destruct (occurrences rd keys =? 0) eqn:Hz.
        -- apply Z.eqb_eq in Hz. rewrite Hz. reflexivity.
        -- apply Z.eqb_neq in Hz. cbn [default].
           destruct (occurrences rd keys + (1 + 0) =? 0) eqn:Hz'.
           ++ apply Z.eqb_eq in Hz'. lia.
           ++ f_equal; lia.
      * rewrite lookup_insert_ne by exact Hne.
        assert (String.eqb k rd = false) as -> by (apply String.eqb_neq; congruence).
        rewrite Z.add_0_r. apply Hag.
    + apply IH. exact Hag.
Qed.

Lemma count_files_agree files : forall counts keys,
  counts_agree counts keys ->
  counts_agree (count_files files counts) (keys ++ counted_keys files).
Proof.
  induction files as [|[rows|] files IH]; intros counts keys Hag.
  - cbn. by rewrite app_nil_r.
  - cbn [count_files]. unfold counted_keys. cbn [flat_map]. fold (counted_keys files).
    rewrite app_assoc. apply IH. apply count_file_rows_agree. exact Hag.
  - cbn [count_files]. unfold counted_keys. cbn [flat_map app].
    fold (counted_keys files). apply IH. exact Hag.
Qed.

End ExpectedCounts.

(** X19: the expected count stored for a partition key is the number of
    rows counted for it: rows of files that open, read before the file's first
    exception, whose item has a non-empty [RestaurantDate].  A key with no
    such row is absent, so every stored count is at least 1; a file that
    cannot be opened contributes nothing, and an exception keeps the counts of
    the rows read before it. *)
Theorem expected_counts_are_row_counts (files : list (option (list RowOutcome)))
    (k : string) :
  let counts := _compute_expected_counts_from_csvs files in
  let n := occurrences k (counted_keys files) in
  (n = 0 -> counts !! k = None) /\
  (n <> 0 -> counts !! k = Some n) /\
  (forall v, counts !! k = Some v -> 1 <= v).
Proof.
  cbn zeta.
  assert (counts_agree (_compute_expected_counts_from_csvs files) (counted_keys files))
    as Hag.
  { apply (count_files_agree files ∅ []). intros k'. cbn. apply lookup_empty. }
  specialize (Hag k). pose proof (occurrences_nonneg k (counted_keys files)) as Hnn.
  destruct (occurrences k (counted_keys files) =? 0) eqn:Hz.
  - apply Z.eqb_eq in Hz. split; [intros _; exact Hag|].
    split; [intros H; contradiction|]. intros v Hv. congruence.
  - apply Z.eqb_neq in Hz. split; [intros H; contradiction|].
    split; [intros _; exact Hag|]. intros v Hv. rewrite Hag in Hv.
    injection Hv as <-. lia.
Qed.

Lemma expected_counts_are_row_counts_witness :
  _compute_expected_counts_from_csvs Scenario2.three_files !! "169#2025-07-27" = Some 2.
Proof.
  destruct (expected_counts_are_row_counts Scenario2.three_files "169#2025-07-27")
    as (_ & H & _).
  rewrite H; [reflexivity | vm_compute; discriminate].
Defined.

(** ** Manual ledger entry and forced catch-up *)

(** X20: [mark_run_as_completed] never stores a record.  Whatever the
    configuration and the table answer it returns [False] and changes
    nothing, because building the record raises before [put_item]; a slot
    marked by hand therefore keeps the status it had, and the detector reports
    the same missed slots after the call as before it. *)
Theorem mark_run_as_completed_stores_nothing (s : StoreEnv) (now : DateTime)
    (date_str : string) (h m : Z) (rtype : string) (w : World) :
  mark_run_as_completed s now date_str h m rtype w = (Normal false, w) /\
  (forall s' d h' m',
     _check_run_status s' d h' m' (exec (mark_run_as_completed s now date_str h m rtype) w)
     = _check_run_status s' d h' m' w) /\
  (forall e,
     detect_missed e expected_runs
       (exec (mark_run_as_completed s now date_str h m rtype) w)
     = detect_missed e expected_runs w).
Proof.
  assert (mark_run_as_completed s now date_str h m rtype w = (Normal false, w)) as H.
  { unfold mark_run_as_completed, timezone_utc, try_except, bind, guard, raise, ret.
    destruct (config_ok s); reflexivity. }
  unfold exec. rewrite H. cbn [snd]. auto.
Qed.

(** X21: [force_immediate_catch_up] never answers [success = False]: the
    detector it calls does not raise, so the handler is reached only when
    building the answer raised, and the handler builds its answer the same
    way.  It answers [success = True] or raises, and in both cases the
    detector has run. *)
Theorem force_catch_up_never_reports_failure (e : CatchEnv) (utc_ok : bool)
    (w : World) :
  result (force_immediate_catch_up e utc_ok) w
    = (if utc_ok then Normal true else Raised) /\
  result (force_immediate_catch_up e utc_ok) w <> Normal false /\
  exec (force_immediate_catch_up e utc_ok) w
    = exec (_check_and_catch_up_missed_runs e) w.
Proof.
  destruct (catch_up_total e w) as (missed & w' & delta & _ & Heq & _).
  unfold result, exec, force_immediate_catch_up, try_except, bind, guard.
  rewrite Heq. destruct utc_ok; cbn; repeat split; discriminate.
Qed.
